(** * graval: the per-connection FTP protocol engine

    A shallow embedding of [ftpconn.go], [commands.go] and the data-socket
    file of the graval FTP server library, together with the properties of
    the protocol engine that its specification states.

    Go strings are byte strings, modelled by [string] (a list of 8-bit
    [ascii]).  Machine integers are modelled by [Z] with the wrap-around
    written out.  Handlers run in a small state monad over the session
    record, the driver's state and a chronological trace of the observable
    events (control-channel writes, driver calls, socket operations).
    The results that the outside world decides (whether a write fails,
    whether a dial succeeds, which port the passive listener binds) are
    read from an environment of oracles indexed by the history so far.
    Calls to the logger, which may be absent, are left out. *)

From Stdlib Require Import String Ascii List ZArith Lia Bool DecimalString.
Import ListNotations.

Local Open Scope string_scope.
Local Open Scope Z_scope.

(* ================================================================== *)
(** * Part I: definitions *)
(* ================================================================== *)

(** ** Outcomes of a Go call

    A call returns, panics (a run-time panic such as an index out of range
    or a nil dereference), or never returns.  A call that never returns
    loops without end, or the process ends under it: a panic in another
    goroutine is recovered by no deferred call of this one and ends the
    program.  Go [error] values are ordinary return values and are not
    part of this type. *)

Inductive outcome (A : Type) : Type :=
| Ret (a : A)
| Panic (msg : string)
| Hang.

Arguments Ret {A} a.
Arguments Panic {A} msg.
Arguments Hang {A}.

(** ** Go [error] values *)

#[warnings="-register-all"]
Inductive error : Type :=
| errorString (msg : string)             (* errors.New and library errors *)
| wrapError (msg : string) (e : error)   (* fmt.Errorf(".. %w", e) *)
| multiError (es : list error).          (* *multierror.Error *)

(** The errors that [multierror.Append] takes from one argument: the
    list of a [*multierror.Error], the error itself otherwise. *)
Definition flatten (e : error) : list error :=
  match e with
  | multiError es => es
  | _ => [e]
  end.

(** [multierror.Append(errs, err)]: the result is always a
    [*multierror.Error]; a nil accumulator starts a new list, an
    accumulator that is no [*multierror.Error] becomes the first element,
    and an appended [*multierror.Error] is flattened into the list. *)
Definition multierror_Append (errs : option error) (err : error) : option error :=
  let held := match errs with
              | None => []
              | Some e => flatten e
              end in
  Some (multiError (held ++ flatten err)).

(** ** Slices of byte strings

    [s[:n]], [s[n:]] and [s[i]] (0 where there is no such byte; the code
    at hand indexes within the length). *)

Fixpoint take (n : nat) (s : string) : string :=
  match n, s with
  | S k, String c r => String c (take k r)
  | _, _ => EmptyString
  end.

Fixpoint drop (n : nat) (s : string) : string :=
  match n, s with
  | S k, String _ r => drop k r
  | _, _ => s
  end.

Definition byteAt (s : string) (i : nat) : Z :=
  match String.get i s with
  | Some c => Z.of_N (N_of_ascii c)
  | None => 0
  end.

(** ** The [unicode/utf8] package *)

Module Utf8.

Definition RuneError : Z := 65533.
Definition RuneSelf : Z := 128.
Definition MaxRune : Z := 1114111.
Definition UTFMax : nat := 4.

Definition byte (z : Z) : ascii := ascii_of_N (Z.to_N (z mod 256)).

(** The table [first] with [acceptRanges], for the bytes from [RuneSelf]
    on: the size of the sequence that the byte starts and the range of
    its second byte; [None] for a byte that starts no sequence. *)
Definition first (s0 : Z) : option (nat * (Z * Z)) :=
  if s0 <? 194 then None
  else if s0 <? 224 then Some (2%nat, (128, 191))
  else if s0 =? 224 then Some (3%nat, (160, 191))
  else if s0 <? 237 then Some (3%nat, (128, 191))
  else if s0 =? 237 then Some (3%nat, (128, 159))
  else if s0 <? 240 then Some (3%nat, (128, 191))
  else if s0 =? 240 then Some (4%nat, (144, 191))
  else if s0 <? 244 then Some (4%nat, (128, 191))
  else if s0 =? 244 then Some (4%nat, (128, 143))
  else None.

(** A byte outside the continuation bytes [0x80..0xBF]. *)
Definition notCont (b : Z) : bool := (b <? 128) || (191 <? b).

(** [utf8.DecodeRuneInString]: the first rune of [s] and its width; a byte
    that starts no valid sequence is [RuneError] of width 1. *)
Definition DecodeRuneInString (s : string) : Z * nat :=
  match s with
  | EmptyString => (RuneError, 0%nat)
  | String _ _ =>
      let s0 := byteAt s 0 in
      if s0 <? RuneSelf then (s0, 1%nat)
      else
        match first s0 with
        | None => (RuneError, 1%nat)
        | Some (sz, (lo, hi)) =>
            if (String.length s <? sz)%nat then (RuneError, 1%nat)
            else
              let s1 := byteAt s 1 in
              if (s1 <? lo) || (hi <? s1) then (RuneError, 1%nat)
              else if (sz <=? 2)%nat
              then (Z.lor (Z.shiftl (Z.land s0 31) 6) (Z.land s1 63), 2%nat)
              else
                let s2 := byteAt s 2 in
                if notCont s2 then (RuneError, 1%nat)
                else if (sz <=? 3)%nat
                then (Z.lor (Z.lor (Z.shiftl (Z.land s0 15) 12)
                                   (Z.shiftl (Z.land s1 63) 6))
                            (Z.land s2 63), 3%nat)
                else
                  let s3 := byteAt s 3 in
                  if notCont s3 then (RuneError, 1%nat)
                  else (Z.lor (Z.lor (Z.lor (Z.shiftl (Z.land s0 7) 18)
                                            (Z.shiftl (Z.land s1 63) 12))
                                     (Z.shiftl (Z.land s2 63) 6))
                              (Z.land s3 63), 4%nat)
        end
  end.

(** [utf8.RuneStart]: not a continuation byte. *)
Definition RuneStart (b : Z) : bool := negb (Z.land b 192 =? 128).

(** The loop of [DecodeLastRuneInString] that goes back to the start of
    the last sequence, not below [lim]; [start] may end at [lim - 1]. *)
Fixpoint backToStart (fuel : nat) (s : string) (start lim : Z) : Z :=
  match fuel with
  | O => start
  | S k =>
      if start <? lim then start
      else if RuneStart (byteAt s (Z.to_nat start)) then start
      else backToStart k s (start - 1) lim
  end.

(** [utf8.DecodeLastRuneInString]: the last rune of [s] and its width. *)
Definition DecodeLastRuneInString (s : string) : Z * nat :=
  let endIdx := String.length s in
  match endIdx with
  | O => (RuneError, 0%nat)
  | S last =>
      let r := byteAt s last in
      if r <? RuneSelf then (r, 1%nat)
      else
        let lim := Z.max 0 (Z.of_nat endIdx - Z.of_nat UTFMax) in
        let start := backToStart UTFMax s (Z.of_nat last - 1) lim in
        let start := Z.to_nat (Z.max 0 start) in
        let (r, size) := DecodeRuneInString (drop start s) in
        if (start + size =? endIdx)%nat then (r, size) else (RuneError, 1%nat)
  end.

(** [utf8.EncodeRune] (as [AppendRune] and [WriteRune] use it): the bytes
    of a rune; a rune out of range or a surrogate is written as
    [RuneError]. *)
Definition EncodeRune (r : Z) : string :=
  if (0 <=? r) && (r <=? 127) then String (byte r) ""
  else if (0 <=? r) && (r <=? 2047) then
    String (byte (Z.lor 192 (Z.shiftr r 6)))
      (String (byte (Z.lor 128 (Z.land r 63))) "")
  else
    let r := if (r <? 0) || (MaxRune <? r) || ((55296 <=? r) && (r <=? 57343))
             then RuneError else r in
    if r <=? 65535 then
      String (byte (Z.lor 224 (Z.shiftr r 12)))
        (String (byte (Z.lor 128 (Z.land (Z.shiftr r 6) 63)))
           (String (byte (Z.lor 128 (Z.land r 63))) ""))
    else
      String (byte (Z.lor 240 (Z.shiftr r 18)))
        (String (byte (Z.lor 128 (Z.land (Z.shiftr r 12) 63)))
           (String (byte (Z.lor 128 (Z.land (Z.shiftr r 6) 63)))
              (String (byte (Z.lor 128 (Z.land r 63))) ""))).

End Utf8.

(** ** The [unicode] package *)

Module Unicode.

(** [unicode.IsSpace]: the Latin-1 white space, then the table
    [White_Space] beyond Latin-1. *)
Definition IsSpace (r : Z) : bool :=
  if (0 <=? r) && (r <=? 255) then
    ((9 <=? r) && (r <=? 13)) || (r =? 32) || (r =? 133) || (r =? 160)
  else
    (r =? 5760) || ((8192 <=? r) && (r <=? 8202)) || (r =? 8232) || (r =? 8233)
    || (r =? 8239) || (r =? 8287) || (r =? 12288).

(** [unicode.ToUpper] on the ASCII letters and on the two runes beyond
    ASCII whose upper case is an ASCII letter: U+0131 (dotless i) gives
    [I] and U+017F (long s) gives [S].  Every other rune beyond ASCII is
    left as it is; [unicode] maps it to itself or to another rune beyond
    ASCII, so that [strings.ToUpper] gives an ASCII string for the same
    inputs as here, and the same one. *)
Definition ToUpper (r : Z) : Z :=
  if (0 <=? r) && (r <=? 127) then
    (if (97 <=? r) && (r <=? 122) then r - 32 else r)
  else if r =? 305 then 73
  else if r =? 383 then 83
  else r.

End Unicode.

(** ** The [strings] package, on byte strings *)

Module Strings.

(** [strings.HasPrefix(s, prefix)]. *)
Fixpoint HasPrefix (s pre : string) {struct pre} : bool :=
  match pre with
  | EmptyString => true
  | String a pre' =>
      match s with
      | EmptyString => false
      | String b s' => Ascii.eqb b a && HasPrefix s' pre'
      end
  end.

(** [strings.Split(s, sep)] for a one-byte separator: never empty. *)
Fixpoint Split (s : string) (sep : ascii) : list string :=
  match s with
  | EmptyString => [EmptyString]
  | String c r =>
      if Ascii.eqb c sep then EmptyString :: Split r sep
      else match Split r sep with
           | h :: t => String c h :: t
           | [] => [String c EmptyString]
           end
  end.

(** [strings.Join(elems, sep)]. *)
Fixpoint Join (elems : list string) (sep : string) : string :=
  match elems with
  | [] => EmptyString
  | [e] => e
  | e :: rest => e ++ sep ++ Join rest sep
  end.

(** The text before and after the first occurrence of [sep], if any. *)
Fixpoint Cut (s : string) (sep : ascii) : option (string * string) :=
  match s with
  | EmptyString => None
  | String c r =>
      if Ascii.eqb c sep then Some (EmptyString, r)
      else match Cut r sep with
           | Some (a, b) => Some (String c a, b)
           | None => None
           end
  end.

(** [strings.SplitN(s, sep, 2)] for a one-byte separator. *)
Definition SplitN2 (s : string) (sep : ascii) : list string :=
  match Cut s sep with
  | Some (a, b) => [a; b]
  | None => [s]
  end.

(** [trimLeftASCII] and [trimRightASCII], with the set of bytes given by
    its membership test. *)
Fixpoint trimLeftASCII (f : ascii -> bool) (s : string) : string :=
  match s with
  | EmptyString => EmptyString
  | String c r => if f c then trimLeftASCII f r else s
  end.

Fixpoint trimRightASCII (f : ascii -> bool) (s : string) : string :=
  match s with
  | EmptyString => EmptyString
  | String c r =>
      match trimRightASCII f r with
      | EmptyString => if f c then EmptyString else String c EmptyString
      | r' => String c r'
      end
  end.

Fixpoint inCutset (cutset : string) (c : ascii) : bool :=
  match cutset with
  | EmptyString => false
  | String d r => Ascii.eqb c d || inCutset r c
  end.

(** [strings.Trim(s, cutset)] for an ASCII cutset: both ends, byte by
    byte. *)
Definition Trim (s cutset : string) : string :=
  trimLeftASCII (inCutset cutset) (trimRightASCII (inCutset cutset) s).

(** [indexFunc]: the index of the first rune [r] of [s], from [i] on, with
    [f r = truth]; [None] stands for -1.  The loops over runes run on
    fuel, one more than the length of the string, which they do not
    exhaust: every turn moves by one byte at least. *)
Fixpoint indexFunc (fuel : nat) (s : string) (f : Z -> bool) (truth : bool) (i : nat)
  : option nat :=
  match fuel with
  | O => None
  | S k =>
      if (i <? String.length s)%nat then
        let (r, size) := Utf8.DecodeRuneInString (drop i s) in
        if Bool.eqb (f r) truth then Some i
        else indexFunc k s f truth (i + size)
      else None
  end.

(** [lastIndexFunc]: the index of the last rune [r] of [s[0:i]] with
    [f r = truth], going back from [i]. *)
Fixpoint lastIndexFunc (fuel : nat) (s : string) (f : Z -> bool) (truth : bool) (i : nat)
  : option nat :=
  match fuel with
  | O => None
  | S k =>
      if (0 <? i)%nat then
        let (r, size) := Utf8.DecodeLastRuneInString (take i s) in
        let i := (i - size)%nat in
        if Bool.eqb (f r) truth then Some i
        else lastIndexFunc k s f truth i
      else None
  end.

(** [strings.TrimLeftFunc(s, f)], for a predicate on runes. *)
Definition TrimLeftFunc (s : string) (f : Z -> bool) : string :=
  match indexFunc (S (String.length s)) s f false 0 with
  | None => EmptyString
  | Some i => drop i s
  end.

(** [strings.TrimRightFunc(s, f)]. *)
Definition TrimRightFunc (s : string) (f : Z -> bool) : string :=
  match lastIndexFunc (S (String.length s)) s f false (String.length s) with
  | Some i =>
      if Utf8.RuneSelf <=? byteAt s i then
        let (_, wid) := Utf8.DecodeRuneInString (drop i s) in take (i + wid) s
      else take (i + 1) s
  | None => take 0 s
  end.

(** [strings.TrimFunc(s, f)]. *)
Definition TrimFunc (s : string) (f : Z -> bool) : string :=
  TrimRightFunc (TrimLeftFunc s f) f.

(** [strings.TrimSpace(s)]: the white space of Unicode at both ends.  The
    loops over the ASCII bytes that the function runs first give what
    [TrimFunc] gives on them. *)
Definition TrimSpace (s : string) : string := TrimFunc s Unicode.IsSpace.

(** The table [asciiSpace]: tab, line feed, vertical tab, form feed,
    carriage return, space. *)
Definition isSpace (c : ascii) : bool :=
  let n := N_of_ascii c in
  ((9 <=? n)%N && (n <=? 13)%N) || (n =? 32)%N.

(** [strings.Map(mapping, s)]: the runes of [s], each replaced by its
    image and written back; a negative image drops the rune, and a byte
    that is no valid UTF-8 counts as [RuneError]. *)
Fixpoint mapLoop (fuel : nat) (mapping : Z -> Z) (s : string) : string :=
  match fuel with
  | O => EmptyString
  | S k =>
      match s with
      | EmptyString => EmptyString
      | String _ _ =>
          let (c, width) := Utf8.DecodeRuneInString s in
          let r := mapping c in
          (if r <? 0 then EmptyString else Utf8.EncodeRune r)
          ++ mapLoop k mapping (drop width s)
      end
  end.

Definition Map (mapping : Z -> Z) (s : string) : string :=
  mapLoop (String.length s) mapping s.

(** [strings.ToUpper(s)]; on ASCII strings, byte by byte. *)
Definition ToUpper (s : string) : string := Map Unicode.ToUpper s.

(** [strings.Replace(s, old, new, -1)] for a non-empty [old]: the
    occurrences are replaced from the left and do not overlap.  [skip]
    counts the bytes of a matched occurrence still to be passed over. *)
Fixpoint replaceFrom (old new : string) (skip : nat) (s : string) : string :=
  match s with
  | EmptyString => EmptyString
  | String c r =>
      match skip with
      | S k => replaceFrom old new k r
      | O =>
          if HasPrefix s old
          then new ++ replaceFrom old new (Nat.pred (String.length old)) r
          else String c (replaceFrom old new 0 r)
      end
  end.

Definition ReplaceAll (s old new : string) : string := replaceFrom old new 0 s.

End Strings.

(** ** The [strconv] package *)

Module Strconv.

Definition digitVal (c : ascii) : option Z :=
  let n := Z.of_N (N_of_ascii c) in
  if (48 <=? n) && (n <=? 57) then Some (n - 48) else None.

Definition ErrSyntax : error := errorString "invalid syntax".
Definition ErrRange : error := errorString "value out of range".

(** The loop of [ParseUint] over the bytes, for base 10: a byte that is no
    digit ends it with a syntax error, a value above [maxVal] with a range
    error, whichever comes first. *)
Fixpoint digits (maxVal : Z) (s : string) (n : Z) : Z + error :=
  match s with
  | EmptyString => inl n
  | String c r =>
      match digitVal c with
      | None => inr ErrSyntax
      | Some d =>
          let n1 := 10 * n + d in
          if maxVal <? n1 then inr ErrRange else digits maxVal r n1
      end
  end.

(** [strconv.ParseUint(s, 10, bitSize)]: decimal digits only, no sign. *)
Definition ParseUint (s : string) (bitSize : Z) : Z + error :=
  match s with
  | EmptyString => inr ErrSyntax
  | _ => digits (2 ^ bitSize - 1) s 0
  end.

(** [strconv.Atoi(s)]: an optional sign, then decimal digits read as by
    [ParseUint] for 64 bits, then the range of a 64-bit [int]. *)
Definition Atoi (s : string) : Z + error :=
  let signed (neg : bool) (body : string) :=
    match body with
    | EmptyString => inr ErrSyntax
    | _ => match digits (2 ^ 64 - 1) body 0 with
           | inr e => inr e
           | inl v =>
               if neg then (if v <=? 2 ^ 63 then inl (- v) else inr ErrRange)
               else (if v <? 2 ^ 63 then inl v else inr ErrRange)
           end
    end in
  match s with
  | String "+" r => signed false r
  | String "-" r => signed true r
  | _ => signed false s
  end.

(** The [%d] verb of [fmt.Sprintf]. *)
Definition Itoa (z : Z) : string := NilEmpty.string_of_int (Z.to_int z).

End Strconv.

(** ** [filepath.Clean], for the slash separator

    The lexical cleaning of Go's [path/filepath] on a system whose
    separator is [/], after its implementation: one pass over the path
    that skips empty and [.] elements, backs up over the last element on
    [..] (dropping a [..] at the root, keeping a leading [..] of a relative
    path), copies every other element, and returns [.] for an empty
    result. *)

Module Filepath.

(** [lazybuf]: the bytes written so far, the last written first. *)
Definition lazybuf : Type := list ascii.

(** The inner loop of the [..] case: [last] is [out.index(out.w)]. *)
Fixpoint unwind (last : ascii) (out : lazybuf) (dotdot : nat) : lazybuf :=
  match out with
  | [] => []
  | b :: below =>
      if (dotdot <? List.length out)%nat && negb (Ascii.eqb last "/")
      then unwind b below dotdot
      else out
  end.

Definition backtrack (out : lazybuf) (dotdot : nat) : lazybuf :=
  match out with
  | [] => []
  | b :: below => unwind b below dotdot
  end.

(** The copy loop of a real path element: up to the next separator. *)
Fixpoint copyElem (rest : string) (out : lazybuf) : string * lazybuf :=
  match rest with
  | EmptyString => (EmptyString, out)
  | String c t => if Ascii.eqb c "/" then (rest, out) else copyElem t (c :: out)
  end.

(** [r+1 == n || path[r+1] == '/'], on the text after the current byte. *)
Definition atElemEnd (t : string) : bool :=
  match t with
  | EmptyString => true
  | String c _ => Ascii.eqb c "/"
  end.

(** [path[r] == '.' && (r+1 == n || path[r+1] == '/')] *)
Definition isDot (rest : string) : bool :=
  match rest with
  | String c t => Ascii.eqb c "." && atElemEnd t
  | EmptyString => false
  end.

(** [path[r] == '.' && path[r+1] == '.' && (r+2 == n || path[r+2] == '/')] *)
Definition isDotDot (rest : string) : bool :=
  match rest with
  | String c (String d t) => Ascii.eqb c "." && Ascii.eqb d "." && atElemEnd t
  | _ => false
  end.

Definition skip2 (rest : string) : string :=
  match rest with
  | String _ (String _ t) => t
  | _ => EmptyString
  end.

(** The loop [for r < n] over the unread text [rest]; every turn reads at
    least one byte, so [fuel] of the length of the path is enough. *)
Fixpoint cleanLoop (fuel : nat) (rooted : bool) (rest : string)
         (out : lazybuf) (dotdot : nat) : lazybuf :=
  match fuel with
  | O => out
  | S fuel' =>
      match rest with
      | EmptyString => out
      | String c t =>
          if Ascii.eqb c "/" then cleanLoop fuel' rooted t out dotdot
          else if isDot rest then cleanLoop fuel' rooted t out dotdot
          else if isDotDot rest then
            if (dotdot <? List.length out)%nat
            then cleanLoop fuel' rooted (skip2 rest) (backtrack out dotdot) dotdot
            else if negb rooted then
              let out1 := if (0 <? List.length out)%nat then "/"%char :: out else out in
              let out2 := "."%char :: "."%char :: out1 in
              cleanLoop fuel' rooted (skip2 rest) out2 (List.length out2)
            else cleanLoop fuel' rooted (skip2 rest) out dotdot
          else
            let out1 :=
              if (rooted && negb (List.length out =? 1)%nat)
                 || (negb rooted && negb (List.length out =? 0)%nat)
              then "/"%char :: out else out in
            let (rest', out2) := copyElem rest out1 in
            cleanLoop fuel' rooted rest' out2 dotdot
      end
  end.

(** [Clean]: a rooted path starts with its separator written, the unread
    text after it, and [dotdot] at 1. *)
Definition Clean (path : string) : string :=
  match path with
  | EmptyString => "."
  | String c t =>
      let rooted := Ascii.eqb c "/" in
      let out :=
        if rooted then cleanLoop (String.length path) true t ["/"%char] 1
        else cleanLoop (String.length path) false path [] 0 in
      match out with
      | [] => "."
      | _ => string_of_list_ascii (rev out)
      end
  end.

(** The same cleaning told element by element, as the documentation of
    [Clean] gives its rules: one path element against the stack of the
    elements kept so far (innermost first). *)
Definition cleanStep (rooted : bool) (kept : list string) (elem : string)
  : list string :=
  if (elem =? "")%string || (elem =? ".")%string then kept
  else if (elem =? "..")%string then
    match kept with
    | top :: below =>
        if (top =? "..")%string then elem :: kept else below
    | [] => if rooted then [] else [elem]
    end
  else elem :: kept.

Definition cleanElems (rooted : bool) (elems : list string) : list string :=
  rev (fold_left (cleanStep rooted) elems []).

Definition CleanElems (path : string) : string :=
  match path with
  | EmptyString => "."
  | _ =>
      let rooted := Strings.HasPrefix path "/" in
      let kept := cleanElems rooted (Strings.Split path "/") in
      if rooted then "/" ++ Strings.Join kept "/"
      else match kept with
           | [] => "."
           | _ => Strings.Join kept "/"
           end
  end.

End Filepath.

(** ** Machine integers *)

Definition uint16 (z : Z) : Z := z mod 65536.

(** ** Data sockets ([ftpDataSocket] and its two implementations)

    A socket is known to the engine by its host and its port, a [uint16]. *)

Inductive ftpDataSocket : Type :=
| ftpActiveSocket (host : string) (port : Z)
| ftpPassiveSocket (listenIP : string) (port : Z).

Definition Host (socket : ftpDataSocket) : string :=
  match socket with
  | ftpActiveSocket host _ => host
  | ftpPassiveSocket listenIP _ => listenIP
  end.

Definition Port (socket : ftpDataSocket) : Z :=
  match socket with
  | ftpActiveSocket _ port => port
  | ftpPassiveSocket _ port => port
  end.

(** ** Passive port selection *)

(** [rand.Intn(n)] panics unless [0 < n]; otherwise it returns a value of
    [[0, n)], here the residue of the generator's draw. *)
Definition Intn (draw : Z) (n : Z) : outcome Z :=
  if n <=? 0 then Panic "invalid argument to Intn" else Ret (draw mod n).

(** [max-min-1] is computed on [uint16], converted to [int], and the sum is
    truncated back to [uint16]. *)
Definition randomPort (draw : Z) (min max : Z) : outcome Z :=
  if (min =? 0) && (max =? 0) then Ret 0
  else match Intn draw (uint16 (max - min - 1)) with
       | Ret r => Ret (uint16 (min + r))
       | Panic msg => Panic msg
       | Hang => Hang
       end.

(** ** The session record *)

Record ftpConn : Type := mkFtpConn {
  dataConn : option ftpDataSocket;   (* nil when no data socket is attached *)
  serverName : string;
  namePrefix : string;
  reqUser : string;
  user : string;
  renameFrom : string;
  minDataPort : Z;
  maxDataPort : Z;
  pasvAdvertisedIp : string
}.

Definition set_dataConn (v : option ftpDataSocket) (c : ftpConn) : ftpConn :=
  mkFtpConn v (serverName c) (namePrefix c) (reqUser c) (user c)
            (renameFrom c) (minDataPort c) (maxDataPort c) (pasvAdvertisedIp c).
Definition set_namePrefix (v : string) (c : ftpConn) : ftpConn :=
  mkFtpConn (dataConn c) (serverName c) v (reqUser c) (user c)
            (renameFrom c) (minDataPort c) (maxDataPort c) (pasvAdvertisedIp c).
Definition set_reqUser (v : string) (c : ftpConn) : ftpConn :=
  mkFtpConn (dataConn c) (serverName c) (namePrefix c) v (user c)
            (renameFrom c) (minDataPort c) (maxDataPort c) (pasvAdvertisedIp c).
Definition set_user (v : string) (c : ftpConn) : ftpConn :=
  mkFtpConn (dataConn c) (serverName c) (namePrefix c) (reqUser c) v
            (renameFrom c) (minDataPort c) (maxDataPort c) (pasvAdvertisedIp c).
Definition set_renameFrom (v : string) (c : ftpConn) : ftpConn :=
  mkFtpConn (dataConn c) (serverName c) (namePrefix c) (reqUser c) (user c)
            v (minDataPort c) (maxDataPort c) (pasvAdvertisedIp c).

(** [newFtpConn]: the working directory starts at the root. *)
Definition newFtpConn (serverName : string) (minPort maxPort : Z)
           (pasvAdvertisedIp : string) : ftpConn :=
  mkFtpConn None serverName "/" "" "" "" minPort maxPort pasvAdvertisedIp.

(** [buildPath] *)
Definition buildPath (c : ftpConn) (filename : string) : string :=
  let fullPath :=
    if (0 <? String.length filename)%nat && (substring 0 1 filename =? "/")%string
    then Filepath.Clean filename
    else if (0 <? String.length filename)%nat
    then Filepath.Clean (namePrefix c ++ "/" ++ filename)
    else Filepath.Clean (namePrefix c) in
  Strings.ReplaceAll fullPath "//" "/".

(** [parseLine] *)
Definition parseLine (line : string) : string * string :=
  let params := Strings.SplitN2 (Strings.Trim line (String "013" (String "010" ""))) " " in
  match params with
  | [command] => (command, "")
  | command :: rest :: _ => (command, Strings.TrimSpace rest)
  | [] => ("", "")
  end.

(** ** The driver interface

    [FTPDriver] is declared outside the files at hand; its operations are
    taken from their call sites in [commands.go].  A driver is stateful:
    every operation returns the driver's next state.  A reader handed out
    by [GetFile] is its content, [None] being a nil reader; times are
    opaque integers. *)

Record FileInfo : Type := mkFileInfo {
  fiName : string;
  fiSize : Z;
  fiMode : Z;
  fiModTime : Z
}.

Class FTPDriver (D : Type) : Type := {
  Authenticate : string -> string -> string -> D -> (bool * option error) * D;
  Bytes : string -> D -> (Z * option error) * D;
  ModifiedTime : string -> D -> (Z * option error) * D;
  ChangeDir : string -> D -> (bool * option error) * D;
  DirContents : string -> D -> (list FileInfo * option error) * D;
  DeleteDir : string -> D -> (bool * option error) * D;
  DeleteFile : string -> D -> (bool * option error) * D;
  Rename : string -> string -> D -> (bool * option error) * D;
  MakeDir : string -> D -> (bool * option error) * D;
  GetFile : string -> D -> (option string * option error) * D;
  PutFile : string -> option ftpDataSocket -> D -> (bool * option error) * D
}.

(** ** Observable events *)

Inductive driverCall : Type :=
| CallAuthenticate (user pass remoteIp : string)
| CallBytes (path : string)
| CallModifiedTime (path : string)
| CallChangeDir (path : string)
| CallDirContents (path : string)
| CallDeleteDir (path : string)
| CallDeleteFile (path : string)
| CallRename (fromPath toPath : string)
| CallMakeDir (path : string)
| CallGetFile (path : string)
| CallPutFile (path : string) (data : option ftpDataSocket).

Inductive event : Type :=
| EvWrite (code : Z) (message : string)      (* writeMessage: "code message\r\n" *)
| EvWriteLines (code : Z) (text : string)    (* writeLines *)
| EvDriver (call : driverCall)
| EvCloseControl                             (* conn.Close() *)
| EvCloseData (socket : ftpDataSocket)       (* dataConn.Close() *)
| EvListenPassive (listenIP : string) (minPort maxPort : Z)
| EvDialActive (host : string) (port : Z)
| EvCopy (socket : ftpDataSocket) (data : string)   (* io.Copy(dataConn, reader) *)
| EvCloseReader                              (* reader.Close() *)
| EvSleep (ms : Z).

(** ** The environment

    [ioError h] is the error, if any, of the input/output operation that is
    the last event of the history [h]; [passivePort h] is the port the
    background listener publishes, [None] when it never binds one.  The
    list formatter and the time formatter are outside the files at hand
    and are taken as given. *)

Record Env : Type := mkEnv {
  localIP : string;
  remoteIP : string;
  ioError : list event -> option error;
  passivePort : list event -> option Z;
  Detailed : list FileInfo -> string;
  Short : list FileInfo -> string;
  strftime_Format : Z -> string
}.

(** ** The handler monad *)

Record world (D : Type) : Type := mkWorld {
  wConn : ftpConn;
  wDriver : D;
  wTrace : list event
}.

Arguments mkWorld {D} _ _ _.
Arguments wConn {D} _.
Arguments wDriver {D} _.
Arguments wTrace {D} _.

Definition M (D A : Type) : Type := world D -> outcome A * world D.

Definition ret {D A : Type} (a : A) : M D A := fun w => (Ret a, w).

Definition bind {D A B : Type} (m : M D A) (k : A -> M D B) : M D B :=
  fun w =>
    match m w with
    | (Ret a, w') => k a w'
    | (Panic msg, w') => (Panic msg, w')
    | (Hang, w') => (Hang, w')
    end.

Declare Scope go_scope.
Delimit Scope go_scope with go.
Notation "x <- m ;; k" := (bind m (fun x => k))
  (at level 61, m at next level, right associativity) : go_scope.
Notation "m ;; k" := (bind m (fun _ => k))
  (at level 61, right associativity) : go_scope.
Local Open Scope go_scope.

Definition panic {D A : Type} (msg : string) : M D A := fun w => (Panic msg, w).

Definition hang {D A : Type} : M D A := fun w => (Hang, w).

(** A function body with one deferred call: the deferred call runs when the
    body returns and also while it panics. *)
Definition withDefer {D A B : Type} (deferred : M D B) (body : M D A) : M D A :=
  fun w =>
    match body w with
    | (Ret a, w1) =>
        match deferred w1 with
        | (Ret _, w2) => (Ret a, w2)
        | (Panic msg, w2) => (Panic msg, w2)
        | (Hang, w2) => (Hang, w2)
        end
    | (Panic msg, w1) =>
        match deferred w1 with
        | (Ret _, w2) => (Panic msg, w2)
        | (Panic msg2, w2) => (Panic msg2, w2)
        | (Hang, w2) => (Hang, w2)
        end
    | (Hang, w1) => (Hang, w1)
    end.

Definition getConn {D : Type} : M D ftpConn := fun w => (Ret (wConn w), w).

Definition modifyConn {D : Type} (f : ftpConn -> ftpConn) : M D unit :=
  fun w => (Ret tt, mkWorld (f (wConn w)) (wDriver w) (wTrace w)).

Definition emit {D : Type} (ev : event) : M D unit :=
  fun w => (Ret tt, mkWorld (wConn w) (wDriver w) (wTrace w ++ [ev])%list).

Definition getTrace {D : Type} : M D (list event) := fun w => (Ret (wTrace w), w).

(** A driver operation: the call is recorded and the driver moves on. *)
Definition callDriver {D R : Type} (call : driverCall) (op : D -> R * D) : M D R :=
  fun w =>
    let (r, d) := op (wDriver w) in
    (Ret r, mkWorld (wConn w) d (wTrace w ++ [EvDriver call])%list).

(** [xs[i]], panicking out of range. *)
Definition index {D : Type} (xs : list string) (i : nat) : M D string :=
  match nth_error xs i with
  | Some x => ret x
  | None => panic "index out of range"
  end.

Definition appendIfError (errs : option error) (err : option error) : option error :=
  match err with
  | Some e => multierror_Append errs e
  | None => errs
  end.

(** [regexp.MatchString(listFlagsRegexp, param)] for the pattern
    [^-[alt]+$]: a dash followed by one or more of the letters a, l, t. *)
Definition matchListFlags (param : string) : bool :=
  match param with
  | String "-" (String c r) =>
      Strings.inCutset "alt" c && (Strings.trimLeftASCII (Strings.inCutset "alt") r =? "")%string
  | _ => false
  end.

(** ** The connection engine ([ftpconn.go]) *)

Section Engine.

Context {D : Type} {driver : FTPDriver D}.
Variable env : Env.

(** An input/output operation: recorded, then its outcome read. *)
Definition io (ev : event) : M D (option error) :=
  emit ev ;; h <- getTrace ;; ret (ioError env h).

(** [writeMessage]: the line [code message CRLF] is written and flushed. *)
Definition writeMessage (code : Z) (message : string) : M D (Z * option error) :=
  err <- io (EvWrite code message) ;;
  match err with
  | Some e => ret (0, Some e)
  | None =>
      ret (Z.of_nat (String.length (Strconv.Itoa code ++ " " ++ message)) + 2, None)
  end.

(** [writeLines]: the lines are joined by CRLF and written as they are. *)
Definition writeLines (code : Z) (lines : list string) : M D (Z * option error) :=
  let message := Strings.Join lines (String "013" (String "010" ""))
                 ++ String "013" (String "010" "") in
  err <- io (EvWriteLines code message) ;;
  match err with
  | Some e => ret (0, Some e)
  | None => ret (Z.of_nat (String.length message), None)
  end.

(** [Close]: the control connection, then the data socket if there is one. *)
Definition Close : M D (option error) :=
  e1 <- io EvCloseControl ;;
  let errs := appendIfError None e1 in
  c <- getConn ;;
  match dataConn c with
  | Some socket =>
      e2 <- io (EvCloseData socket) ;;
      ret (appendIfError errs e2)
  | None => ret errs
  end.

(** [sendOutOfBandReader]: the data socket is closed by a deferred call. *)
Definition sendOutOfBandReader (reader : string) : M D (option error) :=
  c <- getConn ;;
  match dataConn c with
  | None => panic "invalid memory address or nil pointer dereference"
  | Some socket =>
      withDefer (io (EvCloseData socket))
        (err <- io (EvCopy socket reader) ;;
         match err with
         | Some e =>
             let errs := multierror_Append None e in
             r <- writeMessage 550 "Action not taken" ;;
             ret (appendIfError errs (snd r))
         | None =>
             r <- writeMessage 226 "Transfer complete." ;;
             match snd r with
             | Some e => ret (Some e)
             | None => emit (EvSleep 10) ;; ret None
             end
         end)
  end.

Definition sendOutOfBandData (data : string) : M D (option error) :=
  sendOutOfBandReader data.

(** The package-level [newPassiveSocket]: it returns once the background
    listener has published a non-zero port, and never with an error.  The
    loop that polls for the port has no bound.  When no port appears the
    call does not return: the listener found no port to listen on, or its
    goroutine panicked in [randomPort] (bounds with [max = min + 1]),
    which ends the process; the oracle [passivePort] says whether a port
    appears, and an environment in which one appears although
    [randomPort] can draw none describes no run of the code. *)
Definition listenPassive (listenIP : string) (minPort maxPort : Z)
  : M D (ftpDataSocket * option error) :=
  emit (EvListenPassive listenIP minPort maxPort) ;;
  h <- getTrace ;;
  match passivePort env h with
  | Some p =>
      if 0 <? uint16 p then ret (ftpPassiveSocket listenIP (uint16 p), None)
      else hang
  | None => hang
  end.

(** The package-level [newActiveSocket]: resolve and dial. *)
Definition dialActive (host : string) (port : Z)
  : M D (option ftpDataSocket * option error) :=
  err <- io (EvDialActive host port) ;;
  match err with
  | Some e => ret (None, Some e)
  | None => ret (Some (ftpActiveSocket host port), None)
  end.

Definition closePreviousDataConn : M D unit :=
  c <- getConn ;;
  match dataConn c with
  | Some socket =>
      io (EvCloseData socket) ;;
      modifyConn (set_dataConn None)
  | None => ret tt
  end.

(** [ftpConn.newPassiveSocket] *)
Definition newPassiveSocket : M D (option ftpDataSocket * option error) :=
  closePreviousDataConn ;;
  c <- getConn ;;
  r <- listenPassive (localIP env) (minDataPort c) (maxDataPort c) ;;
  match snd r with
  | Some e => ret (None, Some e)
  | None =>
      modifyConn (set_dataConn (Some (fst r))) ;;
      ret (Some (fst r), None)
  end.

(** [ftpConn.newActiveSocket] *)
Definition newActiveSocket (host : string) (port : Z)
  : M D (option ftpDataSocket * option error) :=
  closePreviousDataConn ;;
  r <- dialActive host port ;;
  match r with
  | (_, Some e) => ret (None, Some e)
  | (socket, None) =>
      modifyConn (set_dataConn socket) ;;
      ret (socket, None)
  end.

(** ** The command handlers ([commands.go]) *)

(** The common ending [_, err := conn.writeMessage(..); return err]. *)
Definition reply (code : Z) (message : string) : M D (option error) :=
  r <- writeMessage code message ;; ret (snd r).

Definition commandAllo_Execute (_ : string) : M D (option error) :=
  reply 202 "Obsolete".

Definition commandCwd_Execute (param : string) : M D (option error) :=
  c <- getConn ;;
  let path := buildPath c param in
  r <- callDriver (CallChangeDir path) (ChangeDir path) ;;
  match r with
  | (_, Some err) =>
      ret (Some (wrapError ("failed to execute CWD path: " ++ path ++ " - ") err))
  | (true, None) =>
      modifyConn (set_namePrefix path) ;;
      reply 250 ("Directory changed to " ++ path)
  | (false, None) => reply 550 "Action not taken"
  end.

Definition commandCdup_Execute (_ : string) : M D (option error) :=
  commandCwd_Execute "..".

Definition commandDele_Execute (param : string) : M D (option error) :=
  c <- getConn ;;
  let path := buildPath c param in
  r <- callDriver (CallDeleteFile path) (DeleteFile path) ;;
  match r with
  | (_, Some err) => ret (Some (wrapError "failed to execute DELE path: path - " err))
  | (true, None) => reply 250 "File deleted"
  | (false, None) => reply 550 "Action not taken"
  end.

Definition commandEprt_Execute (param : string) : M D (option error) :=
  match param with
  | EmptyString => panic "slice bounds out of range"
  | String delimiter _ =>
      let parts := Strings.Split param delimiter in
      p1 <- index parts 1 ;;
      match Strconv.Atoi p1 with
      | inr err => ret (Some err)
      | inl addressFamily =>
          host <- index parts 2 ;;
          p3 <- index parts 3 ;;
          match Strconv.ParseUint p3 16 with
          | inr err => ret (Some err)
          | inl port =>
              if negb (addressFamily =? 1) && negb (addressFamily =? 2)
              then reply 522 "Network protocol not supported, use (1,2)"
              else
                r <- newActiveSocket host (uint16 port) ;;
                match snd r with
                | Some err =>
                    let errs := multierror_Append None err in
                    r2 <- writeMessage 425 "Data connection failed" ;;
                    ret (appendIfError errs (snd r2))
                | None =>
                    reply 200 ("Connection established (" ++ Strconv.Itoa port ++ ")")
                end
          end
      end
  end.

Definition commandEpsv_Execute (_ : string) : M D (option error) :=
  r <- newPassiveSocket ;;
  match r with
  | (_, Some err) =>
      let errs := multierror_Append None err in
      r2 <- writeMessage 425 "Data connection failed" ;;
      ret (appendIfError errs (snd r2))
  | (None, None) => panic "invalid memory address or nil pointer dereference"
  | (Some socket, None) =>
      reply 229 ("Entering Extended Passive Mode (|||" ++ Strconv.Itoa (Port socket) ++ "|)")
  end.

Definition commandFeat_Execute (_ : string) : M D (option error) :=
  r <- writeLines 211
         ["211-Features supported:"; " EPRT"; " EPSV"; " MDTM"; " SIZE"; " UTF8";
          "211 End FEAT."] ;;
  ret (snd r).

Definition commandList_Execute (param : string) : M D (option error) :=
  r <- writeMessage 150 "Opening ASCII mode data connection for file list" ;;
  match snd r with
  | Some err => ret (Some err)
  | None =>
      let param := if matchListFlags param then "" else param in
      c <- getConn ;;
      let path := buildPath c param in
      fs <- callDriver (CallDirContents path) (DirContents path) ;;
      match fs with
      | (_, Some err) =>
          ret (Some (wrapError ("failed to execute LIST path: " ++ path ++ " - ") err))
      | (files, None) => sendOutOfBandData (Detailed env files)
      end
  end.

Definition commandNlst_Execute (param : string) : M D (option error) :=
  r <- writeMessage 150 "Opening ASCII mode data connection for file list" ;;
  match snd r with
  | Some err => ret (Some err)
  | None =>
      let param := if matchListFlags param then "" else param in
      c <- getConn ;;
      let path := buildPath c param in
      fs <- callDriver (CallDirContents path) (DirContents path) ;;
      match fs with
      | (_, Some err) =>
          ret (Some (wrapError ("failed to execute NLST path: " ++ path ++ " - ") err))
      | (files, None) => sendOutOfBandData (Short env files)
      end
  end.

Definition commandMdtm_Execute (param : string) : M D (option error) :=
  c <- getConn ;;
  let path := buildPath c param in
  r <- callDriver (CallModifiedTime path) (ModifiedTime path) ;;
  match r with
  | (_, Some err) =>
      let errs := multierror_Append None err in
      r2 <- writeMessage 450 "File not available" ;;
      ret (appendIfError errs (snd r2))
  | (time, None) => reply 213 (strftime_Format env time)
  end.

Definition commandMkd_Execute (param : string) : M D (option error) :=
  c <- getConn ;;
  let path := buildPath c param in
  r <- callDriver (CallMakeDir path) (MakeDir path) ;;
  match r with
  | (_, Some err) =>
      ret (Some (wrapError ("failed to execute MKD: " ++ path ++ " - ") err))
  | (true, None) => reply 257 "Directory created"
  | (false, None) => reply 550 "Action not taken"
  end.

Definition commandMode_Execute (param : string) : M D (option error) :=
  if (Strings.ToUpper param =? "S")%string then reply 200 "OK"
  else reply 504 "MODE is an obsolete command".

Definition commandNoop_Execute (_ : string) : M D (option error) :=
  reply 200 "OK".

Definition commandOpts_Execute (param : string) : M D (option error) :=
  if (param =? "UTF8 ON")%string || (param =? "UTF8")%string then reply 200 "OK"
  else reply 500 "Command not found".

Definition commandPass_Execute (param : string) : M D (option error) :=
  c <- getConn ;;
  r <- callDriver (CallAuthenticate (reqUser c) param (remoteIP env))
                  (Authenticate (reqUser c) param (remoteIP env)) ;;
  match r with
  | (true, None) =>
      modifyConn (fun c => set_reqUser "" (set_user (reqUser c) c)) ;;
      reply 230 "Password ok, continue"
  | _ =>
      r1 <- writeMessage 530 "Incorrect password, not logged in" ;;
      let errs := appendIfError None (snd r1) in
      r2 <- writeMessage 221 "Goodbye." ;;
      let errs := appendIfError errs (snd r2) in
      e3 <- Close ;;
      ret (appendIfError errs e3)
  end.

Definition commandPasv_Execute (_ : string) : M D (option error) :=
  r <- newPassiveSocket ;;
  match r with
  | (_, Some err) =>
      writeMessage 425 "Data connection failed" ;;
      ret (Some err)
  | (None, None) => panic "invalid memory address or nil pointer dereference"
  | (Some socket, None) =>
      let p1 := Port socket / 256 in
      let p2 := uint16 (Port socket - uint16 (p1 * 256)) in
      c <- getConn ;;
      let host := if (pasvAdvertisedIp c =? "")%string then Host socket
                  else pasvAdvertisedIp c in
      let quads := Strings.Split host "." in
      q0 <- index quads 0 ;;
      q1 <- index quads 1 ;;
      q2 <- index quads 2 ;;
      q3 <- index quads 3 ;;
      let target := "(" ++ q0 ++ "," ++ q1 ++ "," ++ q2 ++ "," ++ q3 ++ ","
                        ++ Strconv.Itoa p1 ++ "," ++ Strconv.Itoa p2 ++ ")" in
      reply 227 ("Entering Passive Mode " ++ target)
  end.

Definition commandPort_Execute (param : string) : M D (option error) :=
  let nums := Strings.Split param "," in
  if (List.length nums <? 6)%nat then reply 425 "Data connection failed"
  else
    n4 <- index nums 4 ;;
    match Strconv.ParseUint n4 16 with
    | inr err => ret (Some err)
    | inl portOne =>
        n5 <- index nums 5 ;;
        match Strconv.ParseUint n5 16 with
        | inr err => ret (Some err)
        | inl portTwo =>
            let port := uint16 (portOne * 256 + portTwo) in
            n0 <- index nums 0 ;;
            n1 <- index nums 1 ;;
            n2 <- index nums 2 ;;
            n3 <- index nums 3 ;;
            let host := n0 ++ "." ++ n1 ++ "." ++ n2 ++ "." ++ n3 in
            r <- newActiveSocket host port ;;
            match snd r with
            | Some err =>
                let errs := multierror_Append None err in
                r2 <- writeMessage 425 "Data connection failed" ;;
                ret (appendIfError errs (snd r2))
            | None =>
                reply 200 ("Connection established (" ++ Strconv.Itoa port ++ ")")
            end
        end
    end.

Definition commandPwd_Execute (_ : string) : M D (option error) :=
  c <- getConn ;;
  reply 257 (String "034" (namePrefix c) ++ String "034" " is the current directory").

Definition commandQuit_Execute (_ : string) : M D (option error) := Close.

Definition commandRetr_Execute (param : string) : M D (option error) :=
  c <- getConn ;;
  let path := buildPath c param in
  r <- callDriver (CallGetFile path) (GetFile path) ;;
  match r with
  | (_, Some err) =>
      let errs := multierror_Append None err in
      r2 <- writeMessage 551 "File not available" ;;
      ret (appendIfError errs (snd r2))
  | (None, None) => panic "invalid memory address or nil pointer dereference"
  | (Some reader, None) =>
      withDefer (emit EvCloseReader)
        (r2 <- writeMessage 150 "Data connection open. Transfer starting." ;;
         match snd r2 with
         | Some err => ret (Some err)
         | None => sendOutOfBandReader reader
         end)
  end.

Definition commandRnfr_Execute (param : string) : M D (option error) :=
  modifyConn (fun c => set_renameFrom (buildPath c param) c) ;;
  reply 350 "Requested file action pending further information.".

Definition commandRnto_Execute (param : string) : M D (option error) :=
  c <- getConn ;;
  if (renameFrom c =? "")%string
  then reply 503 "Bad sequence of commands: use RNFR first."
  else
    let toPath := buildPath c param in
    r <- callDriver (CallRename (renameFrom c) toPath) (Rename (renameFrom c) toPath) ;;
    match r with
    | (_, Some err) =>
        ret (Some (wrapError ("failed to execute RNTO from: " ++ renameFrom c
                              ++ " to: " ++ toPath ++ " - ") err))
    | (true, None) => reply 250 "File renamed"
    | (false, None) => reply 550 "Action not taken"
    end.

Definition commandRmd_Execute (param : string) : M D (option error) :=
  c <- getConn ;;
  let path := buildPath c param in
  r <- callDriver (CallDeleteDir path) (DeleteDir path) ;;
  match r with
  | (_, Some err) =>
      ret (Some (wrapError ("failed to execute RMD path: " ++ path ++ " - ") err))
  | (true, None) => reply 250 "Directory deleted"
  | (false, None) => reply 550 "Action not taken"
  end.

Definition commandSize_Execute (param : string) : M D (option error) :=
  c <- getConn ;;
  let path := buildPath c param in
  r <- callDriver (CallBytes path) (Bytes path) ;;
  match r with
  | (_, Some err) =>
      ret (Some (wrapError ("failed to execute SIZE path: " ++ path ++ " - ") err))
  | (bytes, None) =>
      if 0 <=? bytes then reply 213 (Strconv.Itoa bytes)
      else reply 450 "file not available"
  end.

Definition commandStor_Execute (param : string) : M D (option error) :=
  c <- getConn ;;
  let targetPath := buildPath c param in
  r <- writeMessage 150 "Data transfer starting" ;;
  match snd r with
  | Some err => ret (Some err)
  | None =>
      c <- getConn ;;
      p <- callDriver (CallPutFile targetPath (dataConn c))
                      (PutFile targetPath (dataConn c)) ;;
      match p with
      | (_, Some err) =>
          ret (Some (wrapError ("failed to execute STOR path: " ++ targetPath ++ " - ") err))
      | (true, None) => reply 226 "Transfer complete."
      | (false, None) => reply 450 "error during transfer"
      end
  end.

Definition commandStru_Execute (param : string) : M D (option error) :=
  if (Strings.ToUpper param =? "F")%string then reply 200 "OK"
  else reply 504 "STRU is an obsolete command".

Definition commandSyst_Execute (_ : string) : M D (option error) :=
  reply 215 "UNIX Type: L8".

Definition commandType_Execute (param : string) : M D (option error) :=
  if (Strings.ToUpper param =? "A")%string then reply 200 "Type set to ASCII"
  else if (Strings.ToUpper param =? "I")%string then reply 200 "Type set to binary"
  else reply 500 "Invalid type".

Definition commandUser_Execute (param : string) : M D (option error) :=
  modifyConn (set_reqUser param) ;;
  reply 331 "User name ok, password required".

End Engine.

(** ** The command table *)

Inductive ftpCommand : Type :=
| commandAllo | commandCdup | commandCwd | commandDele | commandEprt
| commandEpsv | commandFeat | commandList | commandNlst | commandMdtm
| commandMkd | commandMode | commandNoop | commandOpts | commandPass
| commandPasv | commandPort | commandPwd | commandQuit | commandRetr
| commandRnfr | commandRnto | commandRmd | commandSize | commandStor
| commandStru | commandSyst | commandType | commandUser.

Definition RequireParam (cmd : ftpCommand) : bool :=
  match cmd with
  | commandAllo => false | commandCdup => false | commandCwd => true
  | commandDele => true | commandEprt => true | commandEpsv => false
  | commandFeat => false | commandList => false | commandNlst => false
  | commandMdtm => true | commandMkd => true | commandMode => true
  | commandNoop => false | commandOpts => false | commandPass => true
  | commandPasv => false | commandPort => true | commandPwd => false
  | commandQuit => false | commandRetr => true | commandRnfr => true
  | commandRnto => true | commandRmd => true | commandSize => true
  | commandStor => true | commandStru => true | commandSyst => false
  | commandType => false | commandUser => true
  end.

Definition RequireAuth (cmd : ftpCommand) : bool :=
  match cmd with
  | commandAllo => false | commandCdup => true | commandCwd => true
  | commandDele => true | commandEprt => true | commandEpsv => true
  | commandFeat => false | commandList => true | commandNlst => true
  | commandMdtm => true | commandMkd => true | commandMode => true
  | commandNoop => false | commandOpts => true | commandPass => false
  | commandPasv => true | commandPort => true | commandPwd => true
  | commandQuit => false | commandRetr => true | commandRnfr => true
  | commandRnto => true | commandRmd => true | commandSize => true
  | commandStor => true | commandStru => true | commandSyst => true
  | commandType => true | commandUser => false
  end.

Definition Execute {D : Type} {driver : FTPDriver D} (env : Env) (cmd : ftpCommand)
  : string -> M D (option error) :=
  match cmd with
  | commandAllo => commandAllo_Execute env | commandCdup => commandCdup_Execute env
  | commandCwd => commandCwd_Execute env | commandDele => commandDele_Execute env
  | commandEprt => commandEprt_Execute env | commandEpsv => commandEpsv_Execute env
  | commandFeat => commandFeat_Execute env | commandList => commandList_Execute env
  | commandNlst => commandNlst_Execute env | commandMdtm => commandMdtm_Execute env
  | commandMkd => commandMkd_Execute env | commandMode => commandMode_Execute env
  | commandNoop => commandNoop_Execute env | commandOpts => commandOpts_Execute env
  | commandPass => commandPass_Execute env | commandPasv => commandPasv_Execute env
  | commandPort => commandPort_Execute env | commandPwd => commandPwd_Execute env
  | commandQuit => commandQuit_Execute env | commandRetr => commandRetr_Execute env
  | commandRnfr => commandRnfr_Execute env | commandRnto => commandRnto_Execute env
  | commandRmd => commandRmd_Execute env | commandSize => commandSize_Execute env
  | commandStor => commandStor_Execute env | commandStru => commandStru_Execute env
  | commandSyst => commandSyst_Execute env | commandType => commandType_Execute env
  | commandUser => commandUser_Execute env
  end.

(** The [commands] map literal; its keys are distinct. *)
Definition commands : list (string * ftpCommand) :=
  [ ("ALLO", commandAllo); ("CDUP", commandCdup); ("CWD", commandCwd);
    ("DELE", commandDele); ("EPRT", commandEprt); ("EPSV", commandEpsv);
    ("FEAT", commandFeat); ("LIST", commandList); ("NLST", commandNlst);
    ("MDTM", commandMdtm); ("MKD", commandMkd); ("MODE", commandMode);
    ("NOOP", commandNoop); ("OPTS", commandOpts); ("PASS", commandPass);
    ("PASV", commandPasv); ("PORT", commandPort); ("PWD", commandPwd);
    ("QUIT", commandQuit); ("RETR", commandRetr); ("RNFR", commandRnfr);
    ("RNTO", commandRnto); ("RMD", commandRmd); ("SIZE", commandSize);
    ("STOR", commandStor); ("STRU", commandStru); ("SYST", commandSyst);
    ("TYPE", commandType); ("USER", commandUser); ("XCUP", commandCdup);
    ("XCWD", commandCwd); ("XPWD", commandPwd); ("XRMD", commandRmd) ].

(** [commands[command]]: [None] is the nil entry of a missing key. *)
Fixpoint lookup (table : list (string * ftpCommand)) (command : string)
  : option ftpCommand :=
  match table with
  | [] => None
  | (key, cmd) :: rest => if (key =? command)%string then Some cmd else lookup rest command
  end.

Section Dispatch.

Context {D : Type} {driver : FTPDriver D}.
Variable env : Env.

(** [receiveLine] *)
Definition receiveLine (line : string) : M D (option error) :=
  let (command, param) := parseLine line in
  match lookup commands command with
  | None => reply env 500 "Command not found"
  | Some cmdObj =>
      if RequireParam cmdObj && (param =? "")%string
      then reply env 553 "action aborted, required param missing"
      else
        c <- getConn ;;
        if RequireAuth cmdObj && (user c =? "")%string
        then reply env 530 "not logged in"
        else Execute env cmdObj param
  end.

(** The read loop of [Serve] over the lines that [ReadString] delivers
    before its first error; an error returned by [receiveLine] is only
    logged. *)
Fixpoint readCommands (lines : list string) : M D unit :=
  match lines with
  | [] => ret tt
  | line :: rest => receiveLine line ;; readCommands rest
  end.

(** [Serve]: the deferred function recovers a panic of the body and
    closes the connection; a recovered panic makes [Serve] return nil. *)
Definition Serve (lines : list string) : M D (option error) :=
  fun w =>
    let body :=
      (r <- writeMessage env 220 (serverName (wConn w)) ;;
       match snd r with
       | Some err => ret (Some err)
       | None => readCommands lines ;; ret None
       end) in
    match body w with
    | (Ret result, w1) =>
        match Close env w1 with
        | (Ret _, w2) => (Ret result, w2)
        | (Panic msg, w2) => (Panic msg, w2)
        | (Hang, w2) => (Hang, w2)
        end
    | (Panic _, w1) =>
        match Close env w1 with
        | (Ret _, w2) => (Ret None, w2)
        | (Panic msg, w2) => (Panic msg, w2)
        | (Hang, w2) => (Hang, w2)
        end
    | (Hang, w1) => (Hang, w1)
    end.

End Dispatch.

(** ** Vocabulary of the path properties *)

(** [hasByte b s]: the byte [b] occurs in [s]. *)
Fixpoint hasByte (b : ascii) (s : string) : bool :=
  match s with
  | EmptyString => false
  | String c r => Ascii.eqb c b || hasByte b r
  end.

(** A path element that cleaning keeps: not empty, not a dot element,
    and without a separator inside. *)
Definition realElem (e : string) : bool :=
  negb (e =? "")%string && negb (e =? ".")%string && negb (e =? "..")%string
  && negb (hasByte "/" e).

(** The rooted path made of the given elements. *)
Definition rootedJoin (elems : list string) : string :=
  "/" ++ Strings.Join elems "/".

(** No two separators in a row. *)
Fixpoint noDoubleSlash (s : string) : bool :=
  match s with
  | EmptyString => true
  | String c r => negb (Ascii.eqb c "/" && Strings.HasPrefix r "/") && noDoubleSlash r
  end.

(** An absolute canonical path: rooted and unchanged by cleaning. *)
Definition canonicalAbs (p : string) : bool :=
  Strings.HasPrefix p "/" && (Filepath.Clean p =? p)%string.

(** No [.] and no [..] among the elements of a path. *)
Definition noDotElems (p : string) : Prop :=
  Forall (fun e => e <> "." /\ e <> "..") (Strings.Split p "/").


(** ** Vocabulary of the buffer invariant of [Clean] *)

Definition bytes (s : string) : list ascii := list_ascii_of_string s.

(** [k] leading [..] elements. *)
Definition dots (k : nat) : list string := repeat ".." k.

(** The buffer that holds the kept elements [kept] (innermost first). *)
Fixpoint encR (rooted : bool) (kept : list string) : Filepath.lazybuf :=
  match kept with
  | [] => if rooted then ["/"%char] else []
  | e :: below =>
      (rev (bytes e) ++ (match below with [] => [] | _ => ["/"%char] end)
       ++ encR rooted below)%list
  end.

Definition nonSlash (c : ascii) : Prop := Ascii.eqb c "/" = false.

Definition real (e : string) : Prop := realElem e = true.

(** The element-wise cleaning of the unread text [rest]. *)
Definition foldRest (rooted : bool) (rest : string) (kept : list string) : list string :=
  fold_left (Filepath.cleanStep rooted) (Strings.Split rest "/") kept.

(** ** Vocabulary of the line parser's properties *)

(** Every byte of [s] is of the class [f]. *)
Fixpoint allBytes (f : ascii -> bool) (s : string) : bool :=
  match s with
  | EmptyString => true
  | String c r => f c && allBytes f r
  end.

(** The first and the last byte of a string, if any. *)
Definition firstByte (s : string) : option ascii :=
  match s with
  | EmptyString => None
  | String c _ => Some c
  end.

Fixpoint lastByte (s : string) : option ascii :=
  match s with
  | EmptyString => None
  | String c EmptyString => Some c
  | String _ r => lastByte r
  end.

(** [s] neither begins nor ends with a byte of the class [f]. *)
Definition trimmed (f : ascii -> bool) (s : string) : Prop :=
  (forall c, firstByte s = Some c -> f c = false)
  /\ (forall c, lastByte s = Some c -> f c = false).

(** ** Vocabulary of the trace properties *)

(** The world after the events [evs] have been observed. *)
Definition extend {D : Type} (w : world D) (evs : list event) : world D :=
  mkWorld (wConn w) (wDriver w) (wTrace w ++ evs)%list.

(** The events of [after] that follow the history [before]. *)
Definition newEvents (before after : list event) : list event :=
  skipn (List.length before) after.

(** What closing the attached data socket, if any, adds to the trace. *)
Definition closeDataEvents (c : ftpConn) : list event :=
  match dataConn c with
  | Some socket => [EvCloseData socket]
  | None => []
  end.

(** The history at the moment [newPassiveSocket] learns the listener's
    port: the previous data socket closed, the listener asked for. *)
Definition passiveHistory {D : Type} (env : Env) (w : world D) : list event :=
  (wTrace w ++ closeDataEvents (wConn w)
   ++ [EvListenPassive (localIP env) (minDataPort (wConn w)) (maxDataPort (wConn w))])%list.

Definition is226 (ev : event) : bool :=
  match ev with
  | EvWrite code _ => code =? 226
  | _ => false
  end.

Definition isCloseData (ev : event) : bool :=
  match ev with
  | EvCloseData _ => true
  | _ => false
  end.

Definition isDriverCall (ev : event) : bool :=
  match ev with
  | EvDriver _ => true
  | _ => false
  end.

(** Every write of 226 comes after a close of the data socket. *)
Fixpoint closeBeforeReply (closed : bool) (evs : list event) : bool :=
  match evs with
  | [] => true
  | ev :: rest =>
      if is226 ev then closed && closeBeforeReply closed rest
      else closeBeforeReply (closed || isCloseData ev) rest
  end.

(** Every write of 226 comes before the close of the data socket: no close
    precedes it and one follows it. *)
Fixpoint replyBeforeClose (evs : list event) : bool :=
  match evs with
  | [] => true
  | ev :: rest =>
      if is226 ev then existsb isCloseData rest && replyBeforeClose rest
      else negb (isCloseData ev && existsb is226 rest) && replyBeforeClose rest
  end.

(** Events that neither write 226 nor close the data socket. *)
Definition quiet (evs : list event) : bool :=
  forallb (fun ev => negb (is226 ev) && negb (isCloseData ev)) evs.

(** ** The in-memory example driver

    The driver of the example server: one fixed account, two files, and
    every modifying operation refused.  It has no state of its own.  Its
    operations that predate the error-returning interface report no error. *)

Module MemDriver.

Definition LF : string := String "010" "".

Definition fileOne : string :=
  "This is the first file available for download." ++ LF ++ LF
  ++ "By J" ++ String "195" (String "160" "mes").
Definition fileTwo : string :=
  "This is file number two." ++ LF ++ LF ++ "2012-12-04".

Definition now : Z := 0.

Definition dirMode : Z := 2147484141.   (* os.ModeDir | 0755 *)
Definition fileMode : Z := 420.         (* 0644 *)

#[global] Instance driver : FTPDriver unit := {|
  Authenticate user pass _ d :=
    (((user =? "test")%string && (pass =? "1234")%string, None), d);
  Bytes path d :=
    ((if (path =? "/one.txt")%string then Z.of_nat (String.length fileOne)
      else if (path =? "/files/two.txt")%string then Z.of_nat (String.length fileTwo)
      else -1, None), d);
  ModifiedTime _ d := ((now, None), d);
  ChangeDir path d := (((path =? "/")%string || (path =? "/files")%string, None), d);
  DirContents path d :=
    ((if (path =? "/")%string
      then [mkFileInfo "files" 0 dirMode now;
            mkFileInfo "one.txt" (Z.of_nat (String.length fileOne)) fileMode now]
      else if (path =? "/files")%string
      then [mkFileInfo "two.txt" (Z.of_nat (String.length fileOne)) fileMode now]
      else [], None), d);
  DeleteDir _ d := ((false, None), d);
  DeleteFile _ d := ((false, None), d);
  Rename _ _ d := ((false, None), d);
  MakeDir _ d := ((false, None), d);
  GetFile path d :=
    ((if (path =? "/one.txt")%string then Some fileOne
      else if (path =? "/files/two.txt")%string then Some fileTwo
      else None, None), d);
  PutFile _ _ d := ((false, None), d)
|}.

End MemDriver.

(** ** A sample environment and sample sessions, for concrete runs

    Every input/output operation succeeds and the passive listener binds
    port 60201.  The two listing renderers stand in for the list formatter:
    one name per line. *)

Definition CRLF : string := String "013" (String "010" "").

Definition sampleListing (files : list FileInfo) : string :=
  Strings.Join (map fiName files) CRLF ++ CRLF.

Definition sampleEnv : Env :=
  mkEnv "127.0.0.1" "192.0.2.7" (fun _ => None) (fun _ => Some 60201)
        sampleListing sampleListing (fun _ => "20121204000000").

(** A fresh session, as [newFtpConn] makes it, with the example's range. *)
Definition freshConn : ftpConn := newFtpConn "graval-mem" 60200 60300 "".

Definition freshWorld : world unit := mkWorld freshConn tt [].

(** The session after [USER test] and [PASS 1234]. *)
Definition loggedInConn : ftpConn := set_user "test" freshConn.

Definition loggedInWorld : world unit := mkWorld loggedInConn tt [].

(** A logged-in session with a passive data socket attached. *)
Definition transferWorld : world unit :=
  mkWorld (set_dataConn (Some (ftpPassiveSocket "127.0.0.1" 60201)) loggedInConn) tt [].


(** ** Vocabulary of the properties of all handlers

    [steps R m]: every run of [m] takes a world to one that [R] relates
    to it.  With [sameField f] the run keeps the field [f] of the session
    record, with [adds P] it only appends events of the class [P]. *)

Definition steps {D A : Type} (R : world D -> world D -> Prop) (m : M D A) : Prop :=
  forall w, R w (snd (m w)).

Definition sameField {D B : Type} (f : ftpConn -> B) : world D -> world D -> Prop :=
  fun w w' => f (wConn w') = f (wConn w).

Definition adds {D : Type} (P : event -> bool) : world D -> world D -> Prop :=
  fun w w' => exists evs, wTrace w' = (wTrace w ++ evs)%list /\ forallb P evs = true.

Definition keeps {D A B : Type} (f : ftpConn -> B) (m : M D A) : Prop :=
  steps (sameField f) m.

Definition emits {D A : Type} (P : event -> bool) (m : M D A) : Prop :=
  steps (adds P) m.

(** The two ways a call can fail to return. *)
Inductive fault : Type :=
| FaultPanic (msg : string)
| FaultHang.

Definition faultOf {A : Type} (o : outcome A) : option fault :=
  match o with
  | Ret _ => None
  | Panic msg => Some (FaultPanic msg)
  | Hang => Some FaultHang
  end.

(** [avoids bad m]: no run of [m] ends in a fault of the class [bad]. *)
Definition avoids {D A : Type} (bad : fault -> bool) (m : M D A) : Prop :=
  forall w, match faultOf (fst (m w)) with
            | Some f => bad f = false
            | None => True
            end.

Definition isHang (f : fault) : bool :=
  match f with
  | FaultHang => true
  | FaultPanic _ => false
  end.

Definition anyEvent (_ : event) : bool := true.

(** The passive listener always publishes a port. *)
Definition listenerBinds (env : Env) : Prop :=
  forall h, exists p, passivePort env h = Some p /\ 0 < uint16 p.

(** ** Vocabulary of the order of authentication *)

Definition isAuthenticate (ev : event) : bool :=
  match ev with
  | EvDriver (CallAuthenticate _ _ _) => true
  | _ => false
  end.

(** The first driver call among the events, if there is one, is
    [Authenticate]. *)
Fixpoint authFirst (evs : list event) : bool :=
  match evs with
  | [] => true
  | ev :: rest => if isDriverCall ev then isAuthenticate ev else authFirst rest
  end.

(** ** The faults of the handlers *)

Definition indexPanic : string := "index out of range".
Definition nilPanic : string := "invalid memory address or nil pointer dereference".

(** The faults a handler can end in: an index out of range in [EPRT] and
    [PASV], a nil dereference in the three transfers, a passive listener
    that never publishes its port in [PASV] and [EPSV]. *)
Definition mayFault (cmd : ftpCommand) (f : fault) : bool :=
  match f with
  | FaultPanic msg =>
      match cmd with
      | commandEprt | commandPasv => (msg =? indexPanic)%string
      | commandList | commandNlst | commandRetr => (msg =? nilPanic)%string
      | _ => false
      end
  | FaultHang =>
      match cmd with
      | commandPasv | commandEpsv => true
      | _ => false
      end
  end.

(** ** [buildPath] on the stack of the directory names *)

(** The stack of directory names that a client-supplied name denotes
    against the stack [kept] of the working directory: an absolute name
    starts from the root, a relative one from [kept]; [.] and empty
    elements are skipped and [..] pops, never below the root. *)
Definition resolve (kept : list string) (s : string) : list string :=
  rev (fold_left (Filepath.cleanStep true) (Strings.Split s "/")
                 (if Strings.HasPrefix s "/" then [] else rev kept)).

(** ** Paths in driver calls *)

(** The paths that a driver call carries. *)
Definition callPaths (call : driverCall) : list string :=
  match call with
  | CallAuthenticate _ _ _ => []
  | CallBytes path => [path]
  | CallModifiedTime path => [path]
  | CallChangeDir path => [path]
  | CallDirContents path => [path]
  | CallDeleteDir path => [path]
  | CallDeleteFile path => [path]
  | CallRename fromPath toPath => [fromPath; toPath]
  | CallMakeDir path => [path]
  | CallGetFile path => [path]
  | CallPutFile path _ => [path]
  end.

(** An event that hands the driver canonical absolute paths only. *)
Definition canonicalCall (ev : event) : bool :=
  match ev with
  | EvDriver call => forallb canonicalAbs (callPaths call)
  | _ => true
  end.

(** The paths a session record holds are canonical: the working
    directory, and the source of a pending rename if there is one. *)
Definition pathsCanonical (c : ftpConn) : Prop :=
  canonicalAbs (namePrefix c) = true
  /\ (renameFrom c = "" \/ canonicalAbs (renameFrom c) = true).

(** [maintains I P m]: run on a session that satisfies [I], [m] leaves a
    session that satisfies [I] and adds only events of the class [P]. *)
Definition maintains {D A : Type} (I : ftpConn -> Prop) (P : event -> bool) (m : M D A)
  : Prop :=
  forall w, I (wConn w) -> I (wConn (snd (m w))) /\ adds P w (snd (m w)).

(** ** Vocabulary of the active mode *)

(** The history at the moment [newActiveSocket] learns whether the dial
    succeeded: the previous data socket closed, the peer dialled. *)
Definition activeHistory {D : Type} (w : world D) (host : string) (port : Z)
  : list event :=
  (wTrace w ++ closeDataEvents (wConn w) ++ [EvDialActive host port])%list.

(** A decimal numeral that [ParseUint] reads back, and without a comma. *)
Definition readsBack (n : nat) : bool :=
  match Strconv.ParseUint (Strconv.Itoa (Z.of_nat n)) 16 with
  | inl v => (v =? Z.of_nat n) && negb (hasByte "," (Strconv.Itoa (Z.of_nat n)))
  | inr _ => false
  end.

(** ** Vocabulary of the life of the data socket *)

Definition notCloseData (ev : event) : bool := negb (isCloseData ev).

Definition isCopy (ev : event) : bool :=
  match ev with
  | EvCopy _ _ => true
  | _ => false
  end.

(** Neither a copy to the data socket nor the 226 that reports one. *)
Definition noTransfer (ev : event) : bool := negb (isCopy ev) && negb (is226 ev).

(** ** The passive socket's wait for its peer ([waitForOpenSocket])

    [open k] is what the test [socket.conn != nil] finds when [retries]
    is [k]: the connection is set by the listener's goroutine.  The
    result comes with the sleeps taken, in milliseconds.  The loop has no
    bound of its own but the test on [retries]; [None] is a run that
    is still looping when the fuel is spent. *)

Fixpoint waitLoop (fuel : nat) (open : Z -> bool) (retries : Z) : option (bool * list Z) :=
  match fuel with
  | O => None
  | S fuel' =>
      if open retries then Some (true, [])
      else if 3 <? retries then Some (false, [])
      else
        let duration := 500 * (retries + 1) in
        match waitLoop fuel' open (retries + 1) with
        | Some (result, sleeps) => Some (result, duration :: sleeps)
        | None => None
        end
  end.

Definition waitForOpenSocket (fuel : nat) (open : Z -> bool) : option (bool * list Z) :=
  waitLoop fuel open 0.

(** [ftpPassiveSocket.Write] (and [Read], which has the same shape):
    the connection's own operation [connWrite] runs only once the peer is
    there. *)
Definition passiveWrite (fuel : nat) (open : Z -> bool)
           (connWrite : string -> Z * option error) (p : string)
  : option ((Z * option error) * list Z) :=
  match waitForOpenSocket fuel open with
  | None => None
  | Some (false, sleeps) => Some ((0, Some (errorString "data socket unavailable")), sleeps)
  | Some (true, sleeps) => Some (connWrite p, sleeps)
  end.

Fixpoint sumZ (l : list Z) : Z :=
  match l with
  | [] => 0
  | x :: rest => x + sumZ rest
  end.

(** ** The search for a port to listen on ([netListenerInRange])

    [draw retries] is what the generator draws in the turn [retries] of
    the loop, [listen retries port] whether [net.Listen] succeeds there.
    A listener is known by the port it was asked for. *)

Fixpoint listenAttempts (draw : Z -> Z) (listen : Z -> Z -> bool) (min max : Z)
         (turns : list Z) : outcome (Z + error) :=
  match turns with
  | [] => Ret (inr (errorString "unable to find available port to listen on"))
  | retries :: rest =>
      match randomPort (draw retries) min max with
      | Ret port =>
          if listen retries port then Ret (inl port)
          else listenAttempts draw listen min max rest
      | Panic msg => Panic msg
      | Hang => Hang
      end
  end.

(** [for retries := 1; retries < 100; retries++] *)
Definition netListenerInRange (draw : Z -> Z) (listen : Z -> Z -> bool) (min max : Z)
  : outcome (Z + error) :=
  listenAttempts draw listen min max (map Z.of_nat (seq 1 99)).

(** ** The logger ([ftplogger.go])

    What a method hands to the [log] package: the calls of [log.Printf]
    and [log.Println], in order.  [now] is the formatted time. *)

Inductive FtpLogLevel : Type := ErrorLevel | WarnLevel | InfoLevel | DebugLevel.

(** The values that [iota] gives the levels. *)
Definition levelValue (l : FtpLogLevel) : Z :=
  match l with
  | ErrorLevel => 0
  | WarnLevel => 1
  | InfoLevel => 2
  | DebugLevel => 3
  end.

Record ftpLogger : Type := mkFtpLogger { ftpLogLevel : FtpLogLevel }.

Definition NewDefaultFtpLoggerWithLevel (level : FtpLogLevel) : ftpLogger :=
  mkFtpLogger level.

Definition NewDefaultFtpLogger : ftpLogger := NewDefaultFtpLoggerWithLevel InfoLevel.

Inductive logCall : Type :=
| LogPrintf (format : string) (args : list string)
| LogPrintln (args : list string).

Definition header (now level : string) : list logCall :=
  [LogPrintf "[%s] %s " [now; level]].

Definition endOfLine (format : string) : list logCall :=
  if negb (Strings.HasPrefix format (String "010" "")) then [LogPrintln []] else [].

Definition Info (logger : ftpLogger) (now : string) (args : list string) : list logCall :=
  if levelValue (ftpLogLevel logger) <=? levelValue InfoLevel
  then header now "INFO" ++ [LogPrintln args] else [].

Definition Infof (logger : ftpLogger) (now format : string) (args : list string)
  : list logCall :=
  if levelValue (ftpLogLevel logger) <=? levelValue InfoLevel
  then header now "INFO" ++ [LogPrintf format args] ++ endOfLine format else [].

Definition Warn (logger : ftpLogger) (now : string) (args : list string) : list logCall :=
  if levelValue (ftpLogLevel logger) <=? levelValue WarnLevel
  then header now "WARN" ++ [LogPrintln args] else [].

Definition Warnf (logger : ftpLogger) (now format : string) (args : list string)
  : list logCall :=
  if levelValue (ftpLogLevel logger) <=? levelValue WarnLevel
  then header now "WARN" ++ [LogPrintf format args] ++ endOfLine format else [].

Definition Error (logger : ftpLogger) (now : string) (args : list string) : list logCall :=
  if levelValue (ftpLogLevel logger) <=? levelValue ErrorLevel
  then header now "ERROR" ++ [LogPrintln args] else [].

Definition Errorf (logger : ftpLogger) (now format : string) (args : list string)
  : list logCall :=
  if levelValue (ftpLogLevel logger) <=? levelValue ErrorLevel
  then header now "ERROR" ++ [LogPrintf format args] ++ endOfLine format else [].

Definition Debug (logger : ftpLogger) (now : string) (args : list string) : list logCall :=
  if levelValue (ftpLogLevel logger) <=? levelValue DebugLevel
  then header now "DEBUG" ++ [LogPrintln args] else [].

Definition Debugf (logger : ftpLogger) (now format : string) (args : list string)
  : list logCall :=
  if levelValue (ftpLogLevel logger) <=? levelValue DebugLevel
  then header now "DEBUG" ++ [LogPrintf format args] ++ endOfLine format else [].

(** Whether a method wrote anything. *)
Definition logged (calls : list logCall) : bool :=
  match calls with
  | [] => false
  | _ :: _ => true
  end.

(** ** More sample environments and sessions *)

(** An environment whose passive listener never publishes a port. *)
Definition blockedEnv : Env :=
  mkEnv "127.0.0.1" "192.0.2.7" (fun _ => None) (fun _ => None)
        sampleListing sampleListing (fun _ => "20121204000000").

(** A logged-in session of a server that advertises a host name. *)
Definition namedHostWorld : world unit :=
  mkWorld (set_user "test" (newFtpConn "graval-mem" 60200 60300 "ftp.example.com")) tt [].

(** A session that has sent [USER test]. *)
Definition userSentWorld : world unit :=
  mkWorld (set_reqUser "test" freshConn) tt [].

(* ================================================================== *)
(** * Part II: properties *)
(* ================================================================== *)

(** ** Path cleaning and [buildPath] *)

Example Clean_examples :
  map Filepath.Clean
    ["";  "abc//def//ghi"; "abc/../../././../def"; "/../abc"; "/abc/def/../../..";
     "abc/def/"; "/"; "//"; "a/b/../../../c/.."; "/home//../../etc/passwd"; "../../a/.."]
  = ["."; "abc/def/ghi"; "../../def"; "/abc"; "/";
     "abc/def"; "/"; "/"; ".."; "/etc/passwd"; "../.."].
Proof. reflexivity. Qed.

Section SplitJoin.
Variable sep : ascii.

Lemma Split_not_nil s : Strings.Split s sep <> [].
Proof.
  destruct s as [|c r]; simpl; [discriminate|].
  destruct (Ascii.eqb c sep); [discriminate|].
  destruct (Strings.Split r sep); discriminate.
Qed.

Lemma Split_noSep s : Forall (fun e => hasByte sep e = false) (Strings.Split s sep).
Proof.
  induction s as [|c r IH]; simpl.
  - constructor; [reflexivity|constructor].
  - destruct (Ascii.eqb c sep) eqn:E.
    + constructor; [reflexivity|exact IH].
    + destruct (Strings.Split r sep) as [|h t].
      * constructor; [simpl; rewrite E; reflexivity|constructor].
      * inversion IH; subst. constructor; [simpl; rewrite E; assumption|assumption].
Qed.

Lemma Split_single e : hasByte sep e = false -> Strings.Split e sep = [e].
Proof.
  induction e as [|c r IH]; simpl; intros H; [reflexivity|].
  apply orb_false_iff in H as [Hc Hr]. rewrite Hc, (IH Hr). reflexivity.
Qed.

Lemma Split_app_sep e s :
  hasByte sep e = false ->
  Strings.Split (e ++ String sep s) sep = e :: Strings.Split s sep.
Proof.
  induction e as [|c r IH]; simpl; intros H.
  - rewrite Ascii.eqb_refl. reflexivity.
  - apply orb_false_iff in H as [Hc Hr]. rewrite Hc, (IH Hr). reflexivity.
Qed.

Lemma Split_Join es :
  Forall (fun e => hasByte sep e = false) es -> es <> [] ->
  Strings.Split (Strings.Join es (String sep "")) sep = es.
Proof.
  induction es as [|e rest IH]; intros HF Hne; [congruence|].
  inversion HF as [|? ? He Hrest]; subst.
  destruct rest as [|e2 rest'].
  - simpl. apply Split_single; assumption.
  - change (Strings.Join (e :: e2 :: rest') (String sep ""))
      with (e ++ String sep (Strings.Join (e2 :: rest') (String sep ""))).
    rewrite Split_app_sep by assumption. f_equal. apply IH; [assumption|discriminate].
Qed.
End SplitJoin.

Lemma realElem_spec e :
  realElem e = true <-> e <> "" /\ e <> "." /\ e <> ".." /\ hasByte "/" e = false.
Proof.
  unfold realElem. rewrite !andb_true_iff, !negb_true_iff.
  rewrite !String.eqb_neq. tauto.
Qed.

Lemma cleanStep_real r kept e :
  realElem e = true -> Filepath.cleanStep r kept e = e :: kept.
Proof.
  intros H. apply realElem_spec in H as (H1 & H2 & H3 & _).
  unfold Filepath.cleanStep.
  apply String.eqb_neq in H1, H2, H3. rewrite H1, H2, H3. reflexivity.
Qed.

Lemma fold_cleanStep_real r es kept :
  Forall (fun e => realElem e = true) es ->
  fold_left (Filepath.cleanStep r) es kept = (rev es ++ kept)%list.
Proof.
  revert kept. induction es as [|e rest IH]; intros kept HF; [reflexivity|].
  inversion HF; subst. simpl. rewrite cleanStep_real by assumption.
  rewrite IH by assumption. rewrite <- app_assoc. reflexivity.
Qed.

Lemma cleanStep_rooted_keeps kept e :
  Forall (fun e => realElem e = true) kept -> hasByte "/" e = false ->
  Forall (fun e => realElem e = true) (Filepath.cleanStep true kept e).
Proof.
  intros HF He. unfold Filepath.cleanStep.
  destruct (e =? "")%string eqn:E1; [assumption|].
  destruct (e =? ".")%string eqn:E2; [assumption|]. simpl.
  destruct (e =? "..")%string eqn:E3.
  - destruct kept as [|top below]; [constructor|].
    inversion HF as [|? ? Htop Hbelow]; subst.
    destruct (top =? "..")%string eqn:E4; [|assumption].
    apply String.eqb_eq in E4; subst. discriminate.
  - constructor; [|assumption]. unfold realElem. rewrite E1, E2, E3, He. reflexivity.
Qed.

Lemma fold_cleanStep_rooted es kept :
  Forall (fun e => realElem e = true) kept ->
  Forall (fun e => hasByte "/" e = false) es ->
  Forall (fun e => realElem e = true) (fold_left (Filepath.cleanStep true) es kept).
Proof.
  revert kept. induction es as [|e rest IH]; intros kept Hk He; [assumption|].
  inversion He; subst. simpl. apply IH; [apply cleanStep_rooted_keeps|]; assumption.
Qed.

Lemma prefix_slash s : Strings.HasPrefix s "/" = true <-> exists t, s = String "/" t.
Proof.
  destruct s as [|c t]; simpl.
  - split; [discriminate|intros [t H]; discriminate].
  - destruct (Ascii.eqb_spec c "/") as [->|Hne]; simpl.
    + split; [eauto|reflexivity].
    + split; [discriminate|]. intros [t' H]. congruence.
Qed.

Lemma append_empty_r s : s ++ "" = s.
Proof. induction s; simpl; congruence. Qed.

(** *** The byte loop of [Clean] against its element-wise account *)

Import Filepath.

Lemma bytes_app a b : bytes (a ++ b) = (bytes a ++ bytes b)%list.
Proof. induction a as [|c a IH]; simpl; [reflexivity|]. unfold bytes in *. simpl. rewrite IH. reflexivity. Qed.

Lemma hasByte_Forall e : hasByte "/" e = false -> Forall nonSlash (bytes e).
Proof.
  induction e as [|c r IH]; simpl; intros H; [constructor|].
  apply orb_false_iff in H as [Hc Hr]. constructor; [exact Hc|apply IH, Hr].
Qed.

Lemma copyElem_spec rest out :
  exists e rest',
    copyElem rest out = (rest', (rev (bytes e) ++ out)%list)
    /\ rest = e ++ rest' /\ hasByte "/" e = false /\ atElemEnd rest' = true.
Proof.
  revert out. induction rest as [|c t IH]; intros out.
  - exists "", "". repeat split.
  - simpl. destruct (Ascii.eqb c "/") eqn:Ec.
    + exists "", (String c t). simpl. rewrite Ec. repeat split.
    + destruct (IH (c :: out)) as (e & rest' & H1 & H2 & H3 & H4).
      exists (String c e), rest'. rewrite H1. simpl. rewrite Ec, H3.
      rewrite <- app_assoc. subst t. repeat split. exact H4.
Qed.

Lemma unwind_elem l : forall last base dd,
  Forall nonSlash (last :: l) -> (dd <= List.length base)%nat ->
  exists x, nonSlash x /\ unwind last (l ++ base)%list dd = unwind x base dd.
Proof.
  induction l as [|b l IH]; intros last base dd HF Hdd.
  - exists last. inversion HF; subst. split; [assumption|reflexivity].
  - inversion HF as [|? ? Hlast HF']; subst.
    destruct (IH b base dd HF' Hdd) as (x & Hx & E).
    exists x. split; [exact Hx|]. rewrite <- E.
    cbn [app unwind]. unfold nonSlash in Hlast. rewrite Hlast.
    replace (dd <? List.length (b :: l ++ base)%list)%nat with true; [reflexivity|].
    symmetry. apply Nat.ltb_lt. simpl. rewrite length_app. lia.
Qed.

Lemma unwind_stop x base dd :
  dd = List.length base -> unwind x base dd = base.
Proof.
  intros ->. destruct base as [|b base]; [reflexivity|].
  simpl. rewrite Nat.ltb_irrefl. reflexivity.
Qed.

Lemma unwind_slash x base dd :
  nonSlash x -> (dd <= List.length base)%nat -> unwind x ("/"%char :: base) dd = base.
Proof.
  intros Hx Hdd. cbn [unwind]. unfold nonSlash in Hx. rewrite Hx.
  replace (dd <? List.length ("/"%char :: base))%nat with true
    by (symmetry; apply Nat.ltb_lt; simpl; lia).
  cbn [andb negb]. destruct base as [|b base]; [reflexivity|].
  cbn [unwind]. rewrite Bool.andb_false_r. reflexivity.
Qed.

Lemma real_rev_bytes e :
  real e -> exists b l, rev (bytes e) = b :: l /\ Forall nonSlash (b :: l).
Proof.
  intros H. apply realElem_spec in H as (H1 & _ & _ & H4).
  pose proof (hasByte_Forall e H4) as HF. apply Forall_rev in HF.
  destruct (rev (bytes e)) as [|b l] eqn:E.
  - exfalso. apply H1. destruct e; [reflexivity|].
    apply (f_equal (@List.length ascii)) in E. rewrite length_rev in E. discriminate.
  - eauto.
Qed.

Lemma dots_real_or_dots e : real e -> e <> "..".
Proof. intros H. apply realElem_spec in H. tauto. Qed.

Lemma encR_dots_le rooted l k :
  (List.length (encR rooted (dots k)) <= List.length (encR rooted (l ++ dots k)%list))%nat.
Proof.
  induction l as [|e l IH]; [simpl; lia|].
  cbn [app encR]. rewrite !length_app. lia.
Qed.

Lemma backtrack_encR rooted e below k :
  real e -> (rooted = true -> k = 0%nat) ->
  backtrack (encR rooted (e :: below ++ dots k)%list) (List.length (encR rooted (dots k)))
  = encR rooted (below ++ dots k)%list.
Proof.
  intros He Hk. cbn [encR].
  destruct (real_rev_bytes e He) as (b & l & -> & HF).
  cbn [app backtrack].
  set (X := (below ++ dots k)%list).
  set (sep := match X with [] => [] | _ :: _ => ["/"%char] end).
  destruct (unwind_elem l b (sep ++ encR rooted X)%list
              (List.length (encR rooted (dots k))) HF) as (x & Hx & ->).
  { rewrite length_app. pose proof (encR_dots_le rooted below k). fold X in H. lia. }
  subst sep. destruct X as [|e2 X'] eqn:EX.
  - apply unwind_stop. subst X. apply app_eq_nil in EX as [_ Hd].
    destruct k; [reflexivity|discriminate].
  - apply unwind_slash; [exact Hx|].
    rewrite <- EX. subst X. apply encR_dots_le.
Qed.

Lemma encR_length_gt rooted e below k :
  real e ->
  (List.length (encR rooted (dots k))
   < List.length (encR rooted (e :: below ++ dots k)%list))%nat.
Proof.
  intros He. cbn [encR]. destruct (real_rev_bytes e He) as (b & l & -> & _).
  rewrite !length_app. pose proof (encR_dots_le rooted below k). simpl. lia.
Qed.

Lemma foldRest_nil rooted kept : foldRest rooted "" kept = kept.
Proof. reflexivity. Qed.

Lemma foldRest_slash rooted t kept :
  foldRest rooted (String "/" t) kept = foldRest rooted t kept.
Proof. reflexivity. Qed.

Lemma atElemEnd_cases t :
  atElemEnd t = true -> t = "" \/ exists t', t = String "/" t'.
Proof.
  destruct t as [|c t']; [auto|]. simpl. intros H.
  apply Ascii.eqb_eq in H. subst. eauto.
Qed.

Lemma foldRest_elem rooted e t kept :
  hasByte "/" e = false -> atElemEnd t = true ->
  foldRest rooted (e ++ t) kept = foldRest rooted t (Filepath.cleanStep rooted kept e).
Proof.
  intros He Ht. unfold foldRest.
  destruct (atElemEnd_cases t Ht) as [->|[t' ->]].
  - rewrite append_empty_r, Split_single by assumption. reflexivity.
  - rewrite Split_app_sep by assumption. reflexivity.
Qed.

(** A separator is written before an element unless the buffer holds no
    element yet. *)
Lemma slash_needed rooted reals k :
  (rooted = true -> k = 0%nat) -> Forall real reals ->
  let out := encR rooted (reals ++ dots k)%list in
  ((rooted && negb (List.length out =? 1)%nat)
   || (negb rooted && negb (List.length out =? 0)%nat))
  = match (reals ++ dots k)%list with [] => false | _ => true end.
Proof.
  intros Hk HF out. subst out.
  destruct reals as [|e reals].
  - destruct k as [|k].
    + destruct rooted; reflexivity.
    + destruct rooted; [specialize (Hk eq_refl); discriminate|]. reflexivity.
  - inversion HF as [|? ? He HF']; subst.
    pose proof (encR_length_gt rooted e reals k He) as Hgt.
    cbn [app] in *.
    destruct rooted.
    + rewrite (Hk eq_refl) in *.
      change (List.length (encR true (dots 0))) with 1%nat in Hgt.
      cbn [andb negb orb]. rewrite orb_false_r.
      apply negb_true_iff, Nat.eqb_neq. lia.
    + cbn [andb negb orb]. apply negb_true_iff, Nat.eqb_neq. lia.
Qed.

Lemma encR_cons rooted e kept :
  encR rooted (e :: kept)
  = (rev (bytes e)
     ++ (if match kept with [] => false | _ => true end
         then "/"%char :: encR rooted kept else encR rooted kept))%list.
Proof. cbn [encR]. destruct kept; reflexivity. Qed.

Lemma length_append a b : String.length (a ++ b) = (String.length a + String.length b)%nat.
Proof. induction a as [|c a IH]; simpl; [reflexivity|]. rewrite IH. reflexivity. Qed.

Lemma cleanStep_dotdot_real rooted e below :
  real e -> Filepath.cleanStep rooted (e :: below) ".." = below.
Proof.
  intros He. apply dots_real_or_dots in He. apply String.eqb_neq in He.
  unfold Filepath.cleanStep. cbn [String.eqb Ascii.eqb Bool.eqb orb]. rewrite He. reflexivity.
Qed.

Lemma cleanStep_dotdot_dots k :
  Filepath.cleanStep false (dots k) ".." = dots (S k).
Proof. destruct k; reflexivity. Qed.

Lemma encR_dots_S k :
  encR false (dots (S k))
  = ("."%char :: "."%char
     :: (if (0 <? List.length (encR false (dots k)))%nat
         then "/"%char :: encR false (dots k) else encR false (dots k)))%list.
Proof. destruct k; reflexivity. Qed.

(** The byte loop and the fold over the elements walk in step. *)
Lemma cleanLoop_elems rooted : forall fuel rest reals k,
  (String.length rest <= fuel)%nat -> (rooted = true -> k = 0%nat) -> Forall real reals ->
  cleanLoop fuel rooted rest (encR rooted (reals ++ dots k)%list)
            (List.length (encR rooted (dots k)))
  = encR rooted (foldRest rooted rest (reals ++ dots k)%list).
Proof.
  induction fuel as [|fuel IH]; intros rest reals k Hlen Hk HF.
  - destruct rest; [reflexivity|simpl in Hlen; lia].
  - destruct rest as [|c t]; [reflexivity|].
    cbn [cleanLoop]. simpl in Hlen.
    destruct (Ascii.eqb c "/") eqn:Ec.
    { apply Ascii.eqb_eq in Ec; subst c. rewrite foldRest_slash.
      apply IH; [lia|assumption|assumption]. }
    destruct (isDot (String c t)) eqn:Edot.
    { simpl in Edot. apply andb_true_iff in Edot as [Ed Het].
      apply Ascii.eqb_eq in Ed; subst c.
      change (String "." t) with ("." ++ t).
      rewrite foldRest_elem by (reflexivity || assumption).
      change (Filepath.cleanStep rooted (reals ++ dots k)%list ".")
        with (reals ++ dots k)%list.
      apply IH; [lia|assumption|assumption]. }
    destruct (isDotDot (String c t)) eqn:Edd.
    { destruct t as [|d t2]; [discriminate|].
      simpl in Edd. apply andb_true_iff in Edd as [Ecd Het].
      apply andb_true_iff in Ecd as [Ec' Ed].
      apply Ascii.eqb_eq in Ec', Ed; subst c d.
      change (String "." (String "." t2)) with (".." ++ t2).
      rewrite foldRest_elem by (reflexivity || assumption).
      cbn [skip2 append]. simpl in Hlen.
      destruct reals as [|e reals'].
      - cbn [app]. rewrite Nat.ltb_irrefl.
        destruct rooted.
        + rewrite (Hk eq_refl). cbn [negb].
          change (Filepath.cleanStep true (dots 0) "..") with (@nil string ++ dots 0)%list.
          apply (IH t2 [] 0%nat); [lia|reflexivity|constructor].
        + cbn [negb]. rewrite cleanStep_dotdot_dots.
          rewrite <- encR_dots_S.
          apply (IH t2 [] (S k)); [lia|discriminate|constructor].
      - inversion HF as [|? ? He HF']; subst.
        cbn [app].
        replace (List.length (encR rooted (dots k))
                 <? List.length (encR rooted (e :: reals' ++ dots k)%list))%nat with true
          by (symmetry; apply Nat.ltb_lt, encR_length_gt; assumption).
        rewrite backtrack_encR by assumption.
        rewrite cleanStep_dotdot_real by assumption.
        apply IH; [lia|assumption|assumption]. }
    rewrite (slash_needed rooted reals k Hk HF).
    set (out1 := if match (reals ++ dots k)%list with [] => false | _ => true end
                 then ("/"%char :: encR rooted (reals ++ dots k))%list
                 else encR rooted (reals ++ dots k)%list).
    destruct (copyElem_spec (String c t) out1) as (e & rest' & Hc & Hrest & He & Hend).
    rewrite Hc.
    assert (Hreal : real e).
    { apply realElem_spec. destruct e as [|c' e'].
      - exfalso. simpl in Hrest. subst rest'. simpl in Hend. congruence.
      - simpl in Hrest. inversion Hrest; subst c' t.
        repeat split; try discriminate; try assumption.
        + intros E. inversion E; subst c e'. simpl in Edot. simpl in Hend.
          rewrite Hend in Edot. discriminate.
        + intros E. inversion E; subst c e'. simpl in Edd.
          rewrite Hend in Edd. discriminate. }
    rewrite Hrest, foldRest_elem by assumption.
    rewrite cleanStep_real by assumption.
    subst out1. rewrite <- encR_cons.
    change (e :: reals ++ dots k)%list with ((e :: reals) ++ dots k)%list.
    apply IH; [|assumption|constructor; assumption].
    apply (f_equal String.length) in Hrest. rewrite length_append in Hrest.
    simpl in Hrest. destruct e; [apply realElem_spec in Hreal; tauto|].
    simpl in Hrest. lia.
Qed.

Lemma string_of_list_ascii_app a b :
  string_of_list_ascii (a ++ b)%list = string_of_list_ascii a ++ string_of_list_ascii b.
Proof. induction a as [|c a IH]; simpl; [reflexivity|]. rewrite IH. reflexivity. Qed.

Lemma append_assoc (a b c : string) : (a ++ b) ++ c = a ++ (b ++ c).
Proof. induction a as [|x a IH]; simpl; [reflexivity|]. rewrite IH. reflexivity. Qed.

Lemma Join_snoc l e sep :
  l <> [] -> Strings.Join (l ++ [e])%list sep = Strings.Join l sep ++ sep ++ e.
Proof.
  induction l as [|a l IH]; intros Hne; [congruence|].
  destruct l as [|b l].
  - reflexivity.
  - change (Strings.Join ((a :: b :: l) ++ [e])%list sep)
      with (a ++ sep ++ Strings.Join ((b :: l) ++ [e])%list sep).
    rewrite IH by discriminate.
    change (Strings.Join (a :: b :: l) sep) with (a ++ sep ++ Strings.Join (b :: l) sep).
    rewrite !append_assoc. reflexivity.
Qed.

(** Reading the buffer back gives the kept elements joined by separators. *)
Lemma encR_decode rooted kept :
  string_of_list_ascii (rev (encR rooted kept))
  = (if rooted then "/" else "") ++ Strings.Join (rev kept) "/".
Proof.
  induction kept as [|e below IH].
  - destruct rooted; reflexivity.
  - cbn [encR]. rewrite !rev_app_distr, rev_involutive.
    rewrite !string_of_list_ascii_app, IH.
    unfold bytes. rewrite string_of_list_ascii_of_string.
    rewrite !append_assoc. f_equal.
    destruct below as [|e2 below'].
    + reflexivity.
    + change (rev (e :: e2 :: below')) with (rev (e2 :: below') ++ [e])%list.
      rewrite (Join_snoc _ e).
      * reflexivity.
      * cbn [rev]. destruct (rev below'); discriminate.
Qed.

Lemma cleanStep_nonempty rooted kept elem :
  Forall (fun e => e <> "") kept ->
  Forall (fun e => e <> "") (Filepath.cleanStep rooted kept elem).
Proof.
  intros HF. unfold Filepath.cleanStep.
  destruct (String.eqb_spec elem "") as [->|Hne]; [assumption|].
  destruct (elem =? ".")%string; [assumption|]. cbn [orb].
  destruct (elem =? "..")%string.
  - destruct kept as [|top below].
    + destruct rooted; constructor; [assumption|constructor].
    + inversion HF; subst. destruct (top =? "..")%string;
        [constructor; assumption|assumption].
  - constructor; assumption.
Qed.

Lemma fold_cleanStep_nonempty rooted elems kept :
  Forall (fun e => e <> "") kept ->
  Forall (fun e => e <> "") (fold_left (Filepath.cleanStep rooted) elems kept).
Proof.
  revert kept. induction elems as [|e elems IH]; intros kept HF; [assumption|].
  simpl. apply IH, cleanStep_nonempty, HF.
Qed.

Lemma encR_nil kept :
  Forall (fun e => e <> "") kept -> encR false kept = [] -> kept = [].
Proof.
  intros HF H. destruct kept as [|e below]; [reflexivity|].
  inversion HF as [|? ? He _]; subst. exfalso.
  cbn [encR] in H. apply app_eq_nil in H as [H _].
  apply (f_equal (@rev ascii)) in H. rewrite rev_involutive in H.
  destruct e; [congruence|discriminate].
Qed.

Lemma encR_rooted_not_nil kept : encR true kept <> [].
Proof.
  induction kept as [|e below IH]; [discriminate|].
  cbn [encR]. intros E. apply app_eq_nil in E as [_ E].
  apply app_eq_nil in E as [_ E]. exact (IH E).
Qed.

(** The byte loop of [Clean] computes what the element-wise cleaning does. *)
Lemma Clean_by_elems path : Filepath.Clean path = Filepath.CleanElems path.
Proof.
  destruct path as [|c t]; [reflexivity|].
  unfold Filepath.Clean, Filepath.CleanElems.
  destruct (Ascii.eqb c "/") eqn:Ec.
  - apply Ascii.eqb_eq in Ec; subst c.
    change (Strings.HasPrefix (String "/" t) "/") with true. cbv beta iota zeta.
    pose proof (cleanLoop_elems true (String.length (String "/" t)) t [] 0%nat) as H.
    cbn [app dots repeat encR List.length] in H.
    rewrite H by (simpl; auto).
    unfold Filepath.cleanElems.
    change (fold_left (Filepath.cleanStep true) (Strings.Split (String "/" t) "/") [])
      with (foldRest true t []).
    pose proof (encR_decode true (foldRest true t [])) as Hd.
    destruct (encR true (foldRest true t [])) as [|b out] eqn:E.
    + exfalso. exact (encR_rooted_not_nil _ E).
    + exact Hd.
  - assert (Hr : Strings.HasPrefix (String c t) "/" = false) by (simpl; rewrite Ec; reflexivity).
    rewrite Hr. cbv beta iota zeta.
    pose proof (cleanLoop_elems false (String.length (String c t)) (String c t) [] 0%nat) as H.
    cbn [app dots repeat encR List.length] in H.
    rewrite H by (auto; discriminate).
    unfold Filepath.cleanElems.
    change (fold_left (Filepath.cleanStep false) (Strings.Split (String c t) "/") [])
      with (foldRest false (String c t) []).
    pose proof (encR_decode false (foldRest false (String c t) [])) as Hd.
    assert (Hne : Forall (fun e => e <> "") (foldRest false (String c t) []))
      by (apply fold_cleanStep_nonempty; constructor).
    destruct (encR false (foldRest false (String c t) [])) as [|b out] eqn:E.
    + apply encR_nil in E; [|assumption]. rewrite E. reflexivity.
    + rewrite Hd. cbn [append].
      destruct (rev (foldRest false (String c t) [])) as [|e l] eqn:Er; [|reflexivity].
      exfalso. apply (f_equal (@rev string)) in Er. rewrite rev_involutive in Er.
      rewrite Er in E. discriminate.
Qed.

Lemma Clean_rooted_eq path :
  Strings.HasPrefix path "/" = true ->
  Filepath.Clean path = rootedJoin (Filepath.cleanElems true (Strings.Split path "/")).
Proof.
  intros H. rewrite Clean_by_elems.
  destruct (proj1 (prefix_slash path) H) as [t ->].
  unfold Filepath.CleanElems. rewrite H. reflexivity.
Qed.

(** Cleaning a rooted path gives the root followed by real elements. *)
Lemma Clean_rooted path :
  Strings.HasPrefix path "/" = true ->
  exists kept, Forall (fun e => realElem e = true) kept /\
               Filepath.Clean path = rootedJoin kept.
Proof.
  intros H. exists (Filepath.cleanElems true (Strings.Split path "/")). split.
  - unfold Filepath.cleanElems. apply Forall_rev.
    apply fold_cleanStep_rooted; [constructor|apply Split_noSep].
  - apply Clean_rooted_eq; assumption.
Qed.

Lemma cleanElems_rootedJoin kept :
  Forall (fun e => realElem e = true) kept ->
  Filepath.cleanElems true (Strings.Split (rootedJoin kept) "/") = kept.
Proof.
  intros HF. unfold Filepath.cleanElems, rootedJoin.
  change (Strings.Split ("/" ++ Strings.Join kept "/") "/")
    with ("" :: Strings.Split (Strings.Join kept "/") "/").
  change (fold_left (Filepath.cleanStep true) ("" :: ?l) [])
    with (fold_left (Filepath.cleanStep true) l []).
  destruct kept as [|e rest]; [reflexivity|].
  rewrite Split_Join.
  - rewrite fold_cleanStep_real by assumption. rewrite app_nil_r. apply rev_involutive.
  - eapply Forall_impl; [|exact HF]. intros a Ha. apply realElem_spec in Ha. tauto.
  - discriminate.
Qed.

Lemma Clean_rootedJoin kept :
  Forall (fun e => realElem e = true) kept ->
  Filepath.Clean (rootedJoin kept) = rootedJoin kept.
Proof.
  intros HF. rewrite Clean_rooted_eq by reflexivity.
  rewrite cleanElems_rootedJoin by assumption. reflexivity.
Qed.

Lemma noDoubleSlash_ReplaceAll s :
  noDoubleSlash s = true -> Strings.ReplaceAll s "//" "/" = s.
Proof.
  unfold Strings.ReplaceAll.
  induction s as [|c r IH]; intros H; [reflexivity|].
  simpl in H. apply andb_true_iff in H as [H1 H2].
  apply negb_true_iff in H1.
  assert (Hp : Strings.HasPrefix (String c r) "//" = false).
  { cbn [Strings.HasPrefix].
    destruct (Ascii.eqb c "/"); [|reflexivity].
    destruct r as [|d r']; [reflexivity|].
    simpl in H1. simpl. destruct (Ascii.eqb d "/"); [discriminate|reflexivity]. }
  cbn [Strings.replaceFrom]. rewrite Hp, IH by assumption. reflexivity.
Qed.

Lemma noDoubleSlash_app_elem e t :
  hasByte "/" e = false -> noDoubleSlash (e ++ t) = noDoubleSlash t.
Proof.
  induction e as [|c r IH]; intros H; [reflexivity|].
  simpl in H. apply orb_false_iff in H as [Hc Hr].
  simpl. rewrite Hc. simpl. apply IH; assumption.
Qed.

Lemma realElem_head e :
  realElem e = true -> exists c r, e = String c r /\ Ascii.eqb c "/" = false.
Proof.
  intros H. apply realElem_spec in H as (H1 & _ & _ & H4).
  destruct e as [|c r]; [congruence|].
  simpl in H4. apply orb_false_iff in H4 as [Hc _]. eauto.
Qed.

Lemma noDoubleSlash_slash_elem e t :
  realElem e = true -> noDoubleSlash t = true ->
  noDoubleSlash (String "/" (e ++ t)) = true.
Proof.
  intros He Ht.
  destruct (realElem_head e He) as (c & r & -> & Hc).
  apply realElem_spec in He as (_ & _ & _ & H4).
  change (noDoubleSlash (String "/" (String c r ++ t)))
    with (negb (Ascii.eqb "/" "/" && Strings.HasPrefix (String c r ++ t) "/")
          && noDoubleSlash (String c r ++ t)).
  rewrite noDoubleSlash_app_elem by assumption. rewrite Ht.
  simpl. rewrite Hc. reflexivity.
Qed.


Lemma noDoubleSlash_rootedJoin kept :
  Forall (fun e => realElem e = true) kept -> noDoubleSlash (rootedJoin kept) = true.
Proof.
  unfold rootedJoin. induction kept as [|e rest IH]; intros HF; [reflexivity|].
  inversion HF as [|? ? He Hrest]; subst.
  destruct rest as [|e2 rest'].
  - change ("/" ++ Strings.Join [e] "/") with (String "/" e).
    rewrite <- (append_empty_r e). apply noDoubleSlash_slash_elem; [assumption|reflexivity].
  - change ("/" ++ Strings.Join (e :: e2 :: rest') "/")
      with (String "/" (e ++ ("/" ++ Strings.Join (e2 :: rest') "/"))).
    apply noDoubleSlash_slash_elem; [assumption|]. apply IH; assumption.
Qed.


Lemma Split_rootedJoin kept :
  Forall (fun e => realElem e = true) kept ->
  Strings.Split (rootedJoin kept) "/"
  = "" :: match kept with [] => [""] | _ => kept end.
Proof.
  intros HF. unfold rootedJoin.
  change (Strings.Split ("/" ++ Strings.Join kept "/") "/")
    with ("" :: Strings.Split (Strings.Join kept "/") "/").
  f_equal. destruct kept as [|e rest]; [reflexivity|].
  apply Split_Join; [|discriminate].
  eapply Forall_impl; [|exact HF]. intros a Ha. apply realElem_spec in Ha. tauto.
Qed.

Lemma noDotElems_rootedJoin kept :
  Forall (fun e => realElem e = true) kept -> noDotElems (rootedJoin kept).
Proof.
  intros HF. unfold noDotElems. rewrite Split_rootedJoin by assumption.
  constructor; [split; discriminate|].
  destruct kept as [|e rest].
  - constructor; [split; discriminate|constructor].
  - eapply Forall_impl; [|exact HF]. intros a Ha. apply realElem_spec in Ha. tauto.
Qed.

(** Every branch of [buildPath] cleans a rooted path. *)
Lemma buildPath_rooted c s :
  Strings.HasPrefix (namePrefix c) "/" = true ->
  exists kept, Forall (fun e => realElem e = true) kept /\
               buildPath c s = rootedJoin kept.
Proof.
  intros Hp. unfold buildPath.
  assert (Hclean : forall path, Strings.HasPrefix path "/" = true ->
            exists kept, Forall (fun e => realElem e = true) kept /\
              Strings.ReplaceAll (Filepath.Clean path) "//" "/" = rootedJoin kept).
  { intros path H. destruct (Clean_rooted path H) as (kept & HF & ->).
    exists kept. split; [assumption|].
    apply noDoubleSlash_ReplaceAll, noDoubleSlash_rootedJoin; assumption. }
  destruct s as [|ch t].
  - apply Hclean; assumption.
  - change ((0 <? String.length (String ch t))%nat) with true.
    change (substring 0 1 (String ch t)) with (String ch (substring 0 0 t)).
    replace (substring 0 0 t) with "" by (destruct t; reflexivity).
    cbv beta iota. rewrite andb_true_l.
    destruct (String.eqb_spec (String ch "") "/") as [E|E].
    + apply Hclean. inversion E; subst. reflexivity.
    + apply Hclean. apply prefix_slash in Hp as [t' ->]. reflexivity.
Qed.

(** C2: for every client-supplied string [s] and every canonical absolute
    [namePrefix], [buildPath] returns a path that begins with [/], has no
    [.] or [..] element, and is unchanged when built again against the
    prefix [/]; with the prefix [/home], the input [/../../../../etc/passwd]
    gives [/etc/passwd]. *)
Theorem buildPath_canonical (c : ftpConn) (s : string) :
  canonicalAbs (namePrefix c) = true ->
  Strings.HasPrefix (buildPath c s) "/" = true
  /\ noDotElems (buildPath c s)
  /\ buildPath (set_namePrefix "/" c) (buildPath c s) = buildPath c s
  /\ buildPath (set_namePrefix "/home" c) "/../../../../etc/passwd" = "/etc/passwd".
Proof.
  intros Hc. unfold canonicalAbs in Hc. apply andb_true_iff in Hc as [Hp _].
  destruct (buildPath_rooted c s Hp) as (kept & HF & E).
  split; [|split; [|split]].
  - rewrite E. reflexivity.
  - rewrite E. apply noDotElems_rootedJoin; assumption.
  - rewrite E.
    unfold buildPath. unfold rootedJoin at 1 2.
    change ("/" ++ Strings.Join kept "/") with (String "/" (Strings.Join kept "/")).
    change ((0 <? String.length (String "/" (Strings.Join kept "/")))%nat) with true.
    change (substring 0 1 (String "/" (Strings.Join kept "/")))
      with (String "/" (substring 0 0 (Strings.Join kept "/"))).
    replace (substring 0 0 (Strings.Join kept "/")) with ""
      by (destruct (Strings.Join kept "/"); reflexivity).
    change (true && ("/" =? "/")%string) with true. cbv beta iota.
    change (String "/" (Strings.Join kept "/")) with (rootedJoin kept).
    rewrite Clean_rootedJoin by assumption.
    apply noDoubleSlash_ReplaceAll, noDoubleSlash_rootedJoin; assumption.
  - reflexivity.
Qed.

(** ** The line parser and the command table *)

Section TrimFacts.
Variable f : ascii -> bool.

Lemma trimLeftASCII_spec s :
  exists pre, s = pre ++ Strings.trimLeftASCII f s /\ allBytes f pre = true
              /\ (forall c, firstByte (Strings.trimLeftASCII f s) = Some c -> f c = false).
Proof.
  induction s as [|c r (pre & E & Hall & Hhd)].
  - exists "". repeat split. discriminate.
  - simpl. destruct (f c) eqn:Ec.
    + exists (String c pre). simpl. rewrite <- E, Ec, Hall. auto.
    + exists "". repeat split. simpl. intros c' Hc. congruence.
Qed.

Lemma trimRightASCII_spec s :
  exists post, s = Strings.trimRightASCII f s ++ post /\ allBytes f post = true
               /\ (forall c, lastByte (Strings.trimRightASCII f s) = Some c -> f c = false).
Proof.
  induction s as [|c r (post & E & Hall & Hlast)].
  - exists "". repeat split. discriminate.
  - simpl. destruct (Strings.trimRightASCII f r) as [|d r'] eqn:Er.
    + simpl in E. subst post. destruct (f c) eqn:Ec.
      * exists (String c r). simpl. rewrite Ec, Hall. repeat split. discriminate.
      * exists r. simpl. repeat split; [assumption|].
        intros c' Hc. congruence.
    + exists post. rewrite E at 1. repeat split; assumption.
Qed.

Lemma trimLeftASCII_lastByte s c :
  lastByte (Strings.trimLeftASCII f s) = Some c -> lastByte s = Some c.
Proof.
  induction s as [|d r IH]; simpl; [discriminate|].
  destruct (f d); [|auto].
  intros H. specialize (IH H). destruct r; [discriminate|exact IH].
Qed.

(** Trimming both ends, in the order of [strings.Trim]. *)
Lemma trimASCII_spec s :
  exists pre post,
    s = pre ++ Strings.trimLeftASCII f (Strings.trimRightASCII f s) ++ post
    /\ allBytes f pre = true /\ allBytes f post = true
    /\ trimmed f (Strings.trimLeftASCII f (Strings.trimRightASCII f s)).
Proof.
  destruct (trimRightASCII_spec s) as (post & E1 & Hpost & Hlast).
  destruct (trimLeftASCII_spec (Strings.trimRightASCII f s)) as (pre & E2 & Hpre & Hhd).
  exists pre, post. split; [|split; [assumption|split; [assumption|split]]].
  - rewrite E1 at 1. rewrite E2 at 1. apply append_assoc.
  - exact Hhd.
  - intros c Hc. apply Hlast, trimLeftASCII_lastByte, Hc.
Qed.
End TrimFacts.

(** ** Runes at the ends of a string: [strings.TrimSpace] *)

Lemma length_take n : forall s, String.length (take n s) = Nat.min n (String.length s).
Proof.
  induction n as [|n IH]; intros [|c r]; simpl; try reflexivity.
  rewrite IH. reflexivity.
Qed.

Lemma length_drop n : forall s, String.length (drop n s) = (String.length s - n)%nat.
Proof.
  induction n as [|n IH]; intros [|c r]; simpl; try reflexivity; try lia.
  apply IH.
Qed.

Lemma get_drop n : forall s k, String.get k (drop n s) = String.get (n + k) s.
Proof.
  induction n as [|n IH]; intros [|c r] k; simpl; try reflexivity.
  apply IH.
Qed.

Lemma get_take n : forall s k, (k < n)%nat -> String.get k (take n s) = String.get k s.
Proof.
  induction n as [|n IH]; intros [|c r] k Hk; simpl; try reflexivity; try lia.
  destruct k as [|k]; [reflexivity|]. apply IH. lia.
Qed.

Lemma byteAt_drop n s k : byteAt (drop n s) k = byteAt s (n + k).
Proof. unfold byteAt. rewrite get_drop. reflexivity. Qed.

Lemma byteAt_take n s k : (k < n)%nat -> byteAt (take n s) k = byteAt s k.
Proof. intros H. unfold byteAt. rewrite get_take by assumption. reflexivity. Qed.

Lemma firstByte_get s : firstByte s = String.get 0 s.
Proof. destruct s; reflexivity. Qed.

Lemma firstByte_take n s c : firstByte (take n s) = Some c -> firstByte s = Some c.
Proof. destruct n, s; simpl; congruence. Qed.

Lemma lastByte_get : forall s, lastByte s = String.get (String.length s - 1) s.
Proof.
  induction s as [|c r IH]; [reflexivity|].
  destruct r as [|d r']; [reflexivity|].
  change (lastByte (String c (String d r'))) with (lastByte (String d r')).
  rewrite IH. simpl. rewrite Nat.sub_0_r. reflexivity.
Qed.

Lemma lastByte_take n s :
  (1 <= n <= String.length s)%nat -> lastByte (take n s) = String.get (n - 1) s.
Proof.
  intros H. rewrite lastByte_get, length_take.
  rewrite Nat.min_l by lia. apply get_take. lia.
Qed.

Lemma get_byteAt s i c : String.get i s = Some c -> byteAt s i = Z.of_N (N_of_ascii c).
Proof. unfold byteAt. intros ->. reflexivity. Qed.

Lemma isSpace_IsSpace c :
  Strings.isSpace c = true -> 
  Z.of_N (N_of_ascii c) < 128 /\ Unicode.IsSpace (Z.of_N (N_of_ascii c)) = true.
Proof.
  unfold Strings.isSpace, Unicode.IsSpace. cbv zeta.
  pose proof (N_ascii_bounded c) as Hb.
  set (n := N_of_ascii c) in *.
  intros H. apply orb_true_iff in H as [H|H].
  - apply andb_true_iff in H as [H1 H2]. apply N.leb_le in H1, H2.
    split; [lia|].
    replace ((0 <=? Z.of_N n) && (Z.of_N n <=? 255)) with true
      by (symmetry; apply andb_true_iff; split; apply Z.leb_le; lia).
    replace ((9 <=? Z.of_N n) && (Z.of_N n <=? 13)) with true
      by (symmetry; apply andb_true_iff; split; apply Z.leb_le; lia).
    reflexivity.
  - apply N.eqb_eq in H. rewrite H. split; [lia|reflexivity].
Qed.

(** A tactic that splits the tests of a decoder in a hypothesis. *)
Ltac split_tests H :=
  repeat match type of H with
  | context [if ?b then _ else _] => destruct b eqn:?
  end.

Lemma DecodeRuneInString_ascii s :
  s <> "" -> byteAt s 0 < 128 ->
  Utf8.DecodeRuneInString s = (byteAt s 0, 1%nat).
Proof.
  intros Hs Hb. destruct s as [|c r]; [congruence|].
  unfold Utf8.DecodeRuneInString. cbv zeta.
  unfold Utf8.RuneSelf. apply Z.ltb_lt in Hb. rewrite Hb. reflexivity.
Qed.

Lemma DecodeRuneInString_size s r size :
  s <> "" -> Utf8.DecodeRuneInString s = (r, size) ->
  (1 <= size <= String.length s)%nat
  /\ ((2 <= size)%nat -> 128 <= byteAt s 0 /\ 128 <= byteAt s (size - 1)).
Proof.
  intros Hs H. destruct s as [|c t]; [congruence|].
  unfold Utf8.DecodeRuneInString, Utf8.first, Utf8.notCont, Utf8.RuneSelf in H.
  cbv zeta in H.
  set (n := String.length (String c t)) in *.
  assert (Hn : (1 <= n)%nat) by (subst n; simpl; lia).
  split_tests H; inversion H; subst r size; clear H;
    try match goal with
    | E : (_ <=? _)%nat = _ |- _ => cbn in E; discriminate E
    end;
    repeat match goal with
    | E : (_ <? _)%nat = false |- _ => apply Nat.ltb_ge in E
    | E : (_ <? _) = false |- _ => apply Z.ltb_ge in E
    | E : (_ <? _) = true |- _ => apply Z.ltb_lt in E
    | E : (_ =? _) = true |- _ => apply Z.eqb_eq in E
    | E : (_ || _) = false |- _ => apply orb_false_iff in E as [? ?]
    end;
    (split; [lia|]); intros Hsz; try lia; simpl Nat.sub; lia.
Qed.

Lemma backToStart_le fuel s lim : forall start,
  Utf8.backToStart fuel s start lim <= start.
Proof.
  induction fuel as [|k IH]; intros start; simpl; [lia|].
  destruct (start <? lim); [lia|].
  destruct (Utf8.RuneStart _); [lia|].
  specialize (IH (start - 1)). lia.
Qed.

Lemma drop_nonempty n s : (n < String.length s)%nat -> drop n s <> "".
Proof.
  intros H E. apply (f_equal String.length) in E. rewrite length_drop in E.
  simpl in E. lia.
Qed.

Lemma DecodeLastRuneInString_size s r size :
  s <> "" -> Utf8.DecodeLastRuneInString s = (r, size) ->
  (1 <= size <= String.length s)%nat
  /\ (byteAt s (String.length s - size) < 128 -> r = byteAt s (String.length s - size)).
Proof.
  intros Hs. unfold Utf8.DecodeLastRuneInString. cbv zeta.
  destruct (String.length s) as [|last] eqn:El.
  { destruct s; [congruence|discriminate]. }
  unfold Utf8.RuneSelf.
  destruct (byteAt s last <? 128) eqn:Eb.
  - intros H. inversion H; subst r size. split; [lia|].
    intros _. replace (S last - 1)%nat with last by lia. reflexivity.
  - apply Z.ltb_ge in Eb.
    set (start := Z.to_nat (Z.max 0 (Utf8.backToStart Utf8.UTFMax s (Z.of_nat last - 1)
                   (Z.max 0 (Z.of_nat (S last) - Z.of_nat Utf8.UTFMax))))).
    assert (Hstart : (start < S last)%nat).
    { subst start.
      pose proof (backToStart_le Utf8.UTFMax s
                    (Z.max 0 (Z.of_nat (S last) - Z.of_nat Utf8.UTFMax))
                    (Z.of_nat last - 1)) as Hle.
      lia. }
    destruct (Utf8.DecodeRuneInString (drop start s)) as [r' size'] eqn:Ed.
    assert (Hne : drop start s <> "") by (apply drop_nonempty; lia).
    destruct (DecodeRuneInString_size _ _ _ Hne Ed) as [Hsz _].
    destruct (start + size' =? S last)%nat eqn:Ee.
    + apply Nat.eqb_eq in Ee. intros H. inversion H; subst r size. clear H.
      split; [lia|].
      replace (S last - size')%nat with start by lia. intros Hlt.
      assert (Hb0 : byteAt (drop start s) 0 = byteAt s start).
      { rewrite byteAt_drop. f_equal. lia. }
      rewrite <- Hb0 in Hlt.
      rewrite (DecodeRuneInString_ascii _ Hne Hlt) in Ed.
      inversion Ed. rewrite Hb0. reflexivity.
    + intros H. inversion H; subst r size. clear H. split; [lia|].
      replace (S last - 1)%nat with last by lia. lia.
Qed.

Section RuneTrim.
Variable f : Z -> bool.

Lemma indexFunc_Some s : forall fuel i k,
  Strings.indexFunc fuel s f false i = Some k ->
  (k < String.length s)%nat
  /\ exists r size, Utf8.DecodeRuneInString (drop k s) = (r, size) /\ f r = false.
Proof.
  induction fuel as [|fuel IH]; intros i k; simpl; [discriminate|].
  destruct (i <? String.length s)%nat eqn:Ei; [|discriminate].
  apply Nat.ltb_lt in Ei.
  destruct (Utf8.DecodeRuneInString (drop i s)) as [r size] eqn:Ed.
  destruct (f r) eqn:Ef; simpl.
  - apply IH.
  - intros H. inversion H; subst k. split; [assumption|]. eauto.
Qed.

Lemma lastIndexFunc_Some s : forall fuel i k,
  (i <= String.length s)%nat ->
  Strings.lastIndexFunc fuel s f false i = Some k ->
  exists j r size,
    (0 < j <= String.length s)%nat
    /\ Utf8.DecodeLastRuneInString (take j s) = (r, size)
    /\ k = (j - size)%nat /\ f r = false.
Proof.
  induction fuel as [|fuel IH]; intros i k Hi; simpl; [discriminate|].
  destruct (0 <? i)%nat eqn:Ei; [|discriminate].
  apply Nat.ltb_lt in Ei.
  destruct (Utf8.DecodeLastRuneInString (take i s)) as [r size] eqn:Ed.
  destruct (f r) eqn:Ef; simpl.
  - apply IH. lia.
  - intros H. inversion H; subst k. exists i, r, size. auto.
Qed.

End RuneTrim.

Lemma take_nonempty n s : (0 < n)%nat -> (0 < String.length s)%nat -> take n s <> "".
Proof. destruct n, s; simpl; intros; try lia. discriminate. Qed.

Lemma TrimLeftFunc_IsSpace_firstByte s c :
  firstByte (Strings.TrimLeftFunc s Unicode.IsSpace) = Some c ->
  Strings.isSpace c = false.
Proof.
  unfold Strings.TrimLeftFunc.
  destruct (Strings.indexFunc _ s _ false 0) as [k|] eqn:E; [|discriminate].
  apply indexFunc_Some in E as (Hk & r & size & Ed & Ef).
  intros Hc. destruct (Strings.isSpace c) eqn:Es; [|reflexivity].
  apply isSpace_IsSpace in Es as [Hlt Hsp].
  rewrite firstByte_get in Hc. apply get_byteAt in Hc.
  rewrite <- Hc in Hlt, Hsp.
  rewrite (DecodeRuneInString_ascii _ (drop_nonempty _ _ Hk) Hlt) in Ed.
  inversion Ed; subst. congruence.
Qed.

Lemma TrimRightFunc_IsSpace_lastByte t c :
  lastByte (Strings.TrimRightFunc t Unicode.IsSpace) = Some c ->
  Strings.isSpace c = false.
Proof.
  unfold Strings.TrimRightFunc.
  destruct (Strings.lastIndexFunc _ t _ false _) as [i|] eqn:E; [|discriminate].
  apply lastIndexFunc_Some in E as (j & r & size & Hj & Ed & -> & Ef); [|lia].
  assert (Hlen : String.length (take j t) = j)
    by (rewrite length_take; lia).
  assert (Hne : take j t <> "") by (apply take_nonempty; lia).
  destruct (DecodeLastRuneInString_size _ _ _ Hne Ed) as [Hsz Hr].
  rewrite Hlen in Hsz, Hr.
  rewrite byteAt_take in Hr by lia.
  set (i := (j - size)%nat) in *.
  assert (Hi : (i < String.length t)%nat) by (subst i; lia).
  destruct (Utf8.RuneSelf <=? byteAt t i) eqn:Eb; unfold Utf8.RuneSelf in Eb.
  - apply Z.leb_le in Eb.
    destruct (Utf8.DecodeRuneInString (drop i t)) as [r' wid] eqn:Ew.
    destruct (DecodeRuneInString_size _ _ _ (drop_nonempty _ _ Hi) Ew) as [Hw Hc].
    rewrite length_drop in Hw.
    rewrite lastByte_take by lia. intros Hg. apply get_byteAt in Hg.
    destruct (Strings.isSpace c) eqn:Es; [|reflexivity].
    apply isSpace_IsSpace in Es as [Hlt _]. rewrite <- Hg in Hlt.
    destruct (Nat.eq_dec wid 1) as [->|Hw1].
    + replace (i + 1 - 1)%nat with i in Hlt by lia. lia.
    + destruct (Hc ltac:(lia)) as [_ Hc2]. rewrite byteAt_drop in Hc2.
      replace (i + (wid - 1))%nat with (i + wid - 1)%nat in Hc2 by lia. lia.
  - apply Z.leb_gt in Eb.
    rewrite lastByte_take by lia. replace (i + 1 - 1)%nat with i by lia.
    intros Hg. apply get_byteAt in Hg.
    destruct (Strings.isSpace c) eqn:Es; [|reflexivity].
    apply isSpace_IsSpace in Es as [_ Hsp]. rewrite <- Hg in Hsp.
    rewrite <- (Hr Eb) in Hsp. congruence.
Qed.

Lemma TrimRightFunc_prefix t f c :
  firstByte (Strings.TrimRightFunc t f) = Some c -> firstByte t = Some c.
Proof.
  unfold Strings.TrimRightFunc.
  destruct (Strings.lastIndexFunc _ t f false _) as [i|].
  - destruct (Utf8.RuneSelf <=? byteAt t i).
    + destruct (Utf8.DecodeRuneInString (drop i t)). apply firstByte_take.
    + apply firstByte_take.
  - apply firstByte_take.
Qed.

(** What [TrimSpace] returns neither begins nor ends with a byte of the
    ASCII white space. *)
Lemma TrimSpace_trimmed s : trimmed Strings.isSpace (Strings.TrimSpace s).
Proof.
  unfold Strings.TrimSpace, Strings.TrimFunc. split; intros c Hc.
  - apply TrimRightFunc_prefix in Hc. exact (TrimLeftFunc_IsSpace_firstByte s c Hc).
  - exact (TrimRightFunc_IsSpace_lastByte _ c Hc).
Qed.

Lemma Cut_Some s sep a b :
  Strings.Cut s sep = Some (a, b) -> s = a ++ String sep b /\ hasByte sep a = false.
Proof.
  revert a. induction s as [|c r IH]; intros a; simpl; [discriminate|].
  destruct (Ascii.eqb_spec c sep) as [->|Hne].
  - intros H. inversion H; subst. auto.
  - destruct (Strings.Cut r sep) as [[a' b']|]; [|discriminate].
    intros H. inversion H; subst. destruct (IH a' eq_refl) as [-> Ha].
    split; [reflexivity|]. simpl. rewrite Ha.
    apply Ascii.eqb_neq in Hne. rewrite Hne. reflexivity.
Qed.

Lemma Cut_None s sep : Strings.Cut s sep = None -> hasByte sep s = false.
Proof.
  induction s as [|c r IH]; simpl; [reflexivity|].
  destruct (Ascii.eqb c sep); [discriminate|].
  destruct (Strings.Cut r sep) as [[a b]|]; [discriminate|]. auto.
Qed.

(** The keys of the command table are upper case: a command that has an
    entry is its own upper-case form. *)
Lemma lookup_commands_upper command cmd :
  lookup commands command = Some cmd -> Strings.ToUpper command = command.
Proof.
  unfold commands, lookup.
  repeat match goal with
  | |- context [String.eqb ?k command] =>
      destruct (String.eqb_spec k command) as [<-|_]; [intros _; reflexivity|]
  end.
  discriminate.
Qed.

(** The shape of a parsed line. *)
Lemma parseLine_shape (line command param : string) :
  parseLine line = (command, param) ->
  exists pre rest post,
    line = pre ++ (command ++ rest) ++ post
    /\ allBytes (Strings.inCutset CRLF) pre = true
    /\ allBytes (Strings.inCutset CRLF) post = true
    /\ trimmed (Strings.inCutset CRLF) (command ++ rest)
    /\ hasByte " " command = false
    /\ ((rest = "" /\ param = "")
        \/ exists r, rest = String " " r /\ param = Strings.TrimSpace r)
    /\ trimmed Strings.isSpace param
    /\ (forall cmd, lookup commands command = Some cmd ->
                    Strings.ToUpper command = command).
Proof.
  unfold parseLine. fold CRLF. unfold Strings.Trim, Strings.SplitN2.
  destruct (trimASCII_spec (Strings.inCutset CRLF) line) as (pre & post & E & Hpre & Hpost & Ht).
  set (t := Strings.trimLeftASCII (Strings.inCutset CRLF)
              (Strings.trimRightASCII (Strings.inCutset CRLF) line)) in *.
  destruct (Strings.Cut t " ") as [[a b]|] eqn:Ecut.
  - intros H. inversion H; subst command param. clear H.
    apply Cut_Some in Ecut as [Et Ha].
    exists pre, (String " " b), post. rewrite <- Et.
    repeat split; try assumption; try (apply Ht).
    + right. eauto.
    + apply (TrimSpace_trimmed b).
    + apply (TrimSpace_trimmed b).
    + apply lookup_commands_upper.
  - intros H. inversion H; subst command param. clear H.
    apply Cut_None in Ecut.
    exists pre, "", post. rewrite append_empty_r.
    repeat split; try assumption; try (apply Ht); try discriminate.
    + left. auto.
    + apply lookup_commands_upper.
Qed.

(** ** The engine and its handlers *)

Section EngineFacts.

Context {D : Type} {driver : FTPDriver D}.
Variable env : Env.

(** Running the primitives of the handler monad. *)

Lemma bind_run {A B : Type} (m : M D A) (k : A -> M D B) w a w1 :
  m w = (Ret a, w1) -> bind m k w = k a w1.
Proof. intros H. unfold bind. rewrite H. reflexivity. Qed.

(** [run H]: take the first step of a sequence, given what it returns. *)
Tactic Notation "run" uconstr(H) := rewrite (bind_run _ _ _ _ _ H).

Lemma io_run ev (w : world D) :
  io env ev w = (Ret (ioError env (wTrace w ++ [ev])), extend w [ev]).
Proof. reflexivity. Qed.

Lemma emit_run ev (w : world D) : emit ev w = (Ret tt, extend w [ev]).
Proof. reflexivity. Qed.

Lemma getConn_run (w : world D) : getConn w = (Ret (wConn w), w).
Proof. reflexivity. Qed.

Lemma withDefer_Ret {A B : Type} (deferred : M D B) (body : M D A) w a w1 b w2 :
  body w = (Ret a, w1) -> deferred w1 = (Ret b, w2) ->
  withDefer deferred body w = (Ret a, w2).
Proof. intros H1 H2. unfold withDefer. rewrite H1, H2. reflexivity. Qed.

Lemma withDefer_Panic {A B : Type} (deferred : M D B) (body : M D A) w msg w1 b w2 :
  body w = (Panic msg, w1) -> deferred w1 = (Ret b, w2) ->
  withDefer deferred body w = (Panic msg, w2).
Proof. intros H1 H2. unfold withDefer. rewrite H1, H2. reflexivity. Qed.

Lemma callDriver_run {R : Type} call (op : D -> R * D) (w : world D) :
  callDriver call op w
  = (Ret (fst (op (wDriver w))),
     mkWorld (wConn w) (snd (op (wDriver w))) (wTrace w ++ [EvDriver call])).
Proof. unfold callDriver. destruct (op (wDriver w)). reflexivity. Qed.

Lemma newEvents_app (before evs : list event) :
  newEvents before (before ++ evs) = evs.
Proof.
  unfold newEvents. induction before as [|e rest IH]; [reflexivity|exact IH].
Qed.

Lemma writeMessage_run code message (w : world D) :
  exists n,
    writeMessage env code message w
    = (Ret (n, ioError env (wTrace w ++ [EvWrite code message])),
       extend w [EvWrite code message]).
Proof.
  unfold writeMessage, io, bind, emit, getTrace, ret, extend. simpl.
  destruct (ioError env _); eauto.
Qed.

Lemma reply_run code message (w : world D) :
  reply env code message w
  = (Ret (ioError env (wTrace w ++ [EvWrite code message])),
     extend w [EvWrite code message]).
Proof.
  unfold reply, bind.
  destruct (writeMessage_run code message w) as [n ->]. reflexivity.
Qed.

Lemma extend_extend (w : world D) evs1 evs2 :
  extend (extend w evs1) evs2 = extend w (evs1 ++ evs2).
Proof. unfold extend. simpl. rewrite <- app_assoc. reflexivity. Qed.

(** C1, amended: for every command whose table entry requires
    authentication, a line dispatched on a session whose [user] is empty
    produces exactly one reply, invokes no driver operation and leaves
    the session record and the driver unchanged; the reply is 530, unless
    the command also requires a parameter and the parameter is empty, in
    which case the parameter gate answers first, with 553. *)
Theorem receiveLine_auth_gate (w : world D) line command param cmd :
  parseLine line = (command, param) ->
  lookup commands command = Some cmd ->
  RequireAuth cmd = true ->
  user (wConn w) = "" ->
  let code := if RequireParam cmd && (param =? "")%string then 553 else 530 in
  exists message w',
    receiveLine env line w = (Ret (ioError env (wTrace w')), w')
    /\ w' = extend w [EvWrite code message]
    /\ existsb isDriverCall (newEvents (wTrace w) (wTrace w')) = false
    /\ wConn w' = wConn w
    /\ wDriver w' = wDriver w.
Proof.
  intros Hparse Hcmd Hauth Huser code. subst code.
  assert (Hdone : forall code message,
            exists w',
              reply env code message w = (Ret (ioError env (wTrace w')), w')
              /\ w' = extend w [EvWrite code message]
              /\ existsb isDriverCall (newEvents (wTrace w) (wTrace w')) = false
              /\ wConn w' = wConn w
              /\ wDriver w' = wDriver w).
  { intros code message. exists (extend w [EvWrite code message]).
    split; [apply reply_run|].
    split; [reflexivity|]. split; [|split; reflexivity].
    unfold extend. cbn [wTrace]. rewrite newEvents_app. reflexivity. }
  unfold receiveLine. rewrite Hparse, Hcmd.
  destruct (RequireParam cmd && (param =? "")%string).
  - eexists. apply Hdone.
  - run (getConn_run w). rewrite Hauth, Huser.
    cbn [andb String.eqb]. eexists. apply Hdone.
Qed.

(** C10: a [USER] line with a non-empty parameter, in any session state,
    sets [reqUser] to the parameter and replies 331; every other field of
    the session, [user] in particular, and the driver are unchanged. *)
Theorem receiveLine_USER (w : world D) line param :
  parseLine line = ("USER", param) ->
  param <> "" ->
  exists err w',
    receiveLine env line w = (Ret err, w')
    /\ wConn w' = set_reqUser param (wConn w)
    /\ reqUser (wConn w') = param
    /\ user (wConn w') = user (wConn w)
    /\ wDriver w' = wDriver w
    /\ wTrace w' = (wTrace w ++ [EvWrite 331 "User name ok, password required"])%list.
Proof.
  intros Hparse Hne. unfold receiveLine. rewrite Hparse.
  change (lookup commands "USER") with (Some commandUser).
  apply String.eqb_neq in Hne. cbn [RequireParam RequireAuth]. rewrite Hne.
  cbn [andb]. unfold bind at 1. unfold getConn. cbv beta iota.
  cbn [Execute]. unfold commandUser_Execute, bind, modifyConn.
  rewrite reply_run. do 2 eexists. split; [reflexivity|]. simpl. auto.
Qed.

(** C6, amended: [parseLine] strips the CR and LF bytes at both ends of the
    line, splits what is left at its first space into a command token and
    a rest, returns the command token as it was typed (no case conversion)
    and the rest trimmed of white space by [strings.TrimSpace] (the white
    space of Unicode), the parameter being empty when there is no space.  The command table is looked up with that token as
    it is, and only tokens that are their own upper-case form have an
    entry. *)
Theorem parseLine_spec (w : world D) (line command param : string) :
  parseLine line = (command, param) ->
  (exists pre rest post,
     line = pre ++ (command ++ rest) ++ post
     /\ allBytes (Strings.inCutset CRLF) pre = true
     /\ allBytes (Strings.inCutset CRLF) post = true
     /\ trimmed (Strings.inCutset CRLF) (command ++ rest)
     /\ hasByte " " command = false
     /\ ((rest = "" /\ param = "")
         \/ exists r, rest = String " " r /\ param = Strings.TrimSpace r)
     /\ trimmed Strings.isSpace param)
  /\ (forall cmd, lookup commands command = Some cmd ->
                  Strings.ToUpper command = command)
  /\ (Strings.ToUpper command <> command ->
      receiveLine env line w
      = (Ret (ioError env (wTrace w ++ [EvWrite 500 "Command not found"])),
         extend w [EvWrite 500 "Command not found"])).
Proof.
  intros Hparse. split; [|split].
  - destruct (parseLine_shape line command param Hparse)
      as (pre & rest & post & H1 & H2 & H3 & H4 & H5 & H6 & H7 & _).
    exists pre, rest, post. auto 10.
  - apply lookup_commands_upper.
  - intros Hlow. unfold receiveLine. rewrite Hparse.
    destruct (lookup commands command) as [cmd|] eqn:E.
    + exfalso. apply Hlow. eapply lookup_commands_upper. exact E.
    + apply reply_run.
Qed.

Lemma Close_run (w : world D) :
  exists err,
    Close env w
    = (Ret err, extend w (EvCloseControl :: closeDataEvents (wConn w))).
Proof.
  unfold Close, io, bind, emit, getTrace, getConn, ret, extend, closeDataEvents.
  simpl. destruct (dataConn (wConn w)); simpl.
  - rewrite <- app_assoc. eauto.
  - eauto.
Qed.

(** C3: [PASS] asks the driver once.  When the driver answers true
    without error, [user] becomes the former [reqUser], [reqUser] is
    cleared and 230 is written.  Otherwise 530 is written, then 221, then
    the connection is closed (the control connection and the data socket,
    if any), and the session record, [user] included, is unchanged. *)
Theorem commandPass_Execute_spec (w : world D) param ok err d' :
  Authenticate (reqUser (wConn w)) param (remoteIP env) (wDriver w) = ((ok, err), d') ->
  let call := EvDriver (CallAuthenticate (reqUser (wConn w)) param (remoteIP env)) in
  exists result w',
    commandPass_Execute env param w = (Ret result, w')
    /\ wDriver w' = d'
    /\ if ok && match err with None => true | Some _ => false end
       then wConn w' = set_reqUser "" (set_user (reqUser (wConn w)) (wConn w))
            /\ user (wConn w') = reqUser (wConn w)
            /\ reqUser (wConn w') = ""
            /\ wTrace w' = (wTrace w ++ [call; EvWrite 230 "Password ok, continue"])%list
       else wConn w' = wConn w
            /\ (user (wConn w) = "" -> user (wConn w') = "")
            /\ wTrace w'
               = (wTrace w
                  ++ [call; EvWrite 530 "Incorrect password, not logged in";
                      EvWrite 221 "Goodbye."; EvCloseControl]
                  ++ closeDataEvents (wConn w))%list.
Proof.
  intros HA call. subst call.
  unfold commandPass_Execute.
  unfold bind at 1. unfold getConn. cbv beta iota.
  unfold bind at 1. unfold callDriver. rewrite HA. cbv beta iota zeta.
  set (w1 := mkWorld (wConn w) d' _).
  assert (Hfail :
    exists result w',
      (r1 <- writeMessage env 530 "Incorrect password, not logged in" ;;
       (let errs := appendIfError None (snd r1) in
        r2 <- writeMessage env 221 "Goodbye." ;;
        (let errs0 := appendIfError errs (snd r2) in
         e3 <- Close env ;; ret (appendIfError errs0 e3))))%go w1 = (Ret result, w')
      /\ wDriver w' = d' /\ wConn w' = wConn w
      /\ (user (wConn w) = "" -> user (wConn w') = "")
      /\ wTrace w'
         = (wTrace w
            ++ [EvDriver (CallAuthenticate (reqUser (wConn w)) param (remoteIP env));
                EvWrite 530 "Incorrect password, not logged in";
                EvWrite 221 "Goodbye."; EvCloseControl]
            ++ closeDataEvents (wConn w))%list).
  { unfold bind at 1.
    destruct (writeMessage_run 530 "Incorrect password, not logged in" w1) as [n1 ->].
    cbv beta iota zeta. unfold bind at 1.
    destruct (writeMessage_run 221 "Goodbye." (extend w1 [EvWrite 530 "Incorrect password, not logged in"]))
      as [n2 ->].
    cbv beta iota zeta. unfold bind at 1.
    destruct (Close_run (extend (extend w1 [EvWrite 530 "Incorrect password, not logged in"])
                                [EvWrite 221 "Goodbye."])) as [e3 ->].
    unfold ret. do 2 eexists. split; [reflexivity|].
    subst w1. unfold extend. simpl. repeat split; auto.
    rewrite <- !app_assoc. reflexivity. }
  destruct ok, err as [e|]; cbn [andb].
  - destruct Hfail as (result & w' & H1 & H2 & H3 & H4 & H5). eauto 10.
  - unfold bind at 1. unfold modifyConn. cbv beta iota.
    rewrite reply_run. do 2 eexists. split; [reflexivity|].
    subst w1. unfold extend. simpl. rewrite <- app_assoc. auto.
  - destruct Hfail as (result & w' & H1 & H2 & H3 & H4 & H5). eauto 10.
  - destruct Hfail as (result & w' & H1 & H2 & H3 & H4 & H5). eauto 10.
Qed.

Lemma closePreviousDataConn_run (w : world D) :
  closePreviousDataConn env w
  = (Ret tt, mkWorld (set_dataConn None (wConn w)) (wDriver w)
                     (wTrace w ++ closeDataEvents (wConn w))).
Proof.
  unfold closePreviousDataConn, closeDataEvents, bind, getConn, io, emit, getTrace,
    modifyConn, ret.
  destruct w as [c d t]. destruct c as [dc sn np ru u rf mi ma ip]. simpl.
  destruct dc; simpl; [reflexivity|]. rewrite app_nil_r. reflexivity.
Qed.

Lemma newPassiveSocket_run (w : world D) P :
  passivePort env (passiveHistory env w) = Some P -> 0 < P < 65536 ->
  newPassiveSocket env w
  = (Ret (Some (ftpPassiveSocket (localIP env) P), None),
     mkWorld (set_dataConn (Some (ftpPassiveSocket (localIP env) P)) (wConn w))
             (wDriver w) (passiveHistory env w)).
Proof.
  intros HP Hrange. unfold passiveHistory in *.
  unfold newPassiveSocket. unfold bind at 1. rewrite closePreviousDataConn_run.
  unfold bind at 1. unfold getConn. cbv beta iota.
  unfold bind at 1. unfold listenPassive, bind, emit, getTrace. cbn [wTrace wConn wDriver].
  cbn [minDataPort maxDataPort set_dataConn].
  rewrite <- app_assoc. rewrite HP.
  unfold uint16. rewrite Z.mod_small by lia.
  replace (0 <? P) with true by (symmetry; apply Z.ltb_lt; lia).
  unfold ret, modifyConn. simpl. reflexivity.
Qed.

Lemma Join_Split s sep : Strings.Join (Strings.Split s sep) (String sep "") = s.
Proof.
  induction s as [|c r IH]; [reflexivity|]. simpl.
  destruct (Ascii.eqb_spec c sep) as [->|Hne].
  - destruct (Strings.Split r sep) as [|h t] eqn:E.
    + exfalso. revert E. clear. destruct r as [|c r]; simpl; [discriminate|].
      destruct (Ascii.eqb c sep); [discriminate|].
      destruct (Strings.Split r sep); discriminate.
    + change (Strings.Join ("" :: h :: t) (String sep ""))
        with (String sep (Strings.Join (h :: t) (String sep ""))).
      rewrite IH. reflexivity.
  - destruct (Strings.Split r sep) as [|h t] eqn:E.
    + exfalso. revert E. clear. destruct r as [|c r]; simpl; [discriminate|].
      destruct (Ascii.eqb c sep); [discriminate|].
      destruct (Strings.Split r sep); discriminate.
    + rewrite <- IH. destruct t; reflexivity.
Qed.

(** C7: when the passive listener binds port [P], the host to announce
    being [pasvAdvertisedIp] if it is not empty and the socket's own host
    otherwise, [PASV] replies 227 with the first four dot-separated
    fields of that host followed by [p1] and [p2] such that
    [P = 256 * p1 + p2] and [0 <= p2 < 256]; for a host of exactly four
    fields, the four quoted fields joined by dots are the host. *)
Theorem commandPasv_quotes_port (w : world D) param P h1 h2 h3 h4 more :
  let c := wConn w in
  let socket := ftpPassiveSocket (localIP env) P in
  let host := if (pasvAdvertisedIp c =? "")%string then Host socket
              else pasvAdvertisedIp c in
  passivePort env (passiveHistory env w) = Some P ->
  0 < P < 65536 ->
  Strings.Split host "." = h1 :: h2 :: h3 :: h4 :: more ->
  exists p1 p2 result w',
    commandPasv_Execute env param w = (Ret result, w')
    /\ P = 256 * p1 + p2 /\ 0 <= p2 < 256 /\ 0 <= p1 < 256
    /\ wTrace w'
       = (passiveHistory env w
          ++ [EvWrite 227 ("Entering Passive Mode (" ++ h1 ++ "," ++ h2 ++ "," ++ h3
                           ++ "," ++ h4 ++ "," ++ Strconv.Itoa p1 ++ ","
                           ++ Strconv.Itoa p2 ++ ")")])%list
    /\ dataConn (wConn w') = Some socket
    /\ Port socket = P
    /\ (more = [] -> h1 ++ "." ++ h2 ++ "." ++ h3 ++ "." ++ h4 = host).
Proof.
  intros c socket host HP Hrange Hquads.
  exists (P / 256), (P mod 256).
  unfold commandPasv_Execute. unfold bind at 1.
  rewrite (newPassiveSocket_run w P HP Hrange). cbv beta iota zeta.
  unfold bind at 1. unfold getConn. cbv beta iota zeta.
  cbn [wConn pasvAdvertisedIp set_dataConn Host Port].
  fold c. change (if (pasvAdvertisedIp c =? "")%string then localIP env
                  else pasvAdvertisedIp c) with host.
  rewrite Hquads. unfold index, nth_error, bind at 1, ret.
  cbv beta iota. unfold bind at 1. cbv beta iota. unfold bind at 1. cbv beta iota.
  unfold bind at 1. cbv beta iota.
  rewrite reply_run.
  assert (Hp2 : uint16 (P - uint16 (P / 256 * 256)) = P mod 256).
  { unfold uint16. pose proof (Z.div_mod P 256 ltac:(lia)) as Hdm.
    pose proof (Z.mod_pos_bound P 256 ltac:(lia)) as Hb.
    assert (0 <= P / 256) by (apply Z.div_pos; lia).
    rewrite (Z.mod_small (P / 256 * 256)) by lia.
    rewrite Z.mod_small by lia. lia. }
  rewrite Hp2.
  do 2 eexists. split; [reflexivity|].
  pose proof (Z.div_mod P 256 ltac:(lia)) as Hdm.
  pose proof (Z.mod_pos_bound P 256 ltac:(lia)) as Hb.
  assert (0 <= P / 256 < 256) by (split; [apply Z.div_pos; lia|apply Z.div_lt_upper_bound; lia]).
  split; [exact Hdm|]. split; [exact Hb|]. split; [assumption|].
  split; [reflexivity|]. split; [reflexivity|]. split; [reflexivity|].
  intros ->. rewrite <- (Join_Split host "."), Hquads. reflexivity.
Qed.

Lemma sendOutOfBandReader_nil (w : world D) data :
  dataConn (wConn w) = None ->
  exists msg, sendOutOfBandReader env data w = (Panic msg, w).
Proof.
  intros H. unfold sendOutOfBandReader, bind, getConn. rewrite H. eexists. reflexivity.
Qed.

(** The events of [sendOutOfBandReader]: the copy, the reply, and last
    the deferred close of the data socket. *)
Lemma sendOutOfBandReader_events (w : world D) data socket :
  dataConn (wConn w) = Some socket ->
  exists result mid,
    sendOutOfBandReader env data w
    = (Ret result, extend w (EvCopy socket data :: mid ++ [EvCloseData socket]))
    /\ (mid = [EvWrite 550 "Action not taken"]
        \/ mid = [EvWrite 226 "Transfer complete."]
        \/ mid = [EvWrite 226 "Transfer complete."; EvSleep 10]).
Proof.
  intros H. unfold sendOutOfBandReader.
  run (getConn_run w). rewrite H.
  set (w1 := extend w [EvCopy socket data]).
  destruct (ioError env (wTrace w ++ [EvCopy socket data])) as [e|] eqn:Ecopy.
  - destruct (writeMessage_run 550 "Action not taken" w1) as [n Hw].
    eexists. exists [EvWrite 550 "Action not taken"]. split; [|left; reflexivity].
    eapply withDefer_Ret.
    + run (io_run _ w). rewrite Ecopy. cbv zeta.
      fold w1. run Hw. reflexivity.
    + rewrite io_run. subst w1. rewrite !extend_extend. reflexivity.
  - destruct (writeMessage_run 226 "Transfer complete." w1) as [n Hw].
    destruct (ioError env (wTrace w1 ++ [EvWrite 226 "Transfer complete."]))
      as [e|] eqn:Ereply.
    + eexists. exists [EvWrite 226 "Transfer complete."]. split; [|right; left; reflexivity].
      eapply withDefer_Ret.
      * run (io_run _ w). rewrite Ecopy.
        fold w1. run Hw. cbn [snd]. reflexivity.
      * rewrite io_run. subst w1. rewrite !extend_extend. reflexivity.
    + eexists. exists [EvWrite 226 "Transfer complete."; EvSleep 10].
      split; [|right; right; reflexivity].
      eapply withDefer_Ret.
      * run (io_run _ w). rewrite Ecopy.
        fold w1. run Hw. cbn [snd].
        run (emit_run _ _). reflexivity.
      * rewrite io_run. subst w1. rewrite !extend_extend. reflexivity.
Qed.

Lemma replyBeforeClose_quiet_prefix pre evs :
  quiet pre = true -> replyBeforeClose (pre ++ evs) = replyBeforeClose evs.
Proof.
  induction pre as [|ev rest IH]; intros H; [reflexivity|].
  simpl in H. apply andb_true_iff in H as [H1 H2].
  apply andb_true_iff in H1 as [Ha Hb]. apply negb_true_iff in Ha, Hb.
  simpl. rewrite Ha, Hb. simpl. apply IH; assumption.
Qed.

Lemma existsb_quiet_suffix (f : event -> bool) evs post :
  existsb f post = false -> existsb f (evs ++ post) = existsb f evs.
Proof. intros H. rewrite existsb_app, H. apply orb_false_r. Qed.

Lemma quiet_no226 evs : quiet evs = true -> existsb is226 evs = false.
Proof.
  induction evs as [|ev rest IH]; intros H; [reflexivity|].
  simpl in H. apply andb_true_iff in H as [H1 H2].
  apply andb_true_iff in H1 as [Ha Hb]. apply negb_true_iff in Ha.
  simpl. rewrite Ha. apply IH; assumption.
Qed.

Lemma quiet_noClose evs : quiet evs = true -> existsb isCloseData evs = false.
Proof.
  induction evs as [|ev rest IH]; intros H; [reflexivity|].
  simpl in H. apply andb_true_iff in H as [H1 H2].
  apply andb_true_iff in H1 as [Ha Hb]. apply negb_true_iff in Hb.
  simpl. rewrite Hb. apply IH; assumption.
Qed.

Lemma replyBeforeClose_quiet_suffix evs post :
  quiet post = true -> replyBeforeClose (evs ++ post) = replyBeforeClose evs.
Proof.
  intros H. induction evs as [|ev rest IH].
  - simpl. rewrite <- (app_nil_r post). rewrite replyBeforeClose_quiet_prefix by assumption.
    reflexivity.
  - simpl. rewrite IH.
    rewrite (existsb_quiet_suffix isCloseData) by (apply quiet_noClose; assumption).
    rewrite (existsb_quiet_suffix is226) by (apply quiet_no226; assumption).
    reflexivity.
Qed.

(** Whatever [sendOutOfBandReader] adds to the trace respects the order. *)
Lemma sendOutOfBandReader_order (w : world D) data :
  exists evs,
    wTrace (snd (sendOutOfBandReader env data w)) = (wTrace w ++ evs)%list
    /\ replyBeforeClose evs = true.
Proof.
  destruct (dataConn (wConn w)) as [socket|] eqn:E.
  - destruct (sendOutOfBandReader_events w data socket E) as (result & mid & -> & Hmid).
    eexists. split; [reflexivity|].
    destruct Hmid as [->|[->| ->]]; reflexivity.
  - destruct (sendOutOfBandReader_nil w data E) as [msg ->].
    exists []. split; [symmetry; apply app_nil_r|reflexivity].
Qed.

(** The same, after a quiet prefix [pre] already observed. *)
Lemma sendOutOfBandReader_after (w w1 : world D) data pre :
  wTrace w1 = (wTrace w ++ pre)%list -> quiet pre = true ->
  exists evs,
    wTrace (snd (sendOutOfBandReader env data w1)) = (wTrace w ++ evs)%list
    /\ replyBeforeClose evs = true.
Proof.
  intros Ht Hq. destruct (sendOutOfBandReader_order w1 data) as (evs & -> & Hevs).
  exists (pre ++ evs)%list. split.
  - rewrite Ht, app_assoc. reflexivity.
  - rewrite replyBeforeClose_quiet_prefix; assumption.
Qed.

Lemma commandList_order (w : world D) param :
  exists evs,
    wTrace (snd (commandList_Execute env param w)) = (wTrace w ++ evs)%list
    /\ replyBeforeClose evs = true.
Proof.
  unfold commandList_Execute.
  destruct (writeMessage_run 150 "Opening ASCII mode data connection for file list" w)
    as [n Hw].
  run Hw. cbn [snd].
  destruct (ioError env _) as [e|].
  - eexists. split; reflexivity.
  - cbv zeta. run (getConn_run _).
    run (callDriver_run _ _ _).
    destruct (fst (DirContents _ _)) as [files [err|]].
    + eexists. split; [unfold ret; cbn; rewrite <- app_assoc; reflexivity|reflexivity].
    + unfold sendOutOfBandData. eapply sendOutOfBandReader_after.
      * cbn. rewrite <- app_assoc. reflexivity.
      * reflexivity.
Qed.

Lemma commandNlst_order (w : world D) param :
  exists evs,
    wTrace (snd (commandNlst_Execute env param w)) = (wTrace w ++ evs)%list
    /\ replyBeforeClose evs = true.
Proof.
  unfold commandNlst_Execute.
  destruct (writeMessage_run 150 "Opening ASCII mode data connection for file list" w)
    as [n Hw].
  run Hw. cbn [snd].
  destruct (ioError env _) as [e|].
  - eexists. split; reflexivity.
  - cbv zeta. run (getConn_run _).
    run (callDriver_run _ _ _).
    destruct (fst (DirContents _ _)) as [files [err|]].
    + eexists. split; [unfold ret; cbn; rewrite <- app_assoc; reflexivity|reflexivity].
    + unfold sendOutOfBandData. eapply sendOutOfBandReader_after.
      * cbn. rewrite <- app_assoc. reflexivity.
      * reflexivity.
Qed.

Lemma commandRetr_order (w : world D) param :
  exists evs,
    wTrace (snd (commandRetr_Execute env param w)) = (wTrace w ++ evs)%list
    /\ replyBeforeClose evs = true.
Proof.
  unfold commandRetr_Execute.
  run (getConn_run _). cbv zeta.
  run (callDriver_run _ _ _).
  set (path := buildPath (wConn w) param).
  set (w1 := mkWorld (wConn w) _ _).
  destruct (fst (GetFile path (wDriver w))) as [[reader|] [err|]].
  - destruct (writeMessage_run 551 "File not available" w1) as [n Hw].
    run Hw. eexists.
    split; [unfold ret; cbn; rewrite <- app_assoc; reflexivity|reflexivity].
  - destruct (writeMessage_run 150 "Data connection open. Transfer starting." w1)
      as [n Hw].
    set (w2 := extend w1 [EvWrite 150 "Data connection open. Transfer starting."]) in *.
    destruct (ioError env _) as [e|].
    + erewrite withDefer_Ret;
        [|run Hw; reflexivity|apply emit_run].
      eexists. split; [cbn; rewrite <- !app_assoc; reflexivity|reflexivity].
    + destruct (dataConn (wConn w)) as [socket|] eqn:E.
      * destruct (sendOutOfBandReader_events w2 reader socket E)
          as (result & mid & Hs & Hmid).
        erewrite withDefer_Ret;
          [|run Hw; cbn [snd]; exact Hs|apply emit_run].
        eexists. split; [cbn; rewrite <- !app_assoc; reflexivity|].
        destruct Hmid as [->|[->| ->]]; reflexivity.
      * destruct (sendOutOfBandReader_nil w2 reader E) as [msg Hs].
        erewrite withDefer_Panic;
          [|run Hw; cbn [snd]; exact Hs|apply emit_run].
        eexists. split; [cbn; rewrite <- !app_assoc; reflexivity|reflexivity].
  - destruct (writeMessage_run 551 "File not available" w1) as [n Hw].
    run Hw. eexists.
    split; [unfold ret; cbn; rewrite <- app_assoc; reflexivity|reflexivity].
  - eexists. split; [cbn; reflexivity|reflexivity].
Qed.

(** C5, amended: among the events of a [RETR], [LIST] or [NLST] handler,
    every write of 226 comes before the close of the data socket: no
    close of the data socket precedes it and one follows it, the close
    being deferred to the return of [sendOutOfBandReader]. *)
Theorem transfer_reply_before_close (w : world D) cmd param :
  cmd = commandRetr \/ cmd = commandList \/ cmd = commandNlst ->
  replyBeforeClose (newEvents (wTrace w) (wTrace (snd (Execute env cmd param w)))) = true.
Proof.
  intros [->|[->| ->]]; cbn [Execute].
  - destruct (commandRetr_order w param) as (evs & -> & H).
    rewrite newEvents_app. exact H.
  - destruct (commandList_order w param) as (evs & -> & H).
    rewrite newEvents_app. exact H.
  - destruct (commandNlst_order w param) as (evs & -> & H).
    rewrite newEvents_app. exact H.
Qed.

(** [RNTO] never writes the session record: in particular the pending
    rename source survives it. *)
Lemma commandRnto_Execute_frame (w : world D) param :
  wConn (snd (commandRnto_Execute env param w)) = wConn w.
Proof.
  unfold commandRnto_Execute.
  run (getConn_run _).
  destruct (renameFrom (wConn w) =? "")%string.
  - rewrite reply_run. reflexivity.
  - cbv zeta. run (callDriver_run _ _ _).
    destruct (fst (Rename _ _ _)) as [[|] [err|]];
      try rewrite reply_run; reflexivity.
Qed.


(** An [EPRT] parameter with a numeric protocol field and nothing after
    it indexes the split parameter out of range. *)
Lemma commandEprt_Execute_short (w : world D) :
  commandEprt_Execute env "|1" w = (Panic "index out of range", w).
Proof. reflexivity. Qed.

End EngineFacts.

(** ** Passive port selection *)

(** With at least two ports between the bounds the draw lands in
    [[min, max - 1)]. *)
Lemma randomPort_in_range (draw min max : Z) :
  0 <= min -> min + 1 < max -> max < 65536 ->
  exists r, randomPort draw min max = Ret (min + r) /\ 0 <= r < max - min - 1.
Proof.
  intros Hmin Hlt Hmax. unfold randomPort, Intn, uint16.
  replace ((min =? 0) && (max =? 0)) with false
    by (symmetry; apply andb_false_iff; right; apply Z.eqb_neq; lia).
  rewrite (Z.mod_small (max - min - 1)) by lia.
  replace (max - min - 1 <=? 0) with false by (symmetry; apply Z.leb_gt; lia).
  pose proof (Z.mod_pos_bound draw (max - min - 1) ltac:(lia)) as Hb.
  exists (draw mod (max - min - 1)). split; [|exact Hb].
  rewrite Z.mod_small by lia. reflexivity.
Qed.

(** Adjacent bounds make [rand.Intn] panic on a zero argument. *)
Lemma randomPort_adjacent (draw min : Z) :
  0 <= min < 65535 -> randomPort draw min (min + 1) = Panic "invalid argument to Intn".
Proof.
  intros H. unfold randomPort, Intn, uint16.
  replace ((min =? 0) && (min + 1 =? 0)) with false
    by (symmetry; apply andb_false_iff; right; apply Z.eqb_neq; lia).
  replace (min + 1 - min - 1) with 0 by lia. reflexivity.
Qed.

(** Equal non-zero bounds wrap the argument of [rand.Intn] around to 65535,
    so the result can be any port at all. *)
Example randomPort_equal_bounds : randomPort 70000 5 5 = Ret 4470.
Proof. reflexivity. Qed.

Example randomPort_example_range : randomPort 7 60200 60300 = Ret 60207.
Proof. reflexivity. Qed.

(** ** The claims at concrete sessions *)

(** A run of the authentication gate: [PWD] on a fresh session. *)
Lemma receiveLine_auth_gate_witness :
  parseLine ("PWD" ++ CRLF) = ("PWD", "")
  /\ lookup commands "PWD" = Some commandPwd
  /\ RequireAuth commandPwd = true
  /\ user (wConn freshWorld) = ""
  /\ exists message w',
       receiveLine sampleEnv ("PWD" ++ CRLF) freshWorld
       = (Ret (ioError sampleEnv (wTrace w')), w')
       /\ w' = extend freshWorld [EvWrite 530 message]
       /\ existsb isDriverCall (newEvents (wTrace freshWorld) (wTrace w')) = false
       /\ wConn w' = wConn freshWorld
       /\ wDriver w' = wDriver freshWorld.
Proof.
  split; [reflexivity|]. split; [reflexivity|]. split; [reflexivity|].
  split; [reflexivity|].
  exact (receiveLine_auth_gate sampleEnv freshWorld ("PWD" ++ CRLF) "PWD" "" commandPwd
           eq_refl eq_refl eq_refl eq_refl).
Defined.

(** C1 as stated fails: [CWD] requires authentication, yet on a fresh
    session a [CWD] without parameter is answered 553, not 530, because
    the parameter gate of [receiveLine] comes first. *)
Lemma auth_gate_param_first :
  lookup commands "CWD" = Some commandCwd
  /\ RequireAuth commandCwd = true
  /\ user (wConn freshWorld) = ""
  /\ receiveLine sampleEnv ("CWD" ++ CRLF) freshWorld
     = (Ret None,
        extend freshWorld [EvWrite 553 "action aborted, required param missing"])
  /\ forall message,
       ~ In (EvWrite 530 message)
            (wTrace (snd (receiveLine sampleEnv ("CWD" ++ CRLF) freshWorld))).
Proof.
  split; [reflexivity|]. split; [reflexivity|]. split; [reflexivity|].
  split; [reflexivity|].
  intros message [H|[]]. discriminate H.
Qed.

(** A run of the path builder below [/home]. *)
Lemma buildPath_canonical_witness :
  canonicalAbs (namePrefix (set_namePrefix "/home" freshConn)) = true
  /\ Strings.HasPrefix (buildPath (set_namePrefix "/home" freshConn) "../x/./y//z/..") "/" = true
  /\ noDotElems (buildPath (set_namePrefix "/home" freshConn) "../x/./y//z/..")
  /\ buildPath (set_namePrefix "/" (set_namePrefix "/home" freshConn))
               (buildPath (set_namePrefix "/home" freshConn) "../x/./y//z/..")
     = buildPath (set_namePrefix "/home" freshConn) "../x/./y//z/.."
  /\ buildPath (set_namePrefix "/home" (set_namePrefix "/home" freshConn))
               "/../../../../etc/passwd"
     = "/etc/passwd".
Proof.
  split; [reflexivity|].
  exact (buildPath_canonical (set_namePrefix "/home" freshConn) "../x/./y//z/.." eq_refl).
Defined.

Example buildPath_relative_run :
  buildPath (set_namePrefix "/home" freshConn) "../x/./y//z/.." = "/x/y".
Proof. reflexivity. Qed.

(** A successful login against the example driver. *)
Lemma commandPass_Execute_spec_witness :
  Authenticate (reqUser (wConn (mkWorld (set_reqUser "test" freshConn) tt [])))
               "1234" (remoteIP sampleEnv) tt
  = ((true, None), tt)
  /\ exists result w',
       commandPass_Execute sampleEnv "1234" (mkWorld (set_reqUser "test" freshConn) tt [])
       = (Ret result, w')
       /\ wDriver w' = tt
       /\ wConn w' = set_reqUser "" (set_user "test" (set_reqUser "test" freshConn))
       /\ user (wConn w') = "test"
       /\ reqUser (wConn w') = ""
       /\ wTrace w' = [EvDriver (CallAuthenticate "test" "1234" "192.0.2.7");
                       EvWrite 230 "Password ok, continue"].
Proof.
  split; [reflexivity|].
  exact (commandPass_Execute_spec sampleEnv (mkWorld (set_reqUser "test" freshConn) tt [])
           "1234" true None tt eq_refl).
Defined.

(** A failed login: 530, 221, and the control connection closed. *)
Example commandPass_wrong_password :
  commandPass_Execute sampleEnv "0000" (mkWorld (set_reqUser "test" freshConn) tt [])
  = (Ret None,
     mkWorld (set_reqUser "test" freshConn) tt
       [EvDriver (CallAuthenticate "test" "0000" "192.0.2.7");
        EvWrite 530 "Incorrect password, not logged in";
        EvWrite 221 "Goodbye."; EvCloseControl]).
Proof. reflexivity. Qed.



(** A download over a passive socket, for the order of its events. *)
Lemma transfer_reply_before_close_witness :
  (commandRetr = commandRetr \/ commandRetr = commandList \/ commandRetr = commandNlst)
  /\ replyBeforeClose
       (newEvents (wTrace transferWorld)
          (wTrace (snd (Execute sampleEnv commandRetr "/one.txt" transferWorld))))
     = true.
Proof.
  split; [left; reflexivity|].
  exact (transfer_reply_before_close sampleEnv transferWorld commandRetr "/one.txt"
           (or_introl eq_refl)).
Defined.

(** C5 as stated fails: in a download the write of 226 comes before the
    close of the data socket, which is deferred to the return of
    [sendOutOfBandReader]. *)
Lemma retr_reply_precedes_close :
  wTrace (snd (receiveLine sampleEnv ("RETR /one.txt" ++ CRLF) transferWorld))
  = [EvDriver (CallGetFile "/one.txt");
     EvWrite 150 "Data connection open. Transfer starting.";
     EvCopy (ftpPassiveSocket "127.0.0.1" 60201) MemDriver.fileOne;
     EvWrite 226 "Transfer complete.";
     EvSleep 10;
     EvCloseData (ftpPassiveSocket "127.0.0.1" 60201);
     EvCloseReader]
  /\ closeBeforeReply false
       (wTrace (snd (receiveLine sampleEnv ("RETR /one.txt" ++ CRLF) transferWorld)))
     = false.
Proof. split; reflexivity. Qed.

(** An upload closes no data socket at all (the example driver refuses
    the file, hence the 450). *)
Example stor_closes_nothing :
  wTrace (snd (receiveLine sampleEnv ("STOR up.txt" ++ CRLF) transferWorld))
  = [EvWrite 150 "Data transfer starting";
     EvDriver (CallPutFile "/up.txt" (Some (ftpPassiveSocket "127.0.0.1" 60201)));
     EvWrite 450 "error during transfer"].
Proof. reflexivity. Qed.

(** A parsed line: the token stays in lower case and finds no entry. *)
Lemma parseLine_spec_witness :
  parseLine ("retr  one.txt " ++ CRLF) = ("retr", "one.txt")
  /\ (exists pre rest post,
        "retr  one.txt " ++ CRLF = pre ++ ("retr" ++ rest) ++ post
        /\ allBytes (Strings.inCutset CRLF) pre = true
        /\ allBytes (Strings.inCutset CRLF) post = true
        /\ trimmed (Strings.inCutset CRLF) ("retr" ++ rest)
        /\ hasByte " " "retr" = false
        /\ ((rest = "" /\ "one.txt" = "")
            \/ exists r, rest = String " " r /\ "one.txt" = Strings.TrimSpace r)
        /\ trimmed Strings.isSpace "one.txt")
  /\ (forall cmd, lookup commands "retr" = Some cmd -> Strings.ToUpper "retr" = "retr")
  /\ (Strings.ToUpper "retr" <> "retr" ->
      receiveLine sampleEnv ("retr  one.txt " ++ CRLF) loggedInWorld
      = (Ret (ioError sampleEnv (wTrace loggedInWorld ++ [EvWrite 500 "Command not found"])),
         extend loggedInWorld [EvWrite 500 "Command not found"])).
Proof.
  split; [reflexivity|].
  exact (parseLine_spec sampleEnv loggedInWorld ("retr  one.txt " ++ CRLF) "retr" "one.txt"
           eq_refl).
Defined.

(** C6 as stated fails: the command token is not upper-cased, and the
    table has no entry for [noop], so the line is answered 500 where
    [NOOP] is answered 200. *)
Lemma lowercase_command_not_found :
  parseLine ("noop" ++ CRLF) = ("noop", "")
  /\ fst (parseLine ("noop" ++ CRLF)) <> Strings.ToUpper "noop"
  /\ lookup commands "noop" = None
  /\ lookup commands "NOOP" = Some commandNoop
  /\ receiveLine sampleEnv ("noop" ++ CRLF) freshWorld
     = (Ret None, extend freshWorld [EvWrite 500 "Command not found"])
  /\ receiveLine sampleEnv ("NOOP" ++ CRLF) freshWorld
     = (Ret None, extend freshWorld [EvWrite 200 "OK"]).
Proof.
  split; [reflexivity|]. split; [discriminate|]. repeat split.
Qed.

(** The white space that [parseLine] trims off the parameter is that of
    Unicode: a no-break space (U+00A0, the bytes C2 A0) at its end goes,
    as an ASCII space does. *)
Example parseLine_trims_no_break_space :
  parseLine ("USER bob" ++ String "194" (String "160" "") ++ CRLF) = ("USER", "bob")
  /\ parseLine ("USER bob " ++ CRLF) = ("USER", "bob").
Proof. split; reflexivity. Qed.

(** [TYPE] compares the upper-case form of its parameter with [A] and
    [I]: the dotless i (U+0131, the bytes C4 B1) is answered as [I] is. *)
Example commandType_dotless_i :
  receiveLine sampleEnv ("TYPE " ++ String "196" (String "177" "") ++ CRLF) loggedInWorld
  = receiveLine sampleEnv ("TYPE I" ++ CRLF) loggedInWorld
  /\ receiveLine sampleEnv ("TYPE I" ++ CRLF) loggedInWorld
     = (Ret None, extend loggedInWorld [EvWrite 200 "Type set to binary"]).
Proof. split; reflexivity. Qed.

(** [PASV] on the sample session: port 60201 is quoted as 235,41. *)
Lemma commandPasv_quotes_port_witness :
  passivePort sampleEnv (passiveHistory sampleEnv loggedInWorld) = Some 60201
  /\ 0 < 60201 < 65536
  /\ Strings.Split "127.0.0.1" "." = ["127"; "0"; "0"; "1"]
  /\ exists p1 p2 result w',
       commandPasv_Execute sampleEnv "" loggedInWorld = (Ret result, w')
       /\ 60201 = 256 * p1 + p2 /\ 0 <= p2 < 256 /\ 0 <= p1 < 256
       /\ wTrace w'
          = (passiveHistory sampleEnv loggedInWorld
             ++ [EvWrite 227 ("Entering Passive Mode (" ++ "127" ++ "," ++ "0" ++ ","
                              ++ "0" ++ "," ++ "1" ++ "," ++ Strconv.Itoa p1 ++ ","
                              ++ Strconv.Itoa p2 ++ ")")])%list
       /\ dataConn (wConn w') = Some (ftpPassiveSocket "127.0.0.1" 60201)
       /\ Port (ftpPassiveSocket "127.0.0.1" 60201) = 60201
       /\ (@nil string = [] -> "127" ++ "." ++ "0" ++ "." ++ "0" ++ "." ++ "1" = "127.0.0.1").
Proof.
  split; [reflexivity|]. split; [lia|]. split; [reflexivity|].
  exact (commandPasv_quotes_port sampleEnv loggedInWorld "" 60201 "127" "0" "0" "1" []
           eq_refl (conj eq_refl eq_refl) eq_refl).
Defined.

Example commandPasv_run :
  wTrace (snd (commandPasv_Execute sampleEnv "" loggedInWorld))
  = [EvListenPassive "127.0.0.1" 60200 60300;
     EvWrite 227 "Entering Passive Mode (127,0,0,1,235,41)"].
Proof. reflexivity. Qed.

(** C8, evaluated where the code departs from it: for the range [5, 6]
    the argument of [rand.Intn] is [6 - 5 - 1 = 0] and the call panics,
    whatever the generator draws; the computation is not total on
    [min <= max]. *)
Theorem randomPort_not_total :
  forall draw, randomPort draw 5 6 = Panic "invalid argument to Intn".
Proof. intros draw. apply randomPort_adjacent. lia. Qed.

(** C9, evaluated where the code departs from it: the parameter [|1] has
    a numeric protocol field and no host field; the handler indexes past
    the end of the split parameter and panics without a reply.  [Serve]
    recovers the panic by closing the connection, so the [NOOP] that
    follows is never answered. *)
Theorem commandEprt_short_param_panics :
  receiveLine sampleEnv ("EPRT |1" ++ CRLF) loggedInWorld
  = (Panic "index out of range", loggedInWorld)
  /\ Serve sampleEnv ["EPRT |1" ++ CRLF; "NOOP" ++ CRLF] loggedInWorld
     = (Ret None, extend loggedInWorld [EvWrite 220 "graval-mem"; EvCloseControl]).
Proof. split; reflexivity. Qed.

(** For contrast, the sibling [PORT] checks the number of fields first. *)
Example commandPort_short_param :
  receiveLine sampleEnv ("PORT 1,2" ++ CRLF) loggedInWorld
  = (Ret None, extend loggedInWorld [EvWrite 425 "Data connection failed"]).
Proof. reflexivity. Qed.

(** A second [USER] on a logged-in session. *)
Lemma receiveLine_USER_witness :
  parseLine ("USER bob" ++ CRLF) = ("USER", "bob")
  /\ "bob" <> ""
  /\ exists err w',
       receiveLine sampleEnv ("USER bob" ++ CRLF) loggedInWorld = (Ret err, w')
       /\ wConn w' = set_reqUser "bob" (wConn loggedInWorld)
       /\ reqUser (wConn w') = "bob"
       /\ user (wConn w') = user (wConn loggedInWorld)
       /\ wDriver w' = wDriver loggedInWorld
       /\ wTrace w' = (wTrace loggedInWorld
                       ++ [EvWrite 331 "User name ok, password required"])%list.
Proof.
  split; [reflexivity|]. split; [discriminate|].
  exact (receiveLine_USER sampleEnv loggedInWorld ("USER bob" ++ CRLF) "bob"
           eq_refl (fun H => ltac:(discriminate H))).
Defined.

(** ** What a line can change, and how a session ends *)

Section StepRules.
Context {D : Type}.
Variable R : world D -> world D -> Prop.
Hypothesis R_refl : forall w, R w w.
Hypothesis R_trans : forall a b c, R a b -> R b c -> R a c.

Lemma steps_ret {A : Type} (a : A) : steps R (ret a).
Proof. intros w. apply R_refl. Qed.

Lemma steps_panic {A : Type} msg : steps R (@panic D A msg).
Proof. intros w. apply R_refl. Qed.

Lemma steps_hang {A : Type} : steps R (@hang D A).
Proof. intros w. apply R_refl. Qed.

Lemma steps_getConn : steps R (@getConn D).
Proof. intros w. apply R_refl. Qed.

Lemma steps_getTrace : steps R (@getTrace D).
Proof. intros w. apply R_refl. Qed.

Lemma steps_bind {A B : Type} (m : M D A) (k : A -> M D B) :
  steps R m -> (forall a, steps R (k a)) -> steps R (bind m k).
Proof.
  intros Hm Hk w. unfold bind. specialize (Hm w).
  destruct (m w) as [[a|msg|] w1]; cbn [snd] in *; [|assumption|assumption].
  eapply R_trans; [exact Hm|apply Hk].
Qed.

Lemma steps_withDefer {A B : Type} (deferred : M D B) (body : M D A) :
  steps R deferred -> steps R body -> steps R (withDefer deferred body).
Proof.
  intros Hd Hb w. unfold withDefer. specialize (Hb w).
  destruct (body w) as [[a|msg|] w1]; cbn [snd] in *; [| |assumption].
  - specialize (Hd w1). destruct (deferred w1) as [[b|msg|] w2]; cbn [snd] in *;
      eapply R_trans; eassumption.
  - specialize (Hd w1). destruct (deferred w1) as [[b|msg2|] w2]; cbn [snd] in *;
      eapply R_trans; eassumption.
Qed.

Lemma steps_index xs i : steps R (@index D xs i).
Proof. unfold index. destruct (nth_error xs i); [apply steps_ret|apply steps_panic]. Qed.

End StepRules.

Lemma sameField_refl {D B : Type} (f : ftpConn -> B) (w : world D) : sameField f w w.
Proof. reflexivity. Qed.

Lemma sameField_trans {D B : Type} (f : ftpConn -> B) (a b c : world D) :
  sameField f a b -> sameField f b c -> sameField f a c.
Proof. unfold sameField. congruence. Qed.

Lemma adds_refl {D : Type} P (w : world D) : adds P w w.
Proof. exists []. split; [symmetry; apply app_nil_r|reflexivity]. Qed.

Lemma adds_trans {D : Type} P (a b c : world D) : adds P a b -> adds P b c -> adds P a c.
Proof.
  intros (e1 & H1 & F1) (e2 & H2 & F2). exists (e1 ++ e2)%list. split.
  - rewrite H2, H1, app_assoc. reflexivity.
  - rewrite forallb_app, F1, F2. reflexivity.
Qed.

Section KeepsRules.
Context {D : Type} {B : Type}.
Variable f : ftpConn -> B.

Lemma keeps_emit ev : keeps f (@emit D ev).
Proof. intros w. reflexivity. Qed.

Lemma keeps_callDriver {R : Type} call (op : D -> R * D) : keeps f (callDriver call op).
Proof. intros w. unfold callDriver. destruct (op (wDriver w)). reflexivity. Qed.

Lemma keeps_modifyConn (g : ftpConn -> ftpConn) :
  (forall c, f (g c) = f c) -> keeps f (@modifyConn D g).
Proof. intros H w. apply H. Qed.

End KeepsRules.

Section EmitsRules.
Context {D : Type}.
Variable P : event -> bool.

Lemma emits_emit ev : P ev = true -> emits P (@emit D ev).
Proof.
  intros H w. exists [ev]. split; [reflexivity|]. simpl. rewrite H. reflexivity.
Qed.

Lemma emits_callDriver {R : Type} call (op : D -> R * D) :
  P (EvDriver call) = true -> emits P (callDriver call op).
Proof.
  intros H w. unfold callDriver. destruct (op (wDriver w)).
  exists [EvDriver call]. split; [reflexivity|]. simpl. rewrite H. reflexivity.
Qed.

Lemma emits_modifyConn (g : ftpConn -> ftpConn) : emits P (@modifyConn D g).
Proof.
  intros w. exists []. split; [symmetry; apply app_nil_r|reflexivity].
Qed.

End EmitsRules.

(** One step of a proof that a handler keeps a field or emits only
    events of a class: the rule of the construct at the head. *)
Ltac head_of t :=
  match t with
  | ?f _ => head_of f
  | _ => t
  end.

Ltac step_rule :=
  match goal with
  | |- steps _ (ret _) => apply steps_ret
  | |- steps _ (panic _) => apply steps_panic
  | |- steps _ hang => apply steps_hang
  | |- steps _ getConn => apply steps_getConn
  | |- steps _ getTrace => apply steps_getTrace
  | |- steps _ (index _ _) => apply steps_index
  | |- steps _ (bind _ _) => apply steps_bind; [..|intro]
  | |- steps _ (withDefer _ _) => apply steps_withDefer
  | |- steps (sameField _) (emit _) => apply keeps_emit
  | |- steps (sameField _) (callDriver _ _) => apply keeps_callDriver
  | |- steps (sameField _) (modifyConn _) => apply keeps_modifyConn; intro; reflexivity
  | |- steps (adds _) (emit _) => apply emits_emit; reflexivity
  | |- steps (adds _) (callDriver _ _) => apply emits_callDriver; reflexivity
  | |- steps (adds _) (modifyConn _) => apply emits_modifyConn
  | |- steps _ (match ?x with _ => _ end) => destruct x
  | |- forall w : world _, sameField _ w w => apply sameField_refl
  | |- forall a b c : world _, sameField _ a b -> _ => apply sameField_trans
  | |- forall w : world _, adds _ w w => apply adds_refl
  | |- forall a b c : world _, adds _ a b -> _ => apply adds_trans
  | |- steps _ ?m => let h := head_of m in unfold h
  end.

Ltac steps_tac := unfold keeps, emits; repeat (step_rule; cbv zeta).

Section FrameFacts.
Context {D : Type} {driver : FTPDriver D}.
Variable env : Env.

Lemma Execute_keeps_user cmd param :
  cmd <> commandPass -> keeps user (Execute env cmd param).
Proof. intros H1. destruct cmd; try congruence; cbn [Execute]; steps_tac. Qed.

Lemma Execute_keeps_reqUser cmd param :
  cmd <> commandUser -> cmd <> commandPass -> keeps reqUser (Execute env cmd param).
Proof. intros H1 H2. destruct cmd; try congruence; cbn [Execute]; steps_tac. Qed.

Lemma Execute_keeps_namePrefix cmd param :
  cmd <> commandCwd -> cmd <> commandCdup -> keeps namePrefix (Execute env cmd param).
Proof. intros H1 H2. destruct cmd; try congruence; cbn [Execute]; steps_tac. Qed.

Lemma Execute_keeps_renameFrom cmd param :
  cmd <> commandRnfr -> keeps renameFrom (Execute env cmd param).
Proof. intros H1. destruct cmd; try congruence; cbn [Execute]; steps_tac. Qed.

Lemma Execute_keeps_dataConn cmd param :
  cmd <> commandPasv -> cmd <> commandEpsv -> cmd <> commandPort -> cmd <> commandEprt ->
  keeps dataConn (Execute env cmd param).
Proof. intros H1 H2 H3 H4. destruct cmd; try congruence; cbn [Execute]; steps_tac. Qed.

(** The three gates of [receiveLine] write no field; what a line does to
    a field is what the handler of its command does. *)
Lemma receiveLine_steps (R : world D -> world D -> Prop) line :
  (forall w, R w w) -> (forall a b c, R a b -> R b c -> R a c) ->
  (forall code message, steps R (reply env code message)) ->
  (forall cmd, lookup commands (fst (parseLine line)) = Some cmd ->
               steps R (Execute env cmd (snd (parseLine line)))) ->
  steps R (receiveLine env line).
Proof.
  intros Hrefl Htrans Hreply Hcmd. unfold receiveLine.
  destruct (parseLine line) as [command param]. cbn [fst snd] in Hcmd.
  destruct (lookup commands command) as [cmd|]; [|apply Hreply].
  destruct (RequireParam cmd && (param =? "")%string); [apply Hreply|].
  apply steps_bind; [assumption|apply steps_getConn; assumption|intros c].
  destruct (RequireAuth cmd && (user c =? "")%string); [apply Hreply|].
  apply Hcmd. reflexivity.
Qed.

Lemma reply_keeps {B : Type} (f : ftpConn -> B) code message :
  keeps f (reply (D := D) env code message).
Proof. steps_tac. Qed.

Lemma ftpCommand_eq_dec (a b : ftpCommand) : {a = b} + {a <> b}.
Proof. decide equality. Qed.

(** A line changes a field only if its command is one of the field's
    writers. *)
Lemma receiveLine_writer {B : Type} (f : ftpConn -> B) (writers : list ftpCommand)
      line (w : world D) :
  (forall cmd param, ~ In cmd writers -> keeps f (Execute env cmd param)) ->
  f (wConn (snd (receiveLine env line w))) <> f (wConn w) ->
  exists cmd, lookup commands (fst (parseLine line)) = Some cmd /\ In cmd writers.
Proof.
  intros Hkeeps Hne.
  destruct (lookup commands (fst (parseLine line))) as [cmd|] eqn:E.
  - destruct (in_dec ftpCommand_eq_dec cmd writers) as [Hin|Hout]; [eauto|].
    exfalso. apply Hne.
    apply (receiveLine_steps (sameField f));
      [apply sameField_refl|apply sameField_trans|intros; apply reply_keeps|].
    intros cmd0 H0. rewrite E in H0. inversion H0; subst. apply Hkeeps, Hout.
  - exfalso. apply Hne.
    apply (receiveLine_steps (sameField f));
      [apply sameField_refl|apply sameField_trans|intros; apply reply_keeps|].
    intros cmd0 H0. rewrite E in H0. discriminate.
Qed.

Lemma receiveLine_keeps {B : Type} (f : ftpConn -> B) line :
  (forall cmd param, keeps f (Execute env cmd param)) -> keeps f (receiveLine env line).
Proof.
  intros H. apply (receiveLine_steps (sameField f));
    [apply sameField_refl|apply sameField_trans|intros; apply reply_keeps|].
  intros cmd _. apply H.
Qed.

(** X1: Which commands write which field of the session: handling one line
    changes [user] only when the line's command is PASS, [reqUser] only
    for USER and PASS, [namePrefix] only for CWD and CDUP, [renameFrom]
    only for RNFR, and [dataConn] only for PASV, EPSV, PORT and EPRT.  No
    line changes [serverName], the data port range or [pasvAdvertisedIp]. *)
Theorem receiveLine_frame (w : world D) line :
  let c := wConn w in
  let c' := wConn (snd (receiveLine env line w)) in
  let writer (cmds : list ftpCommand) :=
    exists cmd, lookup commands (fst (parseLine line)) = Some cmd /\ In cmd cmds in
  (user c' <> user c -> writer [commandPass])
  /\ (reqUser c' <> reqUser c -> writer [commandUser; commandPass])
  /\ (namePrefix c' <> namePrefix c -> writer [commandCwd; commandCdup])
  /\ (renameFrom c' <> renameFrom c -> writer [commandRnfr])
  /\ (dataConn c' <> dataConn c
      -> writer [commandPasv; commandEpsv; commandPort; commandEprt])
  /\ serverName c' = serverName c
  /\ minDataPort c' = minDataPort c
  /\ maxDataPort c' = maxDataPort c
  /\ pasvAdvertisedIp c' = pasvAdvertisedIp c.
Proof.
  cbv zeta.
  split; [|split; [|split; [|split; [|split; [|split; [|split; [|split]]]]]]].
  - apply receiveLine_writer. intros cmd param H.
    apply Execute_keeps_user. intros ->. apply H. simpl. auto.
  - apply receiveLine_writer. intros cmd param H.
    apply Execute_keeps_reqUser; intros ->; apply H; simpl; auto.
  - apply receiveLine_writer. intros cmd param H.
    apply Execute_keeps_namePrefix; intros ->; apply H; simpl; auto.
  - apply receiveLine_writer. intros cmd param H.
    apply Execute_keeps_renameFrom; intros ->; apply H; simpl; auto.
  - apply receiveLine_writer. intros cmd param H.
    apply Execute_keeps_dataConn; intros ->; apply H; simpl; auto.
  - apply (receiveLine_keeps serverName). intros cmd param.
    destruct cmd; cbn [Execute]; steps_tac.
  - apply (receiveLine_keeps minDataPort). intros cmd param.
    destruct cmd; cbn [Execute]; steps_tac.
  - apply (receiveLine_keeps maxDataPort). intros cmd param.
    destruct cmd; cbn [Execute]; steps_tac.
  - apply (receiveLine_keeps pasvAdvertisedIp). intros cmd param.
    destruct cmd; cbn [Execute]; steps_tac.
Qed.

End FrameFacts.

Section FaultRules.
Context {D : Type}.
Variable bad : fault -> bool.

Lemma avoids_ret {A : Type} (a : A) : avoids bad (@ret D A a).
Proof. intros w. exact I. Qed.

Lemma avoids_panic {A : Type} msg :
  bad (FaultPanic msg) = false -> avoids bad (@panic D A msg).
Proof. intros H w. exact H. Qed.

Lemma avoids_hang {A : Type} : bad FaultHang = false -> avoids bad (@hang D A).
Proof. intros H w. exact H. Qed.

Lemma avoids_getConn : avoids bad (@getConn D).
Proof. intros w. exact I. Qed.

Lemma avoids_getTrace : avoids bad (@getTrace D).
Proof. intros w. exact I. Qed.

Lemma avoids_emit ev : avoids bad (@emit D ev).
Proof. intros w. exact I. Qed.

Lemma avoids_modifyConn g : avoids bad (@modifyConn D g).
Proof. intros w. exact I. Qed.

Lemma avoids_callDriver {R : Type} call (op : D -> R * D) :
  avoids bad (callDriver call op).
Proof. intros w. unfold callDriver. destruct (op (wDriver w)). exact I. Qed.

Lemma avoids_index xs i :
  bad (FaultPanic "index out of range") = false -> avoids bad (@index D xs i).
Proof. intros H w. unfold index. destruct (nth_error xs i); [exact I|exact H]. Qed.

Lemma avoids_index_in xs i :
  (i < List.length xs)%nat -> avoids bad (@index D xs i).
Proof.
  intros H w. unfold index. destruct (nth_error xs i) eqn:E; [exact I|].
  apply nth_error_None in E. lia.
Qed.

Lemma avoids_bind {A B : Type} (m : M D A) (k : A -> M D B) :
  avoids bad m -> (forall a, avoids bad (k a)) -> avoids bad (bind m k).
Proof.
  intros Hm Hk w. unfold bind. specialize (Hm w).
  destruct (m w) as [[a|msg|] w1]; cbn [fst faultOf] in *; [apply Hk|exact Hm|exact Hm].
Qed.

Lemma avoids_withDefer {A B : Type} (deferred : M D B) (body : M D A) :
  avoids bad deferred -> avoids bad body -> avoids bad (withDefer deferred body).
Proof.
  intros Hd Hb w. unfold withDefer. specialize (Hb w).
  destruct (body w) as [[a|msg|] w1]; cbn [fst faultOf] in *; [| |exact Hb].
  - specialize (Hd w1). destruct (deferred w1) as [[b|msg|] w2]; cbn [fst faultOf] in *;
      [exact I|exact Hd|exact Hd].
  - specialize (Hd w1). destruct (deferred w1) as [[b|msg2|] w2]; cbn [fst faultOf] in *;
      [exact Hb|exact Hd|exact Hd].
Qed.

End FaultRules.

Ltac fault_rule :=
  match goal with
  | |- avoids _ (ret _) => apply avoids_ret
  | |- avoids _ (panic _) => apply avoids_panic; reflexivity
  | |- avoids _ hang => apply avoids_hang; reflexivity
  | |- avoids _ getConn => apply avoids_getConn
  | |- avoids _ getTrace => apply avoids_getTrace
  | |- avoids _ (emit _) => apply avoids_emit
  | |- avoids _ (modifyConn _) => apply avoids_modifyConn
  | |- avoids _ (callDriver _ _) => apply avoids_callDriver
  | |- avoids _ (index _ _) =>
      first [apply avoids_index; reflexivity | apply avoids_index_in; lia]
  | |- avoids _ (bind _ _) => apply avoids_bind; [|intro]
  | |- avoids _ (withDefer _ _) => apply avoids_withDefer
  | H : avoids ?bad ?m |- avoids ?bad ?m => exact H
  | H : forall a b c, avoids ?bad (?f a b c) |- avoids ?bad (?f _ _ _) => apply H
  | |- avoids _ (match ?x with _ => _ end) => destruct x
  | |- avoids _ ?m => let h := head_of m in unfold h
  end.

Ltac fault_tac := repeat (fault_rule; cbv zeta).

Section SessionFacts.
Context {D : Type} {driver : FTPDriver D}.
Variable env : Env.

Tactic Notation "run" uconstr(H) := rewrite (bind_run _ _ _ _ _ H).

(** Every handler only appends to the trace. *)
Lemma Execute_emits cmd param : emits anyEvent (Execute (D := D) env cmd param).
Proof. destruct cmd; cbn [Execute]; steps_tac. Qed.

Lemma receiveLine_emits line : emits anyEvent (receiveLine (D := D) env line).
Proof.
  apply (receiveLine_steps env (adds anyEvent));
    [apply adds_refl|apply adds_trans|intros; steps_tac|intros; apply Execute_emits].
Qed.

Lemma readCommands_emits lines : emits anyEvent (readCommands (D := D) env lines).
Proof.
  induction lines as [|line rest IH]; cbn [readCommands]; [steps_tac|].
  apply steps_bind; [apply adds_trans|apply receiveLine_emits|intros _; exact IH].
Qed.

Lemma listenPassive_neverHangs listenIP minPort maxPort :
  listenerBinds env -> avoids isHang (listenPassive (D := D) env listenIP minPort maxPort).
Proof.
  intros Hb w. unfold listenPassive, bind, emit, getTrace. cbn [fst snd wTrace].
  destruct (Hb (wTrace w ++ [EvListenPassive listenIP minPort maxPort])%list)
    as (p & -> & Hp).
  apply Z.ltb_lt in Hp. rewrite Hp. exact I.
Qed.

Lemma Execute_neverHangs cmd param :
  listenerBinds env -> avoids isHang (Execute (D := D) env cmd param).
Proof.
  intros Hb. pose proof (fun a b c => listenPassive_neverHangs a b c Hb) as Hl.
  destruct cmd; cbn [Execute]; fault_tac.
Qed.

Lemma receiveLine_neverHangs line :
  listenerBinds env -> avoids isHang (receiveLine (D := D) env line).
Proof.
  intros Hb. unfold receiveLine.
  destruct (parseLine line) as [command param].
  destruct (lookup commands command) as [cmd|]; [|fault_tac].
  destruct (RequireParam cmd && (param =? "")%string); [fault_tac|].
  apply avoids_bind; [fault_tac|intros c].
  destruct (RequireAuth cmd && (user c =? "")%string); [fault_tac|].
  apply Execute_neverHangs, Hb.
Qed.

Lemma readCommands_neverHangs lines :
  listenerBinds env -> avoids isHang (readCommands (D := D) env lines).
Proof.
  intros Hb. induction lines as [|line rest IH]; cbn [readCommands]; [fault_tac|].
  apply avoids_bind; [apply receiveLine_neverHangs, Hb|intros _; exact IH].
Qed.

(** [Serve] as a function of its read loop: the greeting, the loop
    unless the greeting failed, then the deferred close, which also
    swallows a panic of the loop. *)
Lemma Serve_run lines (w : world D) :
  let greet := EvWrite 220 (serverName (wConn w)) in
  let w0 := extend w [greet] in
  let w1 := match ioError env (wTrace w ++ [greet]) with
            | Some _ => w0
            | None => snd (readCommands env lines w0)
            end in
  (Serve env lines w = (Hang, w1)
   /\ ioError env (wTrace w ++ [greet]) = None
   /\ fst (readCommands env lines w0) = Hang)
  \/ Serve env lines w
     = (Ret (ioError env (wTrace w ++ [greet])),
        extend w1 (EvCloseControl :: closeDataEvents (wConn w1))).
Proof.
  cbv zeta. unfold Serve.
  destruct (writeMessage_run env 220 (serverName (wConn w)) w) as [n Hw].
  run Hw. cbn [snd].
  set (w0 := extend w [EvWrite 220 (serverName (wConn w))]).
  destruct (ioError env (wTrace w ++ [EvWrite 220 (serverName (wConn w))])) as [e|].
  - right. unfold ret. destruct (Close_run env w0) as [err ->]. reflexivity.
  - unfold bind.
    destruct (readCommands env lines w0) as [[u|msg|] w1]; cbn [fst snd].
    + right. unfold ret. destruct (Close_run env w1) as [err ->]. reflexivity.
    + right. destruct (Close_run env w1) as [err ->]. reflexivity.
    + left. auto.
Qed.

(** X2: [Serve] writes the 220 greeting before anything else and never
    panics: a run either does not return, or returns the error of the
    greeting write (nil when the greeting went out, also after a handler's
    panic) with the close of the control connection and of the data
    socket, if there is one, as its last events.  When the greeting write
    fails, nothing else happens before the close. *)
Theorem Serve_outcome lines (w : world D) :
  let greet := EvWrite 220 (serverName (wConn w)) in
  exists evs w1,
    wTrace w1 = (wTrace w ++ greet :: evs)%list
    /\ (Serve env lines w = (Hang, w1)
        \/ Serve env lines w
           = (Ret (ioError env (wTrace w ++ [greet])),
              extend w1 (EvCloseControl :: closeDataEvents (wConn w1))))
    /\ (ioError env (wTrace w ++ [greet]) <> None -> evs = []).
Proof.
  cbv zeta. pose proof (Serve_run lines w) as H. cbv zeta in H.
  set (w0 := extend w [EvWrite 220 (serverName (wConn w))]) in *.
  destruct (readCommands_emits lines w0) as (evs & Ht & _).
  destruct (ioError env (wTrace w ++ [EvWrite 220 (serverName (wConn w))])) as [e|].
  - exists [], w0. split; [reflexivity|]. split; [|reflexivity].
    destruct H as [(_ & H & _)|H]; [discriminate|right; exact H].
  - exists evs, (snd (readCommands env lines w0)).
    split; [rewrite Ht; subst w0; cbn; rewrite <- app_assoc; reflexivity|].
    split; [|congruence].
    destruct H as [(H & _)|H]; auto.
Qed.

(** X3: When the passive listener always publishes a port that is not
    zero, [Serve] returns for every list of lines, whatever the driver and
    the input/output errors: the greeting is the first event and the close
    of the connection the last ones. *)
Theorem Serve_returns lines (w : world D) :
  listenerBinds env ->
  exists evs w1,
    Serve env lines w
    = (Ret (ioError env (wTrace w ++ [EvWrite 220 (serverName (wConn w))])),
       extend w1 (EvCloseControl :: closeDataEvents (wConn w1)))
    /\ wTrace w1 = (wTrace w ++ EvWrite 220 (serverName (wConn w)) :: evs)%list.
Proof.
  intros Hb. pose proof (Serve_run lines w) as H. cbv zeta in H.
  set (w0 := extend w [EvWrite 220 (serverName (wConn w))]) in *.
  destruct (readCommands_emits lines w0) as (evs & Ht & _).
  destruct H as [(_ & _ & H)|H].
  - exfalso. pose proof (readCommands_neverHangs lines Hb w0) as Hh.
    rewrite H in Hh. discriminate Hh.
  - destruct (ioError env (wTrace w ++ [EvWrite 220 (serverName (wConn w))])) as [e|].
    + exists [], w0. split; [exact H|reflexivity].
    + exists evs, (snd (readCommands env lines w0)). split; [exact H|].
      rewrite Ht. subst w0. cbn. rewrite <- app_assoc. reflexivity.
Qed.

End SessionFacts.

Lemma Serve_returns_witness :
  listenerBinds sampleEnv
  /\ exists evs w1,
       Serve sampleEnv ["USER test" ++ CRLF; "PASS 1234" ++ CRLF; "PASV" ++ CRLF;
                        "LIST" ++ CRLF] freshWorld
       = (Ret (ioError sampleEnv (wTrace freshWorld
                                  ++ [EvWrite 220 (serverName (wConn freshWorld))])),
          extend w1 (EvCloseControl :: closeDataEvents (wConn w1)))
       /\ wTrace w1
          = (wTrace freshWorld ++ EvWrite 220 (serverName (wConn freshWorld)) :: evs)%list.
Proof.
  split; [intros h; exists 60201; split; reflexivity|].
  exact (Serve_returns sampleEnv _ freshWorld
           (fun h => ex_intro _ 60201 (conj eq_refl eq_refl))).
Defined.

(** ** Before the login *)

Lemma authFirst_app_quiet pre evs :
  existsb isDriverCall pre = false -> authFirst (pre ++ evs) = authFirst evs.
Proof.
  induction pre as [|ev rest IH]; intros H; [reflexivity|].
  simpl in H. apply orb_false_iff in H as [H1 H2].
  simpl. rewrite H1. apply IH, H2.
Qed.

Lemma authFirst_app_called pre evs :
  authFirst pre = true -> existsb isDriverCall pre = true -> authFirst (pre ++ evs) = true.
Proof.
  induction pre as [|ev rest IH]; intros Ha Hc; [discriminate|].
  simpl in *. destruct (isDriverCall ev); [assumption|]. apply IH; assumption.
Qed.

Lemma authFirst_app_tail evs post :
  authFirst evs = true -> existsb isDriverCall post = false ->
  authFirst (evs ++ post) = true.
Proof.
  intros Ha Hp. induction evs as [|ev rest IH].
  - simpl. rewrite <- (app_nil_r post). rewrite authFirst_app_quiet by assumption.
    reflexivity.
  - simpl in *. destruct (isDriverCall ev); [assumption|]. apply IH, Ha.
Qed.

Lemma existsb_isDriverCall_In evs :
  existsb isDriverCall evs = true -> exists call, In (EvDriver call) evs.
Proof.
  induction evs as [|ev rest IH]; simpl; [discriminate|].
  destruct ev; simpl; try (intros H; destruct (IH H) as [c Hc]; eauto).
  intros _. eauto.
Qed.

Lemma closeDataEvents_noDriver c : existsb isDriverCall (closeDataEvents c) = false.
Proof. unfold closeDataEvents. destruct (dataConn c); reflexivity. Qed.

Section AuthFacts.
Context {D : Type} {driver : FTPDriver D}.
Variable env : Env.

Tactic Notation "run" uconstr(H) := rewrite (bind_run _ _ _ _ _ H).

Lemma writeLines_run code lines (w : world D) :
  let message := Strings.Join lines CRLF ++ CRLF in
  exists n,
    writeLines env code lines w
    = (Ret (n, ioError env (wTrace w ++ [EvWriteLines code message])),
       extend w [EvWriteLines code message]).
Proof.
  cbv zeta. unfold writeLines. fold CRLF. cbv zeta.
  run (io_run env _ w). destruct (ioError env _); eexists; reflexivity.
Qed.

Lemma modifyConn_run g (w : world D) :
  modifyConn g w = (Ret tt, mkWorld (g (wConn w)) (wDriver w) (wTrace w)).
Proof. reflexivity. Qed.

(** [PASS], by the driver's answer. *)
Lemma commandPass_Execute_run (w : world D) param :
  let c := wConn w in
  let call := EvDriver (CallAuthenticate (reqUser c) param (remoteIP env)) in
  let r := Authenticate (reqUser c) param (remoteIP env) (wDriver w) in
  exists result,
    commandPass_Execute env param w
    = (Ret result,
       match fst r with
       | (true, None) =>
           mkWorld (set_reqUser "" (set_user (reqUser c) c)) (snd r)
                   (wTrace w ++ [call; EvWrite 230 "Password ok, continue"])
       | _ =>
           mkWorld c (snd r)
                   (wTrace w ++ [call; EvWrite 530 "Incorrect password, not logged in";
                                 EvWrite 221 "Goodbye."; EvCloseControl]
                    ++ closeDataEvents c)
       end).
Proof.
  cbv zeta. unfold commandPass_Execute.
  run (getConn_run w). run (callDriver_run _ _ w).
  set (r := Authenticate _ _ _ _). set (w1 := mkWorld _ _ _).
  assert (Hfail : exists result,
    (r1 <- writeMessage env 530 "Incorrect password, not logged in" ;;
     (let errs := appendIfError None (snd r1) in
      r2 <- writeMessage env 221 "Goodbye." ;;
      (let errs0 := appendIfError errs (snd r2) in
       e3 <- Close env ;; ret (appendIfError errs0 e3))))%go w1
    = (Ret result,
       mkWorld (wConn w) (snd r)
         (wTrace w ++ [EvDriver (CallAuthenticate (reqUser (wConn w)) param (remoteIP env));
                       EvWrite 530 "Incorrect password, not logged in";
                       EvWrite 221 "Goodbye."; EvCloseControl]
          ++ closeDataEvents (wConn w)))).
  { destruct (writeMessage_run env 530 "Incorrect password, not logged in" w1) as [n1 H1].
    run H1. cbv zeta.
    destruct (writeMessage_run env 221 "Goodbye."
                (extend w1 [EvWrite 530 "Incorrect password, not logged in"])) as [n2 H2].
    run H2. cbv zeta.
    destruct (Close_run env (extend (extend w1 [EvWrite 530 "Incorrect password, not logged in"])
                                    [EvWrite 221 "Goodbye."])) as [e3 H3].
    run H3. unfold ret. eexists. f_equal.
    subst w1. unfold extend. cbn [wConn wDriver wTrace]. f_equal.
    rewrite <- !app_assoc. reflexivity. }
  destruct (fst r) as [[|] [e|]]; try exact Hfail.
  unfold bind at 1. unfold modifyConn. cbv beta iota.
  rewrite reply_run. eexists. f_equal.
  subst w1. unfold extend. cbn [wConn wDriver wTrace].
  rewrite <- app_assoc. reflexivity.
Qed.

(** One line on a session that is not logged in. *)
Lemma receiveLine_unauth_step (w : world D) line :
  user (wConn w) = "" ->
  let w' := snd (receiveLine env line w) in
  exists evs,
    wTrace w' = (wTrace w ++ evs)%list
    /\ (forall call, In (EvDriver call) evs ->
          exists p, call = CallAuthenticate (reqUser (wConn w)) p (remoteIP env)
                    /\ (user (wConn w') <> "" ->
                        fst (Authenticate (reqUser (wConn w)) p (remoteIP env) (wDriver w))
                        = (true, None)))
    /\ authFirst evs = true
    /\ (existsb isDriverCall evs = false -> user (wConn w') = "")
    /\ (user (wConn w') <> "" -> user (wConn w') = reqUser (wConn w)).
Proof.
  intros Hu. cbv zeta.
  assert (Hreply : forall code message,
    exists evs,
      wTrace (snd (reply env code message w)) = (wTrace w ++ evs)%list
      /\ (forall call, In (EvDriver call) evs ->
            exists p, call = CallAuthenticate (reqUser (wConn w)) p (remoteIP env)
                      /\ (user (wConn (snd (reply env code message w))) <> "" ->
                          fst (Authenticate (reqUser (wConn w)) p (remoteIP env) (wDriver w))
                          = (true, None)))
      /\ authFirst evs = true
      /\ (existsb isDriverCall evs = false
          -> user (wConn (snd (reply env code message w))) = "")
      /\ (user (wConn (snd (reply env code message w))) <> ""
          -> user (wConn (snd (reply env code message w))) = reqUser (wConn w))).
  { intros code message. rewrite reply_run. cbn [snd extend wConn wTrace].
    exists [EvWrite code message]. split; [reflexivity|].
    split; [intros call [H|[]]; discriminate|].
    split; [reflexivity|]. split; [auto|]. intros H; contradiction. }
  unfold receiveLine. destruct (parseLine line) as [command param].
  destruct (lookup commands command) as [cmd|]; [|apply Hreply].
  destruct (RequireParam cmd && (param =? "")%string); [apply Hreply|].
  run (getConn_run w). rewrite Hu.
  destruct cmd; cbn [RequireAuth andb String.eqb]; try apply Hreply; cbn [Execute].
  - (* FEAT *) unfold commandFeat_Execute.
    destruct (writeLines_run 211
                ["211-Features supported:"; " EPRT"; " EPSV"; " MDTM"; " SIZE"; " UTF8";
                 "211 End FEAT."] w) as [n Hw].
    run Hw. unfold ret. cbn [snd extend wConn wTrace].
    eexists. split; [reflexivity|].
    split; [intros call [H|[]]; discriminate|].
    split; [reflexivity|]. split; [auto|]. intros H; contradiction.
  - (* PASS *) destruct (commandPass_Execute_run w param) as [result ->]. cbn [snd].
    destruct (fst (Authenticate (reqUser (wConn w)) param (remoteIP env) (wDriver w)))
      as [[|] [e|]] eqn:EA; cbn [wConn wTrace user set_reqUser set_user].
    + eexists. split; [reflexivity|].
      split; [|split; [reflexivity|split; [discriminate|intros H; contradiction]]].
      intros call Hin. exists param. split; [|intros H; contradiction].
      destruct Hin as [H|Hin]; [congruence|]. exfalso.
      simpl in Hin. unfold closeDataEvents in Hin.
      destruct (dataConn (wConn w)); simpl in Hin;
        repeat (destruct Hin as [Hin|Hin]; [discriminate|]); exact Hin.
    + eexists. split; [reflexivity|].
      split; [|split; [reflexivity|split; [discriminate|auto]]].
      intros call [H|[H|[]]]; [|discriminate]. exists param. split; [congruence|auto].
    + eexists. split; [reflexivity|].
      split; [|split; [reflexivity|split; [discriminate|intros H; contradiction]]].
      intros call Hin. exists param. split; [|intros H; contradiction].
      destruct Hin as [H|Hin]; [congruence|]. exfalso.
      simpl in Hin. unfold closeDataEvents in Hin.
      destruct (dataConn (wConn w)); simpl in Hin;
        repeat (destruct Hin as [Hin|Hin]; [discriminate|]); exact Hin.
    + eexists. split; [reflexivity|].
      split; [|split; [reflexivity|split; [discriminate|intros H; contradiction]]].
      intros call Hin. exists param. split; [|intros H; contradiction].
      destruct Hin as [H|Hin]; [congruence|]. exfalso.
      simpl in Hin. unfold closeDataEvents in Hin.
      destruct (dataConn (wConn w)); simpl in Hin;
        repeat (destruct Hin as [Hin|Hin]; [discriminate|]); exact Hin.
  - (* QUIT *) unfold commandQuit_Execute.
    destruct (Close_run env w) as [err ->]. cbn [snd extend wConn wTrace].
    eexists. split; [reflexivity|].
    split; [|split; [|split; [auto|intros H; contradiction]]].
    + intros call Hin. exfalso. unfold closeDataEvents in Hin.
      destruct (dataConn (wConn w)); simpl in Hin;
        repeat (destruct Hin as [Hin|Hin]; [discriminate|]); exact Hin.
    + unfold closeDataEvents. destruct (dataConn (wConn w)); reflexivity.
  - (* USER *) unfold commandUser_Execute. run (modifyConn_run _ w).
    rewrite reply_run. cbn [snd extend wConn wTrace user set_reqUser].
    eexists. split; [reflexivity|].
    split; [intros call [H|[]]; discriminate|].
    split; [reflexivity|]. split; [auto|]. intros H; contradiction.
Qed.

(** X4: On a session that is not logged in, the only driver operation that
    handling a line can invoke is [Authenticate], with the user name that
    the last USER left in [reqUser] and the remote address.  If the line
    leaves the session logged in, the user is that name and the driver,
    asked in that very line, answered true without error. *)
Theorem receiveLine_unauthenticated (w : world D) line :
  user (wConn w) = "" ->
  let w' := snd (receiveLine env line w) in
  let evs := newEvents (wTrace w) (wTrace w') in
  (forall call, In (EvDriver call) evs ->
     exists p, call = CallAuthenticate (reqUser (wConn w)) p (remoteIP env))
  /\ (user (wConn w') <> "" ->
      user (wConn w') = reqUser (wConn w)
      /\ exists p,
           In (EvDriver (CallAuthenticate (reqUser (wConn w)) p (remoteIP env))) evs
           /\ fst (Authenticate (reqUser (wConn w)) p (remoteIP env) (wDriver w))
              = (true, None)).
Proof.
  intros Hu. cbv zeta.
  destruct (receiveLine_unauth_step w line Hu) as (evs & Ht & Hcalls & _ & Hquiet & Hreq).
  rewrite Ht, newEvents_app. split.
  - intros call Hin. destruct (Hcalls call Hin) as (p & -> & _). eauto.
  - intros Hne. split; [apply Hreq, Hne|].
    destruct (existsb isDriverCall evs) eqn:E; [|exfalso; apply Hne, Hquiet; reflexivity].
    destruct (existsb_isDriverCall_In evs E) as [call Hin].
    destruct (Hcalls call Hin) as (p & -> & Hok). exists p. auto.
Qed.

Lemma readCommands_authFirst lines : forall (w : world D),
  user (wConn w) = "" ->
  exists evs,
    wTrace (snd (readCommands env lines w)) = (wTrace w ++ evs)%list
    /\ authFirst evs = true.
Proof.
  induction lines as [|line rest IH]; intros w Hu.
  - exists []. split; [symmetry; apply app_nil_r|reflexivity].
  - cbn [readCommands]. unfold bind.
    destruct (receiveLine_unauth_step w line Hu) as (evs1 & Ht & _ & Ha & Hquiet & _).
    destruct (receiveLine env line w) as [[r|msg|] w1]; cbn [snd] in *;
      [|exists evs1; auto|exists evs1; auto].
    destruct (existsb isDriverCall evs1) eqn:E.
    + destruct (readCommands_emits env rest w1) as (evs2 & Ht2 & _).
      exists (evs1 ++ evs2)%list. split.
      * rewrite Ht2, Ht, app_assoc. reflexivity.
      * apply authFirst_app_called; assumption.
    + destruct (IH w1 (Hquiet eq_refl)) as (evs2 & Ht2 & Ha2).
      exists (evs1 ++ evs2)%list. split.
      * rewrite Ht2, Ht, app_assoc. reflexivity.
      * rewrite authFirst_app_quiet; assumption.
Qed.

(** X5: In a session that starts not logged in, the first driver operation
    that [Serve] invokes, if it invokes any, is [Authenticate]. *)
Theorem Serve_authenticates_first lines (w : world D) :
  user (wConn w) = "" ->
  authFirst (newEvents (wTrace w) (wTrace (snd (Serve env lines w)))) = true.
Proof.
  intros Hu. pose proof (Serve_run env lines w) as H. cbv zeta in H.
  set (greet := EvWrite 220 (serverName (wConn w))) in *.
  set (w0 := extend w [greet]) in *.
  destruct (readCommands_authFirst lines w0 Hu) as (evs & Ht & Ha).
  assert (H1 : exists evs1,
            wTrace match ioError env (wTrace w ++ [greet]) with
                   | Some _ => w0
                   | None => snd (readCommands env lines w0)
                   end = (wTrace w ++ greet :: evs1)%list
            /\ authFirst evs1 = true).
  { destruct (ioError env (wTrace w ++ [greet])).
    - exists []. split; reflexivity.
    - exists evs. split; [|assumption].
      rewrite Ht. subst w0. cbn. rewrite <- app_assoc. reflexivity. }
  destruct H1 as (evs1 & Ht1 & Ha1).
  destruct H as [[H _]|H]; rewrite H; cbn [snd].
  - rewrite Ht1, newEvents_app. exact Ha1.
  - unfold extend. cbn [wTrace]. rewrite Ht1, <- app_assoc, newEvents_app.
    change ((greet :: evs1) ++ ?l)%list with (greet :: (evs1 ++ l))%list.
    change (authFirst (greet :: ?l)) with (authFirst l).
    apply authFirst_app_tail; [assumption|].
    cbn [existsb isDriverCall orb]. apply closeDataEvents_noDriver.
Qed.

End AuthFacts.

Lemma receiveLine_unauthenticated_witness :
  user (wConn userSentWorld) = ""
  /\ let w' := snd (receiveLine sampleEnv ("PASS 1234" ++ CRLF) userSentWorld) in
     let evs := newEvents (wTrace userSentWorld) (wTrace w') in
     (forall call, In (EvDriver call) evs ->
        exists p, call = CallAuthenticate (reqUser (wConn userSentWorld)) p
                                          (remoteIP sampleEnv))
     /\ (user (wConn w') <> "" ->
         user (wConn w') = reqUser (wConn userSentWorld)
         /\ exists p,
              In (EvDriver (CallAuthenticate (reqUser (wConn userSentWorld)) p
                                             (remoteIP sampleEnv))) evs
              /\ fst (Authenticate (reqUser (wConn userSentWorld)) p
                                   (remoteIP sampleEnv) (wDriver userSentWorld))
                 = (true, None)).
Proof.
  split; [reflexivity|].
  exact (receiveLine_unauthenticated sampleEnv userSentWorld ("PASS 1234" ++ CRLF)
           eq_refl).
Defined.

Lemma Serve_authenticates_first_witness :
  user (wConn freshWorld) = ""
  /\ authFirst
       (newEvents (wTrace freshWorld)
          (wTrace (snd (Serve sampleEnv
                          ["PWD" ++ CRLF; "USER test" ++ CRLF; "PASS 1234" ++ CRLF;
                           "SIZE one.txt" ++ CRLF] freshWorld))))
     = true.
Proof.
  split; [reflexivity|].
  exact (Serve_authenticates_first sampleEnv _ freshWorld eq_refl).
Defined.

(** ** The faults of a line *)

Section FaultFacts.
Context {D : Type} {driver : FTPDriver D}.
Variable env : Env.

Tactic Notation "run" uconstr(H) := rewrite (bind_run _ _ _ _ _ H).

(** [newPassiveSocket], by what the listener publishes. *)
Lemma newPassiveSocket_eq (w : world D) :
  newPassiveSocket env w
  = match passivePort env (passiveHistory env w) with
    | Some P =>
        if 0 <? uint16 P
        then (Ret (Some (ftpPassiveSocket (localIP env) (uint16 P)), None),
              mkWorld (set_dataConn (Some (ftpPassiveSocket (localIP env) (uint16 P)))
                                    (wConn w))
                      (wDriver w) (passiveHistory env w))
        else (Hang, mkWorld (set_dataConn None (wConn w)) (wDriver w)
                            (passiveHistory env w))
    | None => (Hang, mkWorld (set_dataConn None (wConn w)) (wDriver w)
                             (passiveHistory env w))
    end.
Proof.
  unfold newPassiveSocket. unfold bind at 1. rewrite closePreviousDataConn_run.
  unfold bind at 1. unfold getConn. cbv beta iota.
  unfold bind at 1. unfold listenPassive, bind, emit, getTrace.
  cbn [wTrace wConn wDriver]. cbn [minDataPort maxDataPort set_dataConn].
  unfold passiveHistory. rewrite <- app_assoc.
  destruct (passivePort env _) as [P|]; [|reflexivity].
  destruct (0 <? uint16 P); reflexivity.
Qed.

(** [newPassiveSocket] either attaches the new socket or never returns;
    the error result that its callers test for does not occur. *)
Lemma newPassiveSocket_cases (w : world D) :
  (exists P,
     passivePort env (passiveHistory env w) = Some P /\ 0 < uint16 P
     /\ newPassiveSocket env w
        = (Ret (Some (ftpPassiveSocket (localIP env) (uint16 P)), None),
           mkWorld (set_dataConn (Some (ftpPassiveSocket (localIP env) (uint16 P))) (wConn w))
                   (wDriver w) (passiveHistory env w)))
  \/ ((forall P, passivePort env (passiveHistory env w) = Some P -> uint16 P <= 0)
      /\ newPassiveSocket env w
         = (Hang, mkWorld (set_dataConn None (wConn w)) (wDriver w) (passiveHistory env w))).
Proof.
  rewrite newPassiveSocket_eq.
  destruct (passivePort env _) as [P|] eqn:EP.
  - destruct (0 <? uint16 P) eqn:E0.
    + left. exists P. apply Z.ltb_lt in E0. auto.
    + right. apply Z.ltb_ge in E0.
      split; [intros P' HP'; inversion HP'; subst; assumption|reflexivity].
  - right. split; [discriminate|reflexivity].
Qed.

Lemma commandEpsv_faults param :
  avoids (fun f => negb (mayFault commandEpsv f)) (commandEpsv_Execute (D := D) env param).
Proof.
  intros w. unfold commandEpsv_Execute, bind.
  destruct (newPassiveSocket_cases w) as [(P & _ & _ & ->)|(_ & ->)]; [|reflexivity].
  rewrite reply_run. exact I.
Qed.

Lemma commandPasv_faults param :
  avoids (fun f => negb (mayFault commandPasv f)) (commandPasv_Execute (D := D) env param).
Proof.
  intros w. unfold commandPasv_Execute. unfold bind at 1.
  destruct (newPassiveSocket_cases w) as [(P & _ & _ & ->)|(_ & ->)]; [|reflexivity].
  cbv beta iota zeta.
  match goal with
  | |- match faultOf (fst (?m ?w1)) with _ => _ end =>
      generalize w1; change (avoids (fun f => negb (mayFault commandPasv f)) m)
  end.
  fault_tac.
Qed.

Lemma Execute_faults cmd param :
  RequireParam cmd && (param =? "")%string = false ->
  avoids (fun f => negb (mayFault cmd f)) (Execute (D := D) env cmd param).
Proof.
  intros Hgate.
  destruct cmd; cbn [Execute];
    try apply commandEpsv_faults; try apply commandPasv_faults;
    try (fault_tac; fail).
  - (* EPRT: the parameter is not empty *)
    cbn [RequireParam andb] in Hgate.
    destruct param as [|delimiter rest]; [discriminate|]. fault_tac.
  - (* PORT: the six fields are there *)
    unfold commandPort_Execute. cbv zeta.
    destruct (List.length (Strings.Split param ",") <? 6)%nat eqn:E; [fault_tac|].
    apply Nat.ltb_ge in E. fault_tac.
Qed.

(** With a port published, [PASV] and [EPSV] do not wait: a handler that
    does not return has found no port. *)
Lemma passive_hang_no_port cmd param (w : world D) :
  cmd = commandPasv \/ cmd = commandEpsv ->
  fst (Execute env cmd param w) = Hang ->
  forall P, passivePort env (passiveHistory env w) = Some P -> uint16 P = 0.
Proof.
  assert (Hno : (forall P, passivePort env (passiveHistory env w) = Some P -> uint16 P <= 0)
                -> forall P, passivePort env (passiveHistory env w) = Some P -> uint16 P = 0).
  { intros H P HP. specialize (H P HP). unfold uint16 in *.
    pose proof (Z.mod_pos_bound P 65536 ltac:(lia)). lia. }
  intros [-> | ->]; cbn [Execute].
  - unfold commandPasv_Execute. unfold bind at 1.
    destruct (newPassiveSocket_cases w) as [(P & _ & _ & ->)|(H & _)]; [|intros _; auto].
    cbv beta iota zeta. intros Hh. exfalso.
    match type of Hh with
    | fst (?m ?w1) = Hang =>
        assert (Ha : avoids isHang m) by fault_tac;
        specialize (Ha w1); rewrite Hh in Ha; discriminate Ha
    end.
  - unfold commandEpsv_Execute, bind.
    destruct (newPassiveSocket_cases w) as [(P & _ & _ & ->)|(H & _)]; [|intros _; auto].
    rewrite reply_run. discriminate.
Qed.

(** X6: Handling a line ends in one of four ways.  It returns; it panics
    on an index out of range, in EPRT and PASV only; it panics on a nil
    dereference, in LIST, NLST and RETR only; or it does not return, in
    PASV and EPSV only, and only when the passive listener has published
    no port: the handler then polls for the port without bound, be it
    that the listener found no port to listen on or that its goroutine
    has panicked in [randomPort], which ends the process. *)
Theorem receiveLine_faults (w : world D) line :
  let handler (cmds : list ftpCommand) :=
    exists cmd, lookup commands (fst (parseLine line)) = Some cmd /\ In cmd cmds in
  match fst (receiveLine env line w) with
  | Ret _ => True
  | Panic msg =>
      (msg = "index out of range" /\ handler [commandEprt; commandPasv])
      \/ (msg = "invalid memory address or nil pointer dereference"
          /\ handler [commandList; commandNlst; commandRetr])
  | Hang =>
      handler [commandPasv; commandEpsv]
      /\ forall P, passivePort env (passiveHistory env w) = Some P -> uint16 P = 0
  end.
Proof.
  cbv zeta. unfold receiveLine.
  destruct (parseLine line) as [command param]. cbn [fst].
  destruct (lookup commands command) as [cmd|]; [|rewrite reply_run; exact I].
  destruct (RequireParam cmd && (param =? "")%string) eqn:Hgate;
    [rewrite reply_run; exact I|].
  run (getConn_run w).
  destruct (RequireAuth cmd && (user (wConn w) =? "")%string);
    [rewrite reply_run; exact I|].
  pose proof (Execute_faults cmd param Hgate w) as H.
  destruct (fst (Execute env cmd param w)) as [r|msg|] eqn:EE;
    cbn [faultOf] in H; [exact I| |].
  - apply negb_false_iff in H.
    destruct cmd; cbn [mayFault] in H; try discriminate H;
      apply String.eqb_eq in H; subst msg.
    + left. split; [reflexivity|]. eexists. split; [reflexivity|]. simpl. auto.
    + right. split; [reflexivity|]. eexists. split; [reflexivity|]. simpl. auto.
    + right. split; [reflexivity|]. eexists. split; [reflexivity|]. simpl. auto.
    + left. split; [reflexivity|]. eexists. split; [reflexivity|]. simpl. auto.
    + right. split; [reflexivity|]. eexists. split; [reflexivity|]. simpl. auto.
  - apply negb_false_iff in H.
    destruct cmd; cbn [mayFault] in H; try discriminate H.
    + split; [eexists; (split; [reflexivity|]); simpl; auto|].
      apply (passive_hang_no_port commandEpsv param w); auto.
    + split; [eexists; (split; [reflexivity|]); simpl; auto|].
      apply (passive_hang_no_port commandPasv param w); auto.
Qed.

End FaultFacts.

(** ** [buildPath] as a stack machine *)

Lemma Split_app a b sep :
  Strings.Split (a ++ String sep b) sep = (Strings.Split a sep ++ Strings.Split b sep)%list.
Proof.
  induction a as [|c r IH]; simpl.
  - rewrite Ascii.eqb_refl. reflexivity.
  - destruct (Ascii.eqb c sep).
    + rewrite IH. reflexivity.
    + rewrite IH. destruct (Strings.Split r sep) as [|h t] eqn:E.
      * exfalso. exact (Split_not_nil sep r E).
      * reflexivity.
Qed.

Lemma canonicalAbs_rootedJoin p :
  canonicalAbs p = true <->
  exists kept, Forall (fun e => realElem e = true) kept /\ p = rootedJoin kept.
Proof.
  unfold canonicalAbs. split.
  - intros H. apply andb_true_iff in H as [Hp Hc]. apply String.eqb_eq in Hc.
    destruct (Clean_rooted p Hp) as (kept & HF & E).
    exists kept. split; [assumption|congruence].
  - intros (kept & HF & ->). rewrite Clean_rootedJoin by assumption.
    rewrite String.eqb_refl. reflexivity.
Qed.

Lemma fold_cleanStep_rootedJoin kept :
  Forall (fun e => realElem e = true) kept ->
  fold_left (Filepath.cleanStep true) (Strings.Split (rootedJoin kept) "/") [] = rev kept.
Proof.
  intros HF. pose proof (cleanElems_rootedJoin kept HF) as H.
  unfold Filepath.cleanElems in H.
  rewrite <- H at 2. rewrite rev_involutive. reflexivity.
Qed.

Lemma resolve_real kept s :
  Forall (fun e => realElem e = true) kept ->
  Forall (fun e => realElem e = true) (resolve kept s).
Proof.
  intros HF. unfold resolve. apply Forall_rev.
  apply fold_cleanStep_rooted; [|apply Split_noSep].
  destruct (Strings.HasPrefix s "/"); [constructor|apply Forall_rev; assumption].
Qed.

Lemma ReplaceAll_rootedJoin kept :
  Forall (fun e => realElem e = true) kept ->
  Strings.ReplaceAll (rootedJoin kept) "//" "/" = rootedJoin kept.
Proof. intros HF. apply noDoubleSlash_ReplaceAll, noDoubleSlash_rootedJoin, HF. Qed.

(** [buildPath], element by element. *)
Lemma buildPath_by_elems c kept s :
  Forall (fun e => realElem e = true) kept ->
  namePrefix c = rootedJoin kept ->
  buildPath c s = rootedJoin (resolve kept s).
Proof.
  intros HF Hn. pose proof (resolve_real kept s HF) as HR.
  unfold buildPath. rewrite Hn.
  destruct s as [|ch t].
  - cbn [String.length Nat.ltb Nat.leb andb].
    rewrite Clean_rootedJoin by assumption.
    rewrite ReplaceAll_rootedJoin by assumption.
    unfold resolve. cbn. unfold Filepath.cleanStep. cbn. rewrite rev_involutive.
    reflexivity.
  - change ((0 <? String.length (String ch t))%nat) with true.
    change (substring 0 1 (String ch t)) with (String ch (substring 0 0 t)).
    replace (substring 0 0 t) with "" by (destruct t; reflexivity).
    cbv beta iota. rewrite andb_true_l.
    destruct (String.eqb_spec (String ch "") "/") as [E|E].
    + inversion E; subst ch.
      rewrite Clean_rooted_eq by reflexivity.
      unfold resolve in *. cbn [Strings.HasPrefix Ascii.eqb Bool.eqb andb] in *.
      unfold Filepath.cleanElems.
      apply ReplaceAll_rootedJoin. exact HR.
    + assert (Hrel : Strings.HasPrefix (String ch t) "/" = false).
      { cbn [Strings.HasPrefix]. destruct (Ascii.eqb_spec ch "/") as [->|Hne];
          [exfalso; apply E; reflexivity|reflexivity]. }
      rewrite Clean_rooted_eq by reflexivity.
      change (rootedJoin kept ++ "/" ++ String ch t)
        with (rootedJoin kept ++ String "/" (String ch t)).
      rewrite Split_app. unfold Filepath.cleanElems.
      rewrite fold_left_app, fold_cleanStep_rootedJoin by assumption.
      unfold resolve in *. rewrite Hrel in *.
      apply ReplaceAll_rootedJoin. exact HR.
Qed.

(** The result of [buildPath] is canonical, whatever the name. *)
Lemma buildPath_canonicalAbs c s :
  canonicalAbs (namePrefix c) = true -> canonicalAbs (buildPath c s) = true.
Proof.
  intros H. apply canonicalAbs_rootedJoin in H as (kept & HF & Hn).
  apply canonicalAbs_rootedJoin. exists (resolve kept s).
  split; [apply resolve_real, HF|apply buildPath_by_elems; assumption].
Qed.

(** X7: [buildPath] is a stack machine: with the working directory the
    rooted join of the names [kept], [buildPath] of [s] is the rooted join
    of [resolve kept s], which reads the elements of [s] from left to
    right, starting from the root if [s] begins with a slash and from
    [kept] otherwise, skips an empty element and a dot, pops on two dots
    (nothing at the root) and pushes any other element.  The result is
    made of real names only. *)
Theorem buildPath_resolve c kept s :
  Forall (fun e => realElem e = true) kept ->
  namePrefix c = rootedJoin kept ->
  buildPath c s = rootedJoin (resolve kept s)
  /\ Forall (fun e => realElem e = true) (resolve kept s).
Proof.
  intros HF Hn. split; [apply buildPath_by_elems; assumption|apply resolve_real, HF].
Qed.

Lemma buildPath_resolve_witness :
  Forall (fun e => realElem e = true) ["home"; "alice"]
  /\ namePrefix (set_namePrefix "/home/alice" freshConn) = rootedJoin ["home"; "alice"]
  /\ buildPath (set_namePrefix "/home/alice" freshConn) "../bob/./notes//a.txt"
     = rootedJoin (resolve ["home"; "alice"] "../bob/./notes//a.txt")
  /\ Forall (fun e => realElem e = true)
            (resolve ["home"; "alice"] "../bob/./notes//a.txt").
Proof.
  split; [repeat constructor|]. split; [reflexivity|].
  exact (buildPath_resolve (set_namePrefix "/home/alice" freshConn) ["home"; "alice"]
           "../bob/./notes//a.txt"
           ltac:(repeat constructor) eq_refl).
Defined.

(** X8: Against a canonical working directory, [buildPath] of the empty
    name and of a dot is the working directory, of a slash the root, of
    two dots the parent directory (the root at the root), and of one real
    name the working directory extended by that name. *)
Theorem buildPath_steps c kept e :
  Forall (fun e => realElem e = true) kept ->
  namePrefix c = rootedJoin kept ->
  buildPath c "" = namePrefix c
  /\ buildPath c "." = namePrefix c
  /\ buildPath c "/" = "/"
  /\ buildPath c ".." = rootedJoin (removelast kept)
  /\ (realElem e = true -> buildPath c e = rootedJoin (kept ++ [e])).
Proof.
  intros HF Hn.
  split; [|split; [|split; [|split]]].
  - rewrite (buildPath_by_elems c kept "" HF Hn), Hn. unfold resolve. cbn.
    unfold Filepath.cleanStep. cbn. rewrite rev_involutive. reflexivity.
  - rewrite (buildPath_by_elems c kept "." HF Hn), Hn. unfold resolve. cbn.
    unfold Filepath.cleanStep. cbn. rewrite rev_involutive. reflexivity.
  - rewrite (buildPath_by_elems c kept "/" HF Hn). reflexivity.
  - rewrite (buildPath_by_elems c kept ".." HF Hn). unfold resolve. cbn.
    unfold Filepath.cleanStep. cbn.
    destruct (rev kept) as [|top below] eqn:Er.
    + apply (f_equal (@rev string)) in Er. rewrite rev_involutive in Er. subst kept.
      reflexivity.
    + apply (f_equal (@rev string)) in Er. rewrite rev_involutive in Er. subst kept.
      cbn [rev]. rewrite removelast_last.
      assert (Ht : realElem top = true).
      { rewrite Forall_forall in HF. apply HF. cbn [rev]. apply in_or_app. right.
        left. reflexivity. }
      apply realElem_spec in Ht as (_ & _ & Ht & _).
      apply String.eqb_neq in Ht. rewrite Ht. reflexivity.
  - intros He. rewrite (buildPath_by_elems c kept e HF Hn). unfold resolve.
    assert (Hrel : Strings.HasPrefix e "/" = false).
    { destruct (realElem_head e He) as (ch & r & -> & Hch). cbn. rewrite Hch. reflexivity. }
    rewrite Hrel. rewrite Split_single by (apply realElem_spec in He; tauto).
    cbn [fold_left]. rewrite cleanStep_real by assumption.
    cbn [rev]. rewrite rev_involutive. reflexivity.
Qed.

Lemma buildPath_steps_witness :
  Forall (fun e => realElem e = true) ["files"; "old"]
  /\ namePrefix (set_namePrefix "/files/old" freshConn) = rootedJoin ["files"; "old"]
  /\ buildPath (set_namePrefix "/files/old" freshConn) "" = "/files/old"
  /\ buildPath (set_namePrefix "/files/old" freshConn) "." = "/files/old"
  /\ buildPath (set_namePrefix "/files/old" freshConn) "/" = "/"
  /\ buildPath (set_namePrefix "/files/old" freshConn) ".." = rootedJoin ["files"]
  /\ (realElem "two.txt" = true
      -> buildPath (set_namePrefix "/files/old" freshConn) "two.txt"
         = rootedJoin (["files"; "old"] ++ ["two.txt"])).
Proof.
  split; [repeat constructor|]. split; [reflexivity|].
  exact (buildPath_steps (set_namePrefix "/files/old" freshConn) ["files"; "old"] "two.txt"
           ltac:(repeat constructor) eq_refl).
Defined.

(** ** The paths that reach the driver *)

Section MaintainsRules.
Context {D : Type}.
Variable I : ftpConn -> Prop.
Variable P : event -> bool.

Lemma maintains_ret {A : Type} (a : A) : maintains I P (@ret D A a).
Proof. intros w H. split; [exact H|apply adds_refl]. Qed.

Lemma maintains_panic {A : Type} msg : maintains I P (@panic D A msg).
Proof. intros w H. split; [exact H|apply adds_refl]. Qed.

Lemma maintains_hang {A : Type} : maintains I P (@hang D A).
Proof. intros w H. split; [exact H|apply adds_refl]. Qed.

Lemma maintains_getTrace : maintains I P (@getTrace D).
Proof. intros w H. split; [exact H|apply adds_refl]. Qed.

Lemma maintains_getConn : maintains I P (@getConn D).
Proof. intros w H. split; [exact H|apply adds_refl]. Qed.

Lemma maintains_index xs i : maintains I P (@index D xs i).
Proof.
  unfold index. destruct (nth_error xs i); [apply maintains_ret|apply maintains_panic].
Qed.

Lemma maintains_emit ev : P ev = true -> maintains I P (@emit D ev).
Proof. intros Hev w H. split; [exact H|apply (emits_emit P ev Hev)]. Qed.

Lemma maintains_callDriver {R : Type} call (op : D -> R * D) :
  P (EvDriver call) = true -> maintains I P (callDriver call op).
Proof.
  intros Hev w H. split; [|apply (emits_callDriver P call op Hev)].
  unfold callDriver. destruct (op (wDriver w)). exact H.
Qed.

Lemma maintains_modifyConn g :
  (forall c, I c -> I (g c)) -> maintains I P (@modifyConn D g).
Proof. intros Hg w H. split; [apply Hg, H|apply emits_modifyConn]. Qed.

Lemma maintains_bind {A B : Type} (m : M D A) (k : A -> M D B) :
  maintains I P m -> (forall a, maintains I P (k a)) -> maintains I P (bind m k).
Proof.
  intros Hm Hk w H. unfold bind. destruct (Hm w H) as [H1 H2].
  destruct (m w) as [[a|msg|] w1]; cbn [snd] in *; [|auto|auto].
  destruct (Hk a w1 H1) as [H3 H4]. split; [exact H3|].
  eapply adds_trans; eassumption.
Qed.

(** Reading the session record hands its invariant to what follows. *)
Lemma maintains_getConn_bind {B : Type} (k : ftpConn -> M D B) :
  (forall c, I c -> maintains I P (k c)) -> maintains I P (bind getConn k).
Proof. intros Hk w H. unfold bind, getConn. apply Hk; exact H. Qed.

Lemma maintains_withDefer {A B : Type} (deferred : M D B) (body : M D A) :
  maintains I P deferred -> maintains I P body -> maintains I P (withDefer deferred body).
Proof.
  intros Hd Hb w H. unfold withDefer. destruct (Hb w H) as [H1 H2].
  destruct (body w) as [[a|msg|] w1]; cbn [snd] in *; [| |auto].
  - destruct (Hd w1 H1) as [H3 H4].
    destruct (deferred w1) as [[b|msg|] w2]; cbn [snd] in *;
      (split; [exact H3|eapply adds_trans; eassumption]).
  - destruct (Hd w1 H1) as [H3 H4].
    destruct (deferred w1) as [[b|msg2|] w2]; cbn [snd] in *;
      (split; [exact H3|eapply adds_trans; eassumption]).
Qed.

End MaintainsRules.

Lemma pathsCanonical_buildPath c s :
  pathsCanonical c -> canonicalAbs (buildPath c s) = true.
Proof. intros [H _]. apply buildPath_canonicalAbs, H. Qed.

Lemma pathsCanonical_renameFrom c :
  pathsCanonical c -> (renameFrom c =? "")%string = false ->
  canonicalAbs (renameFrom c) = true.
Proof.
  intros [_ [H|H]] E; [|exact H]. rewrite H in E. discriminate.
Qed.

(** The side conditions of the rules, for the canonical paths. *)
Ltac paths_event :=
  cbn [canonicalCall callPaths forallb];
  rewrite ?pathsCanonical_buildPath by assumption;
  rewrite ?pathsCanonical_renameFrom by assumption;
  reflexivity.

Ltac paths_record :=
  let c := fresh "c" in
  let H1 := fresh "H" in
  let H2 := fresh "H" in
  intros c [H1 H2]; split;
  cbn [namePrefix renameFrom set_namePrefix set_renameFrom set_reqUser set_user
       set_dataConn];
  first [ assumption
        | apply pathsCanonical_buildPath; assumption
        | right; apply pathsCanonical_buildPath; split; assumption ].

Ltac paths_rule :=
  match goal with
  | |- maintains _ _ (ret _) => apply maintains_ret
  | |- maintains _ _ (panic _) => apply maintains_panic
  | |- maintains _ _ hang => apply maintains_hang
  | |- maintains _ _ getTrace => apply maintains_getTrace
  | |- maintains _ _ (index _ _) => apply maintains_index
  | |- maintains _ _ (emit _) => apply maintains_emit; reflexivity
  | |- maintains _ _ (callDriver _ _) => apply maintains_callDriver; paths_event
  | |- maintains _ _ (modifyConn _) => apply maintains_modifyConn; paths_record
  | |- maintains _ _ (bind getConn _) => apply maintains_getConn_bind; intros ? ?
  | |- maintains _ _ (bind _ _) => apply maintains_bind; [|intro]
  | |- maintains _ _ (withDefer _ _) => apply maintains_withDefer
  | |- maintains _ _ (match ?x with _ => _ end) => destruct x eqn:?
  | |- maintains _ _ ?m => let h := head_of m in unfold h
  end.

Ltac paths_tac := repeat (paths_rule; cbv zeta).

Section PathFacts.
Context {D : Type} {driver : FTPDriver D}.
Variable env : Env.

Lemma Execute_paths cmd param :
  maintains pathsCanonical canonicalCall (Execute (D := D) env cmd param).
Proof. destruct cmd; cbn [Execute]; paths_tac. Qed.

Lemma receiveLine_paths line :
  maintains pathsCanonical canonicalCall (receiveLine (D := D) env line).
Proof.
  unfold receiveLine. destruct (parseLine line) as [command param].
  destruct (lookup commands command) as [cmd|]; [|paths_tac].
  destruct (RequireParam cmd && (param =? "")%string); [paths_tac|].
  apply maintains_getConn_bind. intros c Hc.
  destruct (RequireAuth cmd && (user c =? "")%string); [paths_tac|].
  apply Execute_paths.
Qed.

Lemma readCommands_paths lines :
  maintains pathsCanonical canonicalCall (readCommands (D := D) env lines).
Proof.
  induction lines as [|line rest IH]; cbn [readCommands]; [paths_tac|].
  apply maintains_bind; [apply receiveLine_paths|intros _; exact IH].
Qed.

Lemma closeDataEvents_canonical c : forallb canonicalCall (closeDataEvents c) = true.
Proof. unfold closeDataEvents. destruct (dataConn c); reflexivity. Qed.

(** X9: In a session that starts with a canonical working directory and no
    rename source, or a canonical one, every path that [Serve] hands to
    the driver, in any operation, is a canonical absolute path, and the
    working directory is still one at the end. *)
Theorem Serve_driver_paths lines (w : world D) :
  pathsCanonical (wConn w) ->
  let w' := snd (Serve env lines w) in
  forallb canonicalCall (newEvents (wTrace w) (wTrace w')) = true
  /\ canonicalAbs (namePrefix (wConn w')) = true.
Proof.
  intros Hc. cbv zeta. pose proof (Serve_run env lines w) as H. cbv zeta in H.
  set (greet := EvWrite 220 (serverName (wConn w))) in *.
  set (w0 := extend w [greet]) in *.
  destruct (readCommands_paths lines w0 Hc) as [[Hn _] (evs & Ht & Hevs)].
  set (w1 := match ioError env (wTrace w ++ [greet]) with
             | Some _ => w0
             | None => snd (readCommands env lines w0)
             end) in *.
  assert (H1 : canonicalAbs (namePrefix (wConn w1)) = true
               /\ exists evs1, wTrace w1 = (wTrace w ++ greet :: evs1)%list
                               /\ forallb canonicalCall evs1 = true).
  { subst w1. destruct (ioError env (wTrace w ++ [greet])).
    - split; [apply Hc|]. exists []. split; reflexivity.
    - split; [exact Hn|]. exists evs. split; [|assumption].
      rewrite Ht. subst w0. cbn. rewrite <- app_assoc. reflexivity. }
  destruct H1 as (Hn1 & evs1 & Ht1 & Hevs1).
  destruct H as [[H _]|H]; rewrite H; cbn [snd].
  - split; [|exact Hn1]. rewrite Ht1, newEvents_app. cbn. exact Hevs1.
  - split; [|exact Hn1].
    unfold extend. cbn [wTrace]. rewrite Ht1, <- app_assoc, newEvents_app.
    change ((greet :: evs1) ++ ?l)%list with (greet :: (evs1 ++ l))%list.
    cbn [forallb canonicalCall greet andb].
    rewrite forallb_app, Hevs1. cbn [forallb canonicalCall andb].
    apply closeDataEvents_canonical.
Qed.

End PathFacts.

Lemma Serve_driver_paths_witness :
  pathsCanonical (wConn freshWorld)
  /\ forallb canonicalCall
       (newEvents (wTrace freshWorld)
          (wTrace (snd (Serve sampleEnv
                          ["USER test" ++ CRLF; "PASS 1234" ++ CRLF;
                           "CWD ../files/./x/.." ++ CRLF; "RNFR ../../etc/passwd" ++ CRLF;
                           "RNTO //tmp//x" ++ CRLF; "SIZE ../../one.txt" ++ CRLF]
                          freshWorld))))
     = true
  /\ canonicalAbs
       (namePrefix
          (wConn (snd (Serve sampleEnv
                         ["USER test" ++ CRLF; "PASS 1234" ++ CRLF;
                          "CWD ../files/./x/.." ++ CRLF; "RNFR ../../etc/passwd" ++ CRLF;
                          "RNTO //tmp//x" ++ CRLF; "SIZE ../../one.txt" ++ CRLF]
                         freshWorld))))
     = true.
Proof.
  split; [split; [reflexivity|left; reflexivity]|].
  exact (Serve_driver_paths sampleEnv _ freshWorld
           (conj eq_refl (or_introl eq_refl))).
Defined.

(** ** Sequences of commands *)

Lemma Clean_nonempty path : Filepath.Clean path <> "".
Proof.
  rewrite Clean_by_elems. unfold Filepath.CleanElems.
  destruct path as [|c t]; [discriminate|].
  destruct (Strings.HasPrefix (String c t) "/"); [discriminate|].
  assert (HF : Forall (fun e => e <> "")
                 (Filepath.cleanElems false (Strings.Split (String c t) "/"))).
  { unfold Filepath.cleanElems. apply Forall_rev, fold_cleanStep_nonempty. constructor. }
  destruct (Filepath.cleanElems false (Strings.Split (String c t) "/")) as [|e rest];
    [discriminate|].
  inversion HF as [|? ? He _]; subst.
  destruct rest; cbn [Strings.Join]; [exact He|].
  destruct e; [congruence|discriminate].
Qed.

Lemma ReplaceAll_nonempty s : s <> "" -> Strings.ReplaceAll s "//" "/" <> "".
Proof.
  destruct s as [|c r]; [congruence|]. intros _.
  unfold Strings.ReplaceAll. cbn [Strings.replaceFrom].
  destruct (Strings.HasPrefix (String c r) "//"); discriminate.
Qed.

(** [buildPath] never returns the empty string. *)
Lemma buildPath_nonempty c s : buildPath c s <> "".
Proof.
  unfold buildPath. apply ReplaceAll_nonempty.
  destruct ((0 <? String.length s)%nat && (substring 0 1 s =? "/")%string);
    [apply Clean_nonempty|].
  destruct (0 <? String.length s)%nat; apply Clean_nonempty.
Qed.

Section SequenceFacts.
Context {D : Type} {driver : FTPDriver D}.
Variable env : Env.

Tactic Notation "run" uconstr(H) := rewrite (bind_run _ _ _ _ _ H).

(** A line that passes the three gates of [receiveLine] runs its
    handler. *)
Lemma receiveLine_Execute (w : world D) line command param cmd :
  parseLine line = (command, param) ->
  lookup commands command = Some cmd ->
  (RequireParam cmd = true -> param <> "") ->
  (RequireAuth cmd = true -> user (wConn w) <> "") ->
  receiveLine env line w = Execute env cmd param w.
Proof.
  intros Hparse Hcmd Hparam Hauth. unfold receiveLine. rewrite Hparse, Hcmd.
  replace (RequireParam cmd && (param =? "")%string) with false.
  - run (getConn_run w).
    replace (RequireAuth cmd && (user (wConn w) =? "")%string) with false; [reflexivity|].
    symmetry. destruct (RequireAuth cmd); [|reflexivity].
    apply String.eqb_neq, Hauth. reflexivity.
  - symmetry. destruct (RequireParam cmd); [|reflexivity].
    apply String.eqb_neq, Hparam. reflexivity.
Qed.

Lemma commandUser_Execute_run (w : world D) param :
  commandUser_Execute env param w
  = (Ret (ioError env (wTrace w ++ [EvWrite 331 "User name ok, password required"])),
     mkWorld (set_reqUser param (wConn w)) (wDriver w)
             (wTrace w ++ [EvWrite 331 "User name ok, password required"])).
Proof.
  unfold commandUser_Execute. run (modifyConn_run _ w). rewrite reply_run. reflexivity.
Qed.

(** X10: USER [u] followed by PASS [p], both not empty, on any session:
    331 is written and the driver is asked once, about [u], [p] and the
    remote address.  If it answers true without error, 230 is written and
    the session is logged in as [u] with [reqUser] cleared; otherwise 530
    and 221 are written, the connection is closed, [user] is unchanged and
    [reqUser] stays [u]. *)
Theorem login_sequence (w : world D) l1 l2 u p :
  parseLine l1 = ("USER", u) -> u <> "" ->
  parseLine l2 = ("PASS", p) -> p <> "" ->
  let r := Authenticate u p (remoteIP env) (wDriver w) in
  let call := EvDriver (CallAuthenticate u p (remoteIP env)) in
  exists w',
    readCommands env [l1; l2] w = (Ret tt, w')
    /\ wDriver w' = snd r
    /\ match fst r with
       | (true, None) =>
           user (wConn w') = u /\ reqUser (wConn w') = ""
           /\ wTrace w'
              = (wTrace w ++ [EvWrite 331 "User name ok, password required"; call;
                              EvWrite 230 "Password ok, continue"])%list
       | _ =>
           user (wConn w') = user (wConn w) /\ reqUser (wConn w') = u
           /\ wTrace w'
              = (wTrace w ++ [EvWrite 331 "User name ok, password required"; call;
                              EvWrite 530 "Incorrect password, not logged in";
                              EvWrite 221 "Goodbye."; EvCloseControl]
                 ++ closeDataEvents (wConn w))%list
       end.
Proof.
  intros H1 Hu H2 Hp. cbv zeta. cbn [readCommands].
  assert (E1 : receiveLine env l1 w = Execute env commandUser u w).
  { apply (receiveLine_Execute w l1 "USER" u commandUser H1 eq_refl);
      [intros _; exact Hu|discriminate]. }
  cbn [Execute] in E1. rewrite commandUser_Execute_run in E1. run E1.
  set (w1 := mkWorld _ _ _).
  assert (E2 : receiveLine env l2 w1 = Execute env commandPass p w1).
  { apply (receiveLine_Execute w1 l2 "PASS" p commandPass H2 eq_refl);
      [intros _; exact Hp|discriminate]. }
  cbn [Execute] in E2.
  destruct (commandPass_Execute_run env w1 p) as [result E3]. rewrite E3 in E2. run E2.
  unfold ret. eexists. split; [reflexivity|].
  subst w1. cbn [wConn wDriver wTrace reqUser set_reqUser].
  destruct (Authenticate u p (remoteIP env) (wDriver w)) as [[ok err] d'].
  cbn [fst snd].
  destruct ok, err as [e|]; cbn [wConn wDriver wTrace user reqUser set_reqUser set_user
                                closeDataEvents dataConn];
    rewrite <- ?app_assoc; auto.
Qed.

Lemma commandRnfr_Execute_run (w : world D) param :
  commandRnfr_Execute env param w
  = (Ret (ioError env (wTrace w ++ [EvWrite 350 "Requested file action pending further information."])),
     mkWorld (set_renameFrom (buildPath (wConn w) param) (wConn w)) (wDriver w)
             (wTrace w ++ [EvWrite 350 "Requested file action pending further information."])).
Proof.
  unfold commandRnfr_Execute. run (modifyConn_run _ w). rewrite reply_run. reflexivity.
Qed.

(** [RNTO] with a pending source, by the driver's answer. *)
Lemma commandRnto_Execute_run (w : world D) param :
  renameFrom (wConn w) <> "" ->
  let toPath := buildPath (wConn w) param in
  let r := Rename (renameFrom (wConn w)) toPath (wDriver w) in
  exists result,
    commandRnto_Execute env param w
    = (Ret result,
       mkWorld (wConn w) (snd r)
         (wTrace w ++ EvDriver (CallRename (renameFrom (wConn w)) toPath)
                      :: match fst r with
                         | (_, Some _) => []
                         | (true, None) => [EvWrite 250 "File renamed"]
                         | (false, None) => [EvWrite 550 "Action not taken"]
                         end)).
Proof.
  intros Hne. cbv zeta. unfold commandRnto_Execute. run (getConn_run w).
  apply String.eqb_neq in Hne. rewrite Hne. cbv zeta.
  run (callDriver_run _ _ w).
  destruct (Rename _ _ _) as [[ok err] d']. cbn [fst snd].
  destruct ok, err as [e|]; try rewrite reply_run; unfold ret, extend;
    cbn [wConn wDriver wTrace]; rewrite <- ?app_assoc; eexists; reflexivity.
Qed.

(** X11: RNFR [a] followed by RNTO [b] on a logged-in session: 350 is
    written, the driver's [Rename] is called once with the two paths that
    [buildPath] makes of [a] and [b], and then 250 is written if it
    answers true, 550 if it answers false, and nothing at all if it
    returns an error.  The source path stays in [renameFrom] afterwards. *)
Theorem rename_sequence (w : world D) l1 l2 a b :
  user (wConn w) <> "" ->
  parseLine l1 = ("RNFR", a) -> a <> "" ->
  parseLine l2 = ("RNTO", b) -> b <> "" ->
  let c := wConn w in
  let r := Rename (buildPath c a) (buildPath c b) (wDriver w) in
  exists w',
    readCommands env [l1; l2] w = (Ret tt, w')
    /\ wDriver w' = snd r
    /\ wConn w' = set_renameFrom (buildPath c a) c
    /\ wTrace w'
       = (wTrace w
          ++ [EvWrite 350 "Requested file action pending further information.";
              EvDriver (CallRename (buildPath c a) (buildPath c b))]
          ++ match fst r with
             | (_, Some _) => []
             | (true, None) => [EvWrite 250 "File renamed"]
             | (false, None) => [EvWrite 550 "Action not taken"]
             end)%list.
Proof.
  intros Hu H1 Ha H2 Hb. cbv zeta. cbn [readCommands].
  assert (E1 : receiveLine env l1 w = Execute env commandRnfr a w).
  { apply (receiveLine_Execute w l1 "RNFR" a commandRnfr H1 eq_refl);
      intros _; assumption. }
  cbn [Execute] in E1. rewrite commandRnfr_Execute_run in E1. run E1.
  set (w1 := mkWorld _ _ _).
  assert (E2 : receiveLine env l2 w1 = Execute env commandRnto b w1).
  { apply (receiveLine_Execute w1 l2 "RNTO" b commandRnto H2 eq_refl);
      intros _; assumption. }
  cbn [Execute] in E2.
  destruct (commandRnto_Execute_run w1 b) as [result E3].
  { subst w1. cbn [wConn renameFrom set_renameFrom]. apply buildPath_nonempty. }
  rewrite E3 in E2. run E2. unfold ret. eexists. split; [reflexivity|].
  subst w1. cbn [wConn wDriver wTrace renameFrom set_renameFrom].
  assert (Hb2 : buildPath (set_renameFrom (buildPath (wConn w) a) (wConn w)) b
                = buildPath (wConn w) b) by reflexivity.
  rewrite Hb2. split; [reflexivity|]. split; [reflexivity|].
  rewrite <- app_assoc. reflexivity.
Qed.

(** [CWD], by the driver's answer. *)
Lemma commandCwd_Execute_run (w : world D) param :
  let path := buildPath (wConn w) param in
  let r := ChangeDir path (wDriver w) in
  exists result,
    commandCwd_Execute env param w
    = (Ret result,
       match fst r with
       | (_, Some _) =>
           mkWorld (wConn w) (snd r) (wTrace w ++ [EvDriver (CallChangeDir path)])
       | (true, None) =>
           mkWorld (set_namePrefix path (wConn w)) (snd r)
                   (wTrace w ++ [EvDriver (CallChangeDir path);
                                 EvWrite 250 ("Directory changed to " ++ path)])
       | (false, None) =>
           mkWorld (wConn w) (snd r)
                   (wTrace w ++ [EvDriver (CallChangeDir path);
                                 EvWrite 550 "Action not taken"])
       end)
    /\ match fst r with
       | (_, Some e) =>
           result = Some (wrapError ("failed to execute CWD path: " ++ path ++ " - ") e)
       | _ => True
       end.
Proof.
  cbv zeta. unfold commandCwd_Execute. run (getConn_run w). cbv zeta.
  run (callDriver_run _ _ w).
  destruct (ChangeDir _ _) as [[ok err] d']. cbn [fst snd].
  destruct ok, err as [e|]; try (run (modifyConn_run _ _)); try rewrite reply_run;
    unfold ret, extend; cbn [wConn wDriver wTrace]; rewrite <- ?app_assoc;
    eexists; (split; [reflexivity|]); auto.
Qed.

(** X12: CWD asks the driver's [ChangeDir] once about the built path: on
    true without error the path becomes the working directory and 250 is
    written with it; on false 550 is written, on an error nothing is
    written, and in both cases the session is unchanged.  CDUP is CWD with
    the parameter of two dots, whatever parameter it was given. *)
Theorem commandCwd_Execute_spec (w : world D) param ok err d' :
  let path := buildPath (wConn w) param in
  ChangeDir path (wDriver w) = ((ok, err), d') ->
  exists result w',
    commandCwd_Execute env param w = (Ret result, w')
    /\ wDriver w' = d'
    /\ wTrace w'
       = (wTrace w
          ++ EvDriver (CallChangeDir path)
             :: match err with
                | Some _ => []
                | None => [if ok then EvWrite 250 ("Directory changed to " ++ path)
                           else EvWrite 550 "Action not taken"]
                end)%list
    /\ wConn w' = (if ok && match err with None => true | Some _ => false end
                   then set_namePrefix path (wConn w) else wConn w)
    /\ commandCdup_Execute env param w = commandCwd_Execute env ".." w.
Proof.
  cbv zeta. intros HC.
  destruct (commandCwd_Execute_run w param) as (result & E & _). cbv zeta in E.
  rewrite HC in E. cbn [fst snd] in E. rewrite E.
  destruct ok, err as [e|]; do 2 eexists; (split; [reflexivity|]); cbn; auto.
Qed.

End SequenceFacts.

(** X13: Changing to a directory and then naming a file is naming the file
    through the directory: for [d] not empty and a relative [f] not empty,
    [buildPath] of [f] in the session whose working directory is
    [buildPath] of [d] equals [buildPath] of [d/f] in the session before. *)
Theorem buildPath_after_cwd c kept d f :
  Forall (fun e => realElem e = true) kept ->
  namePrefix c = rootedJoin kept ->
  d <> "" -> f <> "" -> Strings.HasPrefix f "/" = false ->
  buildPath (set_namePrefix (buildPath c d) c) f = buildPath c (d ++ "/" ++ f).
Proof.
  intros HF Hn Hd Hf Hrel.
  rewrite (buildPath_by_elems (set_namePrefix (buildPath c d) c) (resolve kept d) f);
    [|apply resolve_real, HF|cbn [namePrefix set_namePrefix]; apply buildPath_by_elems; assumption].
  rewrite (buildPath_by_elems c kept (d ++ "/" ++ f) HF Hn).
  f_equal. unfold resolve. rewrite Hrel.
  change (d ++ "/" ++ f) with (d ++ String "/" f).
  rewrite Split_app, fold_left_app, rev_involutive.
  replace (Strings.HasPrefix (d ++ String "/" f) "/") with (Strings.HasPrefix d "/");
    [reflexivity|].
  destruct d as [|ch t]; [congruence|]. reflexivity.
Qed.

(** ** The active mode: [PORT] and [EPRT] *)

Lemma digits_range maxVal s : forall acc v,
  0 <= acc <= maxVal -> Strconv.digits maxVal s acc = inl v -> 0 <= v <= maxVal.
Proof.
  induction s as [|c r IH]; intros acc v Hacc; cbn [Strconv.digits].
  - intros H. inversion H; subst. assumption.
  - unfold Strconv.digitVal. cbv zeta.
    set (n := Z.of_N (N_of_ascii c)).
    destruct ((48 <=? n) && (n <=? 57)) eqn:E; [|discriminate].
    apply andb_true_iff in E as [E1 E2]. apply Z.leb_le in E1, E2.
    destruct (maxVal <? 10 * acc + (n - 48)) eqn:Hmax; [discriminate|].
    apply Z.ltb_ge in Hmax. apply IH. lia.
Qed.

Lemma ParseUint_range s v : Strconv.ParseUint s 16 = inl v -> 0 <= v < 65536.
Proof.
  unfold Strconv.ParseUint. destruct s as [|c r]; [discriminate|].
  intros H. apply digits_range in H; [|lia].
  change (2 ^ 16 - 1) with 65535 in H. lia.
Qed.

(** The decimal numerals of the bytes are read back by [ParseUint]. *)
Lemma Itoa_readsBack n :
  0 <= n < 256 ->
  Strconv.ParseUint (Strconv.Itoa n) 16 = inl n /\ hasByte "," (Strconv.Itoa n) = false.
Proof.
  intros Hn.
  assert (Hall : forallb readsBack (seq 0 256) = true) by (vm_compute; reflexivity).
  rewrite forallb_forall in Hall.
  assert (Hin : In (Z.to_nat n) (seq 0 256)) by (apply in_seq; lia).
  specialize (Hall _ Hin). unfold readsBack in Hall.
  rewrite Z2Nat.id in Hall by lia.
  destruct (Strconv.ParseUint (Strconv.Itoa n) 16) as [v|e]; [|discriminate].
  apply andb_true_iff in Hall as [H1 H2]. apply Z.eqb_eq in H1.
  apply negb_true_iff in H2. subst v. auto.
Qed.

Section ActiveFacts.
Context {D : Type} {driver : FTPDriver D}.
Variable env : Env.

Tactic Notation "run" uconstr(H) := rewrite (bind_run _ _ _ _ _ H).

(** [ftpConn.newActiveSocket], by the outcome of the dial. *)
Lemma newActiveSocket_run (w : world D) host port :
  newActiveSocket env host port w
  = match ioError env (activeHistory w host port) with
    | Some e =>
        (Ret (None, Some e),
         mkWorld (set_dataConn None (wConn w)) (wDriver w) (activeHistory w host port))
    | None =>
        (Ret (Some (ftpActiveSocket host port), None),
         mkWorld (set_dataConn (Some (ftpActiveSocket host port)) (wConn w)) (wDriver w)
                 (activeHistory w host port))
    end.
Proof.
  unfold newActiveSocket. unfold bind at 1. rewrite closePreviousDataConn_run.
  unfold bind at 1. unfold dialActive. unfold bind at 1. rewrite io_run.
  unfold activeHistory, extend. cbn [wTrace wConn wDriver]. rewrite <- !app_assoc.
  destruct (ioError env _) as [e|]; unfold bind, ret, modifyConn; cbn; reflexivity.
Qed.

(** The common ending of [PORT] and [EPRT]: dial, then 200 or 425. *)
Lemma dial_and_reply (w : world D) host port shown :
  exists result,
    (r <- newActiveSocket env host port ;;
     match snd r with
     | Some err =>
         r2 <- writeMessage env 425 "Data connection failed" ;;
         ret (appendIfError (multierror_Append None err) (snd r2))
     | None => reply env 200 ("Connection established (" ++ Strconv.Itoa shown ++ ")")
     end)%go w
    = (Ret result,
       match ioError env (activeHistory w host port) with
       | Some _ =>
           mkWorld (set_dataConn None (wConn w)) (wDriver w)
                   (activeHistory w host port ++ [EvWrite 425 "Data connection failed"])
       | None =>
           mkWorld (set_dataConn (Some (ftpActiveSocket host port)) (wConn w)) (wDriver w)
                   (activeHistory w host port
                    ++ [EvWrite 200 ("Connection established (" ++ Strconv.Itoa shown ++ ")")])
       end).
Proof.
  unfold bind at 1. rewrite newActiveSocket_run.
  destruct (ioError env (activeHistory w host port)) as [e|]; cbn [snd].
  - destruct (writeMessage_run env 425 "Data connection failed"
                (mkWorld (set_dataConn None (wConn w)) (wDriver w)
                         (activeHistory w host port))) as [n Hw].
    run Hw. unfold ret. eexists. reflexivity.
  - rewrite reply_run. eexists. reflexivity.
Qed.

(** [PORT] with six fields and two numbers that parse. *)
Lemma commandPort_Execute_run (w : world D) param n0 n1 n2 n3 n4 n5 more a b :
  Strings.Split param "," = n0 :: n1 :: n2 :: n3 :: n4 :: n5 :: more ->
  Strconv.ParseUint n4 16 = inl a ->
  Strconv.ParseUint n5 16 = inl b ->
  let host := n0 ++ "." ++ n1 ++ "." ++ n2 ++ "." ++ n3 in
  let port := uint16 (a * 256 + b) in
  exists result,
    commandPort_Execute env param w
    = (Ret result,
       match ioError env (activeHistory w host port) with
       | Some _ =>
           mkWorld (set_dataConn None (wConn w)) (wDriver w)
                   (activeHistory w host port ++ [EvWrite 425 "Data connection failed"])
       | None =>
           mkWorld (set_dataConn (Some (ftpActiveSocket host port)) (wConn w)) (wDriver w)
                   (activeHistory w host port
                    ++ [EvWrite 200 ("Connection established (" ++ Strconv.Itoa port ++ ")")])
       end).
Proof.
  intros Hs Ha Hb. cbv zeta. unfold commandPort_Execute. cbv zeta.
  rewrite Hs. cbn [List.length Nat.ltb Nat.leb index nth_error].
  unfold bind at 1. unfold ret at 1. cbv beta iota. rewrite Ha.
  unfold bind at 1. unfold ret at 1. cbv beta iota. rewrite Hb.
  unfold bind at 1. unfold ret at 1. cbv beta iota.
  unfold bind at 1. unfold ret at 1. cbv beta iota.
  unfold bind at 1. unfold ret at 1. cbv beta iota.
  unfold bind at 1. unfold ret at 1. cbv beta iota.
  apply dial_and_reply.
Qed.

(** X14: PORT with six or more comma-separated fields of which the fifth
    and the sixth read as 16-bit numbers [a] and [b]: the previous data
    socket is closed and the first four fields, joined by dots, are
    dialled on the port [a * 256 + b] modulo 65536.  If the dial succeeds
    the active socket becomes [dataConn] and 200 is written with the port;
    if not, [dataConn] is nil and 425 is written. *)
Theorem commandPort_Execute_spec (w : world D) param n0 n1 n2 n3 n4 n5 more a b :
  Strings.Split param "," = n0 :: n1 :: n2 :: n3 :: n4 :: n5 :: more ->
  Strconv.ParseUint n4 16 = inl a ->
  Strconv.ParseUint n5 16 = inl b ->
  let host := n0 ++ "." ++ n1 ++ "." ++ n2 ++ "." ++ n3 in
  let port := (a * 256 + b) mod 65536 in
  exists result w',
    commandPort_Execute env param w = (Ret result, w')
    /\ wDriver w' = wDriver w
    /\ match ioError env (activeHistory w host port) with
       | None =>
           dataConn (wConn w') = Some (ftpActiveSocket host port)
           /\ wTrace w'
              = (activeHistory w host port
                 ++ [EvWrite 200 ("Connection established (" ++ Strconv.Itoa port ++ ")")])%list
       | Some _ =>
           dataConn (wConn w') = None
           /\ wTrace w'
              = (activeHistory w host port ++ [EvWrite 425 "Data connection failed"])%list
       end.
Proof.
  intros Hs Ha Hb. cbv zeta.
  destruct (commandPort_Execute_run w param n0 n1 n2 n3 n4 n5 more a b Hs Ha Hb)
    as [result E]. cbv zeta in E. unfold uint16 in E. rewrite E.
  do 2 eexists. split; [reflexivity|].
  destruct (ioError env _); cbn; auto.
Qed.

(** X15: PORT with six or more fields of which the fifth or the sixth does
    not read as a 16-bit number returns the parse error and does nothing
    else: no reply is written and the session, its data socket included,
    is unchanged. *)
Theorem commandPort_Execute_bad_number (w : world D) param n0 n1 n2 n3 n4 n5 more e :
  Strings.Split param "," = n0 :: n1 :: n2 :: n3 :: n4 :: n5 :: more ->
  Strconv.ParseUint n4 16 = inr e
  \/ (exists a, Strconv.ParseUint n4 16 = inl a /\ Strconv.ParseUint n5 16 = inr e) ->
  commandPort_Execute env param w = (Ret (Some e), w).
Proof.
  intros Hs H. unfold commandPort_Execute. cbv zeta.
  rewrite Hs. cbn [List.length Nat.ltb Nat.leb index nth_error].
  unfold bind at 1. unfold ret at 1. cbv beta iota.
  destruct H as [H|(a & Ha & H)].
  - rewrite H. reflexivity.
  - rewrite Ha. unfold bind at 1. unfold ret at 1. cbv beta iota. rewrite H. reflexivity.
Qed.

(** X16: PORT reads back what PASV writes: for four host fields without a
    comma and a port [P] from 1 to 65535, the parameter made of the four
    fields and of the two numbers that PASV computes from [P] makes PORT
    dial that host on the port [P]. *)
Theorem port_reads_pasv_tuple (w : world D) h1 h2 h3 h4 P :
  0 < P < 65536 ->
  hasByte "," h1 = false -> hasByte "," h2 = false ->
  hasByte "," h3 = false -> hasByte "," h4 = false ->
  let p1 := P / 256 in
  let p2 := uint16 (P - uint16 (p1 * 256)) in
  let param := h1 ++ "," ++ h2 ++ "," ++ h3 ++ "," ++ h4 ++ ","
               ++ Strconv.Itoa p1 ++ "," ++ Strconv.Itoa p2 in
  let host := h1 ++ "." ++ h2 ++ "." ++ h3 ++ "." ++ h4 in
  exists result w' reply,
    commandPort_Execute env param w = (Ret result, w')
    /\ wTrace w' = (activeHistory w host P ++ [reply])%list.
Proof.
  intros HP H1 H2 H3 H4. cbv zeta.
  assert (Hp2 : uint16 (P - uint16 (P / 256 * 256)) = P mod 256).
  { unfold uint16. pose proof (Z.div_mod P 256 ltac:(lia)) as Hdm.
    pose proof (Z.mod_pos_bound P 256 ltac:(lia)) as Hb.
    assert (0 <= P / 256) by (apply Z.div_pos; lia).
    rewrite (Z.mod_small (P / 256 * 256)) by lia.
    rewrite Z.mod_small by lia. lia. }
  rewrite Hp2.
  assert (Hr1 : 0 <= P / 256 < 256)
    by (split; [apply Z.div_pos; lia|apply Z.div_lt_upper_bound; lia]).
  pose proof (Z.mod_pos_bound P 256 ltac:(lia)) as Hr2.
  destruct (Itoa_readsBack (P / 256) Hr1) as [Ha Hc1].
  destruct (Itoa_readsBack (P mod 256) Hr2) as [Hb Hc2].
  set (param := h1 ++ _).
  assert (Hs : Strings.Split param ","
               = [h1; h2; h3; h4; Strconv.Itoa (P / 256); Strconv.Itoa (P mod 256)]).
  { subst param.
    change (h1 ++ "," ++ ?t) with (h1 ++ String "," t).
    rewrite Split_app_sep by assumption. f_equal.
    change (h2 ++ "," ++ ?t) with (h2 ++ String "," t).
    rewrite Split_app_sep by assumption. f_equal.
    change (h3 ++ "," ++ ?t) with (h3 ++ String "," t).
    rewrite Split_app_sep by assumption. f_equal.
    change (h4 ++ "," ++ ?t) with (h4 ++ String "," t).
    rewrite Split_app_sep by assumption. f_equal.
    change (Strconv.Itoa (P / 256) ++ "," ++ ?t) with (Strconv.Itoa (P / 256) ++ String "," t).
    rewrite Split_app_sep by assumption. f_equal.
    apply Split_single. assumption. }
  destruct (commandPort_Execute_run w param _ _ _ _ _ _ _ _ _ Hs Ha Hb) as [result E].
  cbv zeta in E.
  assert (Hport : uint16 (P / 256 * 256 + P mod 256) = P).
  { unfold uint16. pose proof (Z.div_mod P 256 ltac:(lia)) as Hdm.
    rewrite Z.mod_small; lia. }
  rewrite Hport in E. rewrite E.
  destruct (ioError env _); do 3 eexists; split; reflexivity.
Qed.

(** X17: EPRT splits its parameter at the parameter's own first byte.
    With three or more fields after it, the family a number and the port a
    16-bit number: a family other than 1 and 2 is answered by 522 and
    leaves the session unchanged; otherwise the previous data socket is
    closed and the host is dialled on the port, with 200 and the active
    socket in [dataConn] if the dial succeeds, 425 and a nil [dataConn] if
    not. *)
Theorem commandEprt_Execute_spec (w : world D) d rest x af host portS more family port :
  Strings.Split (String d rest) d = x :: af :: host :: portS :: more ->
  Strconv.Atoi af = inl family ->
  Strconv.ParseUint portS 16 = inl port ->
  exists result w',
    commandEprt_Execute env (String d rest) w = (Ret result, w')
    /\ wDriver w' = wDriver w
    /\ if (family =? 1) || (family =? 2)
       then match ioError env (activeHistory w host port) with
            | None =>
                dataConn (wConn w') = Some (ftpActiveSocket host port)
                /\ wTrace w'
                   = (activeHistory w host port
                      ++ [EvWrite 200 ("Connection established (" ++ Strconv.Itoa port
                                       ++ ")")])%list
            | Some _ =>
                dataConn (wConn w') = None
                /\ wTrace w'
                   = (activeHistory w host port
                      ++ [EvWrite 425 "Data connection failed"])%list
            end
       else wConn w' = wConn w
            /\ wTrace w'
               = (wTrace w ++ [EvWrite 522 "Network protocol not supported, use (1,2)"])%list.
Proof.
  intros Hs Ha Hp. unfold commandEprt_Execute. cbv zeta.
  rewrite Hs. cbn [index nth_error].
  unfold bind at 1. unfold ret at 1. cbv beta iota. rewrite Ha.
  unfold bind at 1. unfold ret at 1. cbv beta iota.
  unfold bind at 1. unfold ret at 1. cbv beta iota. rewrite Hp.
  pose proof (ParseUint_range portS port Hp) as Hr.
  assert (Hu : uint16 port = port) by (unfold uint16; apply Z.mod_small; lia).
  rewrite Hu.
  destruct (family =? 1) eqn:E1; cbn [negb andb orb].
  - destruct (dial_and_reply w host port port) as [result ->].
    do 2 eexists. split; [reflexivity|]. destruct (ioError env _); cbn; auto.
  - destruct (family =? 2) eqn:E2; cbn [negb andb orb].
    + destruct (dial_and_reply w host port port) as [result ->].
      do 2 eexists. split; [reflexivity|]. destruct (ioError env _); cbn; auto.
    + rewrite reply_run. do 2 eexists. split; [reflexivity|]. cbn. auto.
Qed.

End ActiveFacts.

(** ** The passive mode and the life of the data socket *)

Section PassiveFacts.
Context {D : Type} {driver : FTPDriver D}.
Variable env : Env.

Tactic Notation "run" uconstr(H) := rewrite (bind_run _ _ _ _ _ H).

(** X18: EPSV, when the passive listener publishes the port [P], from 1 to
    65535: the previous data socket is closed, a passive socket on the
    local address and [P] becomes [dataConn], and the single reply is 229
    with [P] in decimal between three bars and one bar; the handler
    returns the error of that write. *)
Theorem commandEpsv_Execute_spec (w : world D) param P :
  passivePort env (passiveHistory env w) = Some P ->
  0 < P < 65536 ->
  let socket := ftpPassiveSocket (localIP env) P in
  let reply := EvWrite 229 ("Entering Extended Passive Mode (|||" ++ Strconv.Itoa P ++ "|)") in
  commandEpsv_Execute env param w
  = (Ret (ioError env (passiveHistory env w ++ [reply])),
     mkWorld (set_dataConn (Some socket) (wConn w)) (wDriver w)
             (passiveHistory env w ++ [reply])).
Proof.
  intros HP Hr. cbv zeta. unfold commandEpsv_Execute.
  run (newPassiveSocket_run env w P HP Hr). cbn [Port].
  rewrite reply_run. reflexivity.
Qed.

(** X19: When the passive listener publishes no port, or only the port
    zero, PASV and EPSV do not return: the wait for the port has no bound.
    No reply has been written, the previous data socket has been closed
    and [dataConn] is nil. *)
Theorem passive_without_port_hangs (w : world D) cmd param :
  cmd = commandPasv \/ cmd = commandEpsv ->
  (forall P, passivePort env (passiveHistory env w) = Some P -> uint16 P = 0) ->
  Execute env cmd param w
  = (Hang, mkWorld (set_dataConn None (wConn w)) (wDriver w) (passiveHistory env w)).
Proof.
  intros Hcmd Hnone.
  assert (E : newPassiveSocket env w
              = (Hang, mkWorld (set_dataConn None (wConn w)) (wDriver w)
                               (passiveHistory env w))).
  { destruct (newPassiveSocket_cases env w) as [(P & HP & Hpos & _)|(_ & E)]; [|exact E].
    rewrite (Hnone P HP) in Hpos. lia. }
  destruct Hcmd as [->| ->]; cbn [Execute].
  - unfold commandPasv_Execute, bind. rewrite E. reflexivity.
  - unfold commandEpsv_Execute, bind. rewrite E. reflexivity.
Qed.

(** X20: PASV panics on an index out of range when the host to announce
    (the advertised address, or the local address if none is configured)
    has fewer than four dot-separated fields, as a host name or an IPv6
    address may: the passive socket is open and attached by then, and no
    reply has been written. *)
Theorem commandPasv_short_host_panics (w : world D) param P :
  passivePort env (passiveHistory env w) = Some P ->
  0 < P < 65536 ->
  let host := if (pasvAdvertisedIp (wConn w) =? "")%string then localIP env
              else pasvAdvertisedIp (wConn w) in
  (List.length (Strings.Split host ".") < 4)%nat ->
  commandPasv_Execute env param w
  = (Panic "index out of range",
     mkWorld (set_dataConn (Some (ftpPassiveSocket (localIP env) P)) (wConn w))
             (wDriver w) (passiveHistory env w)).
Proof.
  intros HP Hr. cbv zeta. intros Hlen. unfold commandPasv_Execute.
  run (newPassiveSocket_run env w P HP Hr). cbv zeta.
  run (getConn_run _). cbn [wConn pasvAdvertisedIp set_dataConn Host].
  set (host := if (pasvAdvertisedIp (wConn w) =? "")%string then localIP env
               else pasvAdvertisedIp (wConn w)) in *.
  destruct (Strings.Split host ".") as [|q0 [|q1 [|q2 [|q3 more]]]];
    cbn [List.length] in Hlen; try lia; reflexivity.
Qed.

Lemma sendOutOfBandReader_without_socket (w : world D) data :
  dataConn (wConn w) = None ->
  sendOutOfBandReader env data w
  = (Panic "invalid memory address or nil pointer dereference", w).
Proof.
  intros H. unfold sendOutOfBandReader. run (getConn_run w). rewrite H. reflexivity.
Qed.

(** X21: RETR, LIST and NLST on a session without a data socket either
    panic on a nil dereference or return an error; they copy nothing,
    write no 226, and leave the session record unchanged. *)
Theorem transfer_without_data_socket (w : world D) cmd param :
  cmd = commandRetr \/ cmd = commandList \/ cmd = commandNlst ->
  dataConn (wConn w) = None ->
  exists w' evs,
    (Execute env cmd param w
     = (Panic "invalid memory address or nil pointer dereference", w')
     \/ exists e, Execute env cmd param w = (Ret (Some e), w'))
    /\ wTrace w' = (wTrace w ++ evs)%list
    /\ forallb noTransfer evs = true
    /\ wConn w' = wConn w.
Proof.
  intros Hcmd Hd.
  assert (Hlist : forall (render : list FileInfo -> string) label,
    exists w' evs,
      ((r <- writeMessage env 150 "Opening ASCII mode data connection for file list" ;;
        match snd r with
        | Some err => ret (Some err)
        | None =>
            c <- getConn ;;
            fs <- callDriver
                    (CallDirContents
                       (buildPath c (if matchListFlags param then "" else param)))
                    (DirContents
                       (buildPath c (if matchListFlags param then "" else param))) ;;
            match fs with
            | (_, Some err) =>
                ret (Some (wrapError (label c) err))
            | (files, None) => sendOutOfBandData env (render files)
            end
        end)%go w
       = (Panic "invalid memory address or nil pointer dereference", w')
       \/ exists e,
            (r <- writeMessage env 150 "Opening ASCII mode data connection for file list" ;;
             match snd r with
             | Some err => ret (Some err)
             | None =>
                 c <- getConn ;;
                 fs <- callDriver
                         (CallDirContents
                            (buildPath c (if matchListFlags param then "" else param)))
                         (DirContents
                            (buildPath c (if matchListFlags param then "" else param))) ;;
                 match fs with
                 | (_, Some err) =>
                     ret (Some (wrapError (label c) err))
                 | (files, None) => sendOutOfBandData env (render files)
                 end
             end)%go w = (Ret (Some e), w'))
      /\ wTrace w' = (wTrace w ++ evs)%list
      /\ forallb noTransfer evs = true
      /\ wConn w' = wConn w).
  { intros render label.
    destruct (writeMessage_run env 150 "Opening ASCII mode data connection for file list" w)
      as [n Hw].
    run Hw. cbn [snd].
    destruct (ioError env _) as [e|].
    - do 2 eexists. split; [right; eexists; reflexivity|].
      split; [reflexivity|]. split; reflexivity.
    - run (getConn_run _). run (callDriver_run _ _ _).
      destruct (fst (DirContents _ _)) as [files [err|]].
      + do 2 eexists. split; [right; eexists; reflexivity|].
        cbn [wTrace wConn extend]. rewrite <- app_assoc.
        split; [reflexivity|]. split; reflexivity.
      + unfold sendOutOfBandData.
        rewrite sendOutOfBandReader_without_socket by exact Hd.
        do 2 eexists. split; [left; reflexivity|].
        cbn [wTrace wConn extend]. rewrite <- app_assoc.
        split; [reflexivity|]. split; reflexivity. }
  destruct Hcmd as [->|[->| ->]]; cbn [Execute].
  - unfold commandRetr_Execute. run (getConn_run w). cbv zeta.
    run (callDriver_run _ _ w).
    set (w1 := mkWorld (wConn w) _ _).
    destruct (fst (GetFile _ _)) as [[reader|] [err|]].
    + destruct (writeMessage_run env 551 "File not available" w1) as [n Hw].
      run Hw. unfold ret. cbn [snd].
      destruct (ioError env (wTrace w1 ++ [EvWrite 551 "File not available"]));
        (do 2 eexists; split; [right; eexists; reflexivity|];
         subst w1; cbn [wTrace wConn extend]; rewrite <- app_assoc;
         split; [reflexivity|]; split; reflexivity).
    + destruct (writeMessage_run env 150 "Data connection open. Transfer starting." w1)
        as [n Hw].
      destruct (ioError env (wTrace w1 ++ [EvWrite 150 "Data connection open. Transfer starting."]))
        as [e|] eqn:E150.
      * erewrite withDefer_Ret; [|run Hw; cbn [snd]; reflexivity|apply emit_run].
        do 2 eexists. split; [right; eexists; reflexivity|].
        subst w1. cbn [wTrace wConn extend]. rewrite <- !app_assoc.
        split; [reflexivity|]. split; reflexivity.
      * erewrite withDefer_Panic;
          [|run Hw; cbn [snd];
            apply sendOutOfBandReader_without_socket; exact Hd|apply emit_run].
        do 2 eexists. split; [left; reflexivity|].
        subst w1. cbn [wTrace wConn extend]. rewrite <- !app_assoc.
        split; [reflexivity|]. split; reflexivity.
    + destruct (writeMessage_run env 551 "File not available" w1) as [n Hw].
      run Hw. unfold ret. cbn [snd].
      destruct (ioError env (wTrace w1 ++ [EvWrite 551 "File not available"]));
        (do 2 eexists; split; [right; eexists; reflexivity|];
         subst w1; cbn [wTrace wConn extend]; rewrite <- app_assoc;
         split; [reflexivity|]; split; reflexivity).
    + do 2 eexists. split; [left; reflexivity|].
      subst w1. cbn [wTrace wConn].
      split; [reflexivity|]. split; reflexivity.
  - unfold commandList_Execute. cbv zeta.
    apply (Hlist (Detailed env)
             (fun c => "failed to execute LIST path: "
                       ++ buildPath c (if matchListFlags param then "" else param) ++ " - ")).
  - unfold commandNlst_Execute. cbv zeta.
    apply (Hlist (Short env)
             (fun c => "failed to execute NLST path: "
                       ++ buildPath c (if matchListFlags param then "" else param) ++ " - ")).
Qed.

Lemma Execute_never_closes cmd param :
  ~ In cmd [commandRetr; commandList; commandNlst; commandPasv; commandEpsv;
            commandPort; commandEprt; commandPass; commandQuit] ->
  emits notCloseData (Execute (D := D) env cmd param).
Proof.
  intros H. destruct cmd; try (exfalso; apply H; simpl; tauto); cbn [Execute]; steps_tac.
Qed.

(** X22: A line whose handling closes a data socket has one of the
    commands RETR, LIST, NLST, PASV, EPSV, PORT, EPRT, PASS and QUIT; no
    other command closes one, STOR in particular. *)
Theorem data_socket_closers (w : world D) line :
  existsb isCloseData (newEvents (wTrace w) (wTrace (snd (receiveLine env line w)))) = true ->
  exists cmd,
    lookup commands (fst (parseLine line)) = Some cmd
    /\ In cmd [commandRetr; commandList; commandNlst; commandPasv; commandEpsv;
               commandPort; commandEprt; commandPass; commandQuit].
Proof.
  intros Hclose.
  set (closers := [commandRetr; commandList; commandNlst; commandPasv; commandEpsv;
                   commandPort; commandEprt; commandPass; commandQuit]).
  destruct (lookup commands (fst (parseLine line))) as [cmd|] eqn:E.
  - destruct (in_dec ftpCommand_eq_dec cmd closers) as [Hin|Hout]; [eauto|].
    exfalso.
    assert (Hq : emits notCloseData (receiveLine (D := D) env line)).
    { apply (receiveLine_steps env (adds notCloseData));
        [apply adds_refl|apply adds_trans|intros; steps_tac|].
      intros cmd0 H0. rewrite E in H0. inversion H0; subst.
      apply Execute_never_closes, Hout. }
    destruct (Hq w) as (evs & Ht & Hevs). rewrite Ht, newEvents_app in Hclose.
    clear - Hclose Hevs. induction evs as [|ev rest IH]; [discriminate|].
    simpl in *. apply andb_true_iff in Hevs as [H1 H2].
    unfold notCloseData in H1. destruct (isCloseData ev); [discriminate|]. auto.
  - exfalso.
    assert (Hq : emits notCloseData (receiveLine (D := D) env line)).
    { apply (receiveLine_steps env (adds notCloseData));
        [apply adds_refl|apply adds_trans|intros; steps_tac|].
      intros cmd0 H0. rewrite E in H0. discriminate. }
    destruct (Hq w) as (evs & Ht & Hevs). rewrite Ht, newEvents_app in Hclose.
    clear - Hclose Hevs. induction evs as [|ev rest IH]; [discriminate|].
    simpl in *. apply andb_true_iff in Hevs as [H1 H2].
    unfold notCloseData in H1. destruct (isCloseData ev); [discriminate|]. auto.
Qed.

End PassiveFacts.

(** ** The passive socket and the logger *)

(** With no peer in five tests, the wait gives up after its four sleeps. *)
Lemma waitForOpenSocket_closed (fuel : nat) (open : Z -> bool) :
  (5 <= fuel)%nat ->
  (forall retries, 0 <= retries <= 4 -> open retries = false) ->
  waitForOpenSocket fuel open = Some (false, [500; 1000; 1500; 2000]).
Proof.
  intros Hf Hclosed. unfold waitForOpenSocket.
  do 5 (destruct fuel as [|fuel]; [lia|]). clear Hf.
  cbn [waitLoop]. cbv zeta.
  change (0 + 1) with 1. change (1 + 1) with 2. change (2 + 1) with 3.
  change (3 + 1) with 4.
  rewrite !Hclosed by lia. reflexivity.
Qed.

(** X23: [waitForOpenSocket] tests for the peer's connection at most five
    times, with sleeps of 500, 1000, 1500 and 2000 milliseconds between
    the tests, 5 seconds in all at most; it returns true exactly when one
    of the five tests finds the connection, and false only after all four
    sleeps. *)
Theorem waitForOpenSocket_spec (fuel : nat) (open : Z -> bool) :
  (5 <= fuel)%nat ->
  exists sleeps,
    waitForOpenSocket fuel open
    = Some (open 0 || open 1 || open 2 || open 3 || open 4, sleeps)
    /\ (exists k, sleeps = firstn k [500; 1000; 1500; 2000])
    /\ sumZ sleeps <= 5000
    /\ (open 0 || open 1 || open 2 || open 3 || open 4 = false
        -> sleeps = [500; 1000; 1500; 2000]).
Proof.
  intros Hf. unfold waitForOpenSocket.
  do 5 (destruct fuel as [|fuel]; [lia|]). clear Hf.
  cbn [waitLoop]. cbv zeta.
  change (0 + 1) with 1. change (1 + 1) with 2. change (2 + 1) with 3.
  change (3 + 1) with 4.
  change (3 <? 0) with false. change (3 <? 1) with false. change (3 <? 2) with false.
  change (3 <? 3) with false.
  destruct (open 0); [eexists; split; [reflexivity|];
    split; [exists 0%nat; reflexivity|split; [cbn; lia|discriminate]]|].
  destruct (open 1); [eexists; split; [reflexivity|];
    split; [exists 1%nat; reflexivity|split; [cbn; lia|discriminate]]|].
  destruct (open 2); [eexists; split; [reflexivity|];
    split; [exists 2%nat; reflexivity|split; [cbn; lia|discriminate]]|].
  destruct (open 3); [eexists; split; [reflexivity|];
    split; [exists 3%nat; reflexivity|split; [cbn; lia|discriminate]]|].
  destruct (open 4).
  - eexists. split; [reflexivity|].
    split; [exists 4%nat; reflexivity|split; [cbn; lia|discriminate]].
  - change (3 <? 4) with true. cbv iota.
    eexists. split; [reflexivity|].
    split; [exists 4%nat; reflexivity|split; [cbn; lia|reflexivity]].
Qed.

Lemma waitForOpenSocket_spec_witness :
  (5 <= 5)%nat
  /\ exists sleeps,
       waitForOpenSocket 5 (fun retries => 2 <=? retries)
       = Some ((2 <=? 0) || (2 <=? 1) || (2 <=? 2) || (2 <=? 3) || (2 <=? 4), sleeps)
       /\ (exists k, sleeps = firstn k [500; 1000; 1500; 2000])
       /\ sumZ sleeps <= 5000
       /\ ((2 <=? 0) || (2 <=? 1) || (2 <=? 2) || (2 <=? 3) || (2 <=? 4) = false
           -> sleeps = [500; 1000; 1500; 2000]).
Proof.
  split; [lia|].
  exact (waitForOpenSocket_spec 5 (fun retries => 2 <=? retries) (le_n 5)).
Defined.

(** X24: A [Write] (or a [Read]) on a passive socket to which no peer
    connects returns 0 and the error of text data socket unavailable,
    after sleeps of 500, 1000, 1500 and 2000 milliseconds, without calling
    the connection. *)
Theorem passiveWrite_unavailable (fuel : nat) (open : Z -> bool) connWrite p :
  (5 <= fuel)%nat ->
  (forall retries, 0 <= retries <= 4 -> open retries = false) ->
  passiveWrite fuel open connWrite p
  = Some ((0, Some (errorString "data socket unavailable")), [500; 1000; 1500; 2000]).
Proof.
  intros Hf Hclosed. unfold passiveWrite.
  rewrite (waitForOpenSocket_closed fuel open Hf Hclosed). reflexivity.
Qed.

(** The loop over any list of turns, for bounds that leave room. *)
Lemma listenAttempts_spec draw listen min max turns :
  0 <= min -> min + 1 < max -> max < 65536 ->
  exists r,
    listenAttempts draw listen min max turns = Ret r
    /\ match r with
       | inl port =>
           min <= port < max - 1
           /\ exists retries,
                In retries turns
                /\ randomPort (draw retries) min max = Ret port
                /\ listen retries port = true
       | inr e =>
           e = errorString "unable to find available port to listen on"
           /\ forall retries, In retries turns ->
                exists port, randomPort (draw retries) min max = Ret port
                             /\ listen retries port = false
       end.
Proof.
  intros Hmin Hlt Hmax. induction turns as [|retries rest IH]; cbn [listenAttempts].
  - eexists. split; [reflexivity|]. split; [reflexivity|]. intros retries [].
  - destruct (randomPort_in_range (draw retries) min max Hmin Hlt Hmax) as (r & Hr & Hb).
    rewrite Hr. destruct (listen retries (min + r)) eqn:El.
    + eexists. split; [reflexivity|]. split; [lia|].
      exists retries. split; [left; reflexivity|]. auto.
    + destruct IH as (res & -> & Hres). exists res. split; [reflexivity|].
      destruct res as [port|e].
      * destruct Hres as (Hp & k & Hin & Hk). split; [exact Hp|].
        exists k. split; [right; exact Hin|exact Hk].
      * destruct Hres as (He & Hall). split; [exact He|].
        intros k [<-|Hin]; [eauto|apply Hall, Hin].
Qed.

Lemma in_turns retries :
  In retries (map Z.of_nat (seq 1 99)) <-> 1 <= retries < 100.
Proof.
  rewrite in_map_iff. split.
  - intros (n & <- & Hn). apply in_seq in Hn. lia.
  - intros H. exists (Z.to_nat retries). split; [lia|]. apply in_seq. lia.
Qed.

(** X25: For bounds with 0 <= min, min + 1 < max and max < 65536,
    [netListenerInRange] returns, without a panic: either the listener of
    one of the turns 1 to 99, asked for the port from min to max - 2 that
    the turn drew (asked for port 0, the system picks the port), or, every
    one of the 99 turns having failed to listen, the error that no port is
    available. *)
Theorem netListenerInRange_spec draw listen min max :
  0 <= min -> min + 1 < max -> max < 65536 ->
  exists r,
    netListenerInRange draw listen min max = Ret r
    /\ match r with
       | inl port =>
           min <= port < max - 1
           /\ exists retries,
                1 <= retries < 100
                /\ randomPort (draw retries) min max = Ret port
                /\ listen retries port = true
       | inr e =>
           e = errorString "unable to find available port to listen on"
           /\ forall retries, 1 <= retries < 100 ->
                exists port, randomPort (draw retries) min max = Ret port
                             /\ listen retries port = false
       end.
Proof.
  intros Hmin Hlt Hmax. unfold netListenerInRange.
  destruct (listenAttempts_spec draw listen min max (map Z.of_nat (seq 1 99))
              Hmin Hlt Hmax) as (r & -> & Hr).
  exists r. split; [reflexivity|]. destruct r as [port|e].
  - destruct Hr as (Hp & k & Hin & Hk). split; [exact Hp|].
    exists k. split; [apply in_turns, Hin|exact Hk].
  - destruct Hr as (He & Hall). split; [exact He|].
    intros k Hk. apply Hall, in_turns, Hk.
Qed.

(** X26: The logger's level test lets a method write when the logger's
    level is at most the method's own: [Debug] and [Debugf] write at every
    level, [Error] and [Errorf] only at [ErrorLevel], and what [Error]
    writes [Warn] writes, what [Warn] writes [Info] writes.  The default
    logger, at [InfoLevel], writes [Info] and [Infof] and drops every
    warning and every error. *)
Theorem logger_level_filter (logger : ftpLogger) now format args :
  logged (Debug logger now args) = true
  /\ logged (Debugf logger now format args) = true
  /\ (logged (Error logger now args) = true -> ftpLogLevel logger = ErrorLevel)
  /\ (logged (Errorf logger now format args) = true -> ftpLogLevel logger = ErrorLevel)
  /\ (logged (Error logger now args) = true -> logged (Warn logger now args) = true)
  /\ (logged (Warn logger now args) = true -> logged (Info logger now args) = true)
  /\ logged (Info NewDefaultFtpLogger now args) = true
  /\ logged (Infof NewDefaultFtpLogger now format args) = true
  /\ Warn NewDefaultFtpLogger now args = []
  /\ Warnf NewDefaultFtpLogger now format args = []
  /\ Error NewDefaultFtpLogger now args = []
  /\ Errorf NewDefaultFtpLogger now format args = [].
Proof.
  destruct logger as [level].
  destruct level; cbn; repeat split; try reflexivity; try discriminate.
Qed.

(** ** Concrete runs *)

Lemma login_sequence_witness :
  parseLine ("USER test" ++ CRLF) = ("USER", "test") /\ "test" <> ""
  /\ parseLine ("PASS 1234" ++ CRLF) = ("PASS", "1234") /\ "1234" <> ""
  /\ exists w',
       readCommands sampleEnv ["USER test" ++ CRLF; "PASS 1234" ++ CRLF] freshWorld
       = (Ret tt, w')
       /\ wDriver w' = tt
       /\ user (wConn w') = "test" /\ reqUser (wConn w') = ""
       /\ wTrace w'
          = [EvWrite 331 "User name ok, password required";
             EvDriver (CallAuthenticate "test" "1234" "192.0.2.7");
             EvWrite 230 "Password ok, continue"].
Proof.
  split; [reflexivity|]. split; [discriminate|].
  split; [reflexivity|]. split; [discriminate|].
  exact (login_sequence sampleEnv freshWorld ("USER test" ++ CRLF) ("PASS 1234" ++ CRLF)
           "test" "1234" eq_refl (fun H => ltac:(discriminate H))
           eq_refl (fun H => ltac:(discriminate H))).
Defined.

Lemma rename_sequence_witness :
  user (wConn loggedInWorld) <> ""
  /\ parseLine ("RNFR a.txt" ++ CRLF) = ("RNFR", "a.txt") /\ "a.txt" <> ""
  /\ parseLine ("RNTO ../b.txt" ++ CRLF) = ("RNTO", "../b.txt") /\ "../b.txt" <> ""
  /\ exists w',
       readCommands sampleEnv ["RNFR a.txt" ++ CRLF; "RNTO ../b.txt" ++ CRLF] loggedInWorld
       = (Ret tt, w')
       /\ wDriver w' = tt
       /\ wConn w' = set_renameFrom "/a.txt" loggedInConn
       /\ wTrace w'
          = [EvWrite 350 "Requested file action pending further information.";
             EvDriver (CallRename "/a.txt" "/b.txt");
             EvWrite 550 "Action not taken"].
Proof.
  split; [discriminate|].
  split; [reflexivity|]. split; [discriminate|].
  split; [reflexivity|]. split; [discriminate|].
  exact (rename_sequence sampleEnv loggedInWorld ("RNFR a.txt" ++ CRLF)
           ("RNTO ../b.txt" ++ CRLF) "a.txt" "../b.txt"
           (fun H => ltac:(discriminate H)) eq_refl (fun H => ltac:(discriminate H))
           eq_refl (fun H => ltac:(discriminate H))).
Defined.

Lemma commandCwd_Execute_spec_witness :
  ChangeDir (buildPath (wConn loggedInWorld) "files") (wDriver loggedInWorld)
  = ((true, None), tt)
  /\ exists result w',
       commandCwd_Execute sampleEnv "files" loggedInWorld = (Ret result, w')
       /\ wDriver w' = tt
       /\ wTrace w'
          = [EvDriver (CallChangeDir "/files"); EvWrite 250 "Directory changed to /files"]
       /\ wConn w' = set_namePrefix "/files" loggedInConn
       /\ commandCdup_Execute sampleEnv "files" loggedInWorld
          = commandCwd_Execute sampleEnv ".." loggedInWorld.
Proof.
  split; [reflexivity|].
  exact (commandCwd_Execute_spec sampleEnv loggedInWorld "files" true None tt eq_refl).
Defined.

Lemma buildPath_after_cwd_witness :
  Forall (fun e => realElem e = true) ["files"]
  /\ namePrefix (set_namePrefix "/files" freshConn) = rootedJoin ["files"]
  /\ "../pub" <> "" /\ "a/./b.txt" <> "" /\ Strings.HasPrefix "a/./b.txt" "/" = false
  /\ buildPath (set_namePrefix (buildPath (set_namePrefix "/files" freshConn) "../pub")
                               (set_namePrefix "/files" freshConn)) "a/./b.txt"
     = buildPath (set_namePrefix "/files" freshConn) ("../pub" ++ "/" ++ "a/./b.txt").
Proof.
  split; [repeat constructor|]. split; [reflexivity|].
  split; [discriminate|]. split; [discriminate|]. split; [reflexivity|].
  exact (buildPath_after_cwd (set_namePrefix "/files" freshConn) ["files"] "../pub"
           "a/./b.txt" ltac:(repeat constructor) eq_refl
           (fun H => ltac:(discriminate H)) (fun H => ltac:(discriminate H)) eq_refl).
Defined.

Lemma commandPort_Execute_spec_witness :
  Strings.Split "192,0,2,7,4,1" "," = ["192"; "0"; "2"; "7"; "4"; "1"]
  /\ Strconv.ParseUint "4" 16 = inl 4
  /\ Strconv.ParseUint "1" 16 = inl 1
  /\ exists result w',
       commandPort_Execute sampleEnv "192,0,2,7,4,1" transferWorld = (Ret result, w')
       /\ wDriver w' = wDriver transferWorld
       /\ dataConn (wConn w') = Some (ftpActiveSocket "192.0.2.7" 1025)
       /\ wTrace w'
          = [EvCloseData (ftpPassiveSocket "127.0.0.1" 60201);
             EvDialActive "192.0.2.7" 1025;
             EvWrite 200 "Connection established (1025)"].
Proof.
  split; [reflexivity|]. split; [reflexivity|]. split; [reflexivity|].
  exact (commandPort_Execute_spec sampleEnv transferWorld "192,0,2,7,4,1"
           "192" "0" "2" "7" "4" "1" [] 4 1 eq_refl eq_refl eq_refl).
Defined.

Lemma commandPort_Execute_bad_number_witness :
  Strings.Split "192,0,2,7,70000,1" "," = ["192"; "0"; "2"; "7"; "70000"; "1"]
  /\ (Strconv.ParseUint "70000" 16 = inr Strconv.ErrRange
      \/ exists a, Strconv.ParseUint "70000" 16 = inl a
                   /\ Strconv.ParseUint "1" 16 = inr Strconv.ErrRange)
  /\ commandPort_Execute sampleEnv "192,0,2,7,70000,1" transferWorld
     = (Ret (Some Strconv.ErrRange), transferWorld).
Proof.
  split; [reflexivity|]. split; [left; reflexivity|].
  exact (commandPort_Execute_bad_number sampleEnv transferWorld "192,0,2,7,70000,1"
           "192" "0" "2" "7" "70000" "1" [] Strconv.ErrRange eq_refl
           (or_introl eq_refl)).
Defined.

Lemma port_reads_pasv_tuple_witness :
  0 < 60201 < 65536
  /\ hasByte "," "127" = false /\ hasByte "," "0" = false
  /\ hasByte "," "0" = false /\ hasByte "," "1" = false
  /\ exists result w' reply,
       commandPort_Execute sampleEnv
         ("127" ++ "," ++ "0" ++ "," ++ "0" ++ "," ++ "1" ++ ","
          ++ Strconv.Itoa (60201 / 256) ++ ","
          ++ Strconv.Itoa (uint16 (60201 - uint16 (60201 / 256 * 256))))
         loggedInWorld
       = (Ret result, w')
       /\ wTrace w'
          = (activeHistory loggedInWorld ("127" ++ "." ++ "0" ++ "." ++ "0" ++ "." ++ "1")
                           60201 ++ [reply])%list.
Proof.
  split; [lia|]. split; [reflexivity|]. split; [reflexivity|].
  split; [reflexivity|]. split; [reflexivity|].
  exact (port_reads_pasv_tuple sampleEnv loggedInWorld "127" "0" "0" "1" 60201
           (conj eq_refl eq_refl) eq_refl eq_refl eq_refl eq_refl).
Defined.

Lemma commandEprt_Execute_spec_witness :
  Strings.Split "|1|192.0.2.7|1025|" "|" = [""; "1"; "192.0.2.7"; "1025"; ""]
  /\ Strconv.Atoi "1" = inl 1
  /\ Strconv.ParseUint "1025" 16 = inl 1025
  /\ exists result w',
       commandEprt_Execute sampleEnv "|1|192.0.2.7|1025|" loggedInWorld = (Ret result, w')
       /\ wDriver w' = wDriver loggedInWorld
       /\ dataConn (wConn w') = Some (ftpActiveSocket "192.0.2.7" 1025)
       /\ wTrace w'
          = [EvDialActive "192.0.2.7" 1025; EvWrite 200 "Connection established (1025)"].
Proof.
  split; [reflexivity|]. split; [reflexivity|]. split; [reflexivity|].
  exact (commandEprt_Execute_spec sampleEnv loggedInWorld "|" "1|192.0.2.7|1025|"
           "" "1" "192.0.2.7" "1025" [""] 1 1025 eq_refl eq_refl eq_refl).
Defined.

Lemma commandEpsv_Execute_spec_witness :
  passivePort sampleEnv (passiveHistory sampleEnv loggedInWorld) = Some 60201
  /\ 0 < 60201 < 65536
  /\ commandEpsv_Execute sampleEnv "" loggedInWorld
     = (Ret None,
        mkWorld (set_dataConn (Some (ftpPassiveSocket "127.0.0.1" 60201)) loggedInConn) tt
                [EvListenPassive "127.0.0.1" 60200 60300;
                 EvWrite 229 "Entering Extended Passive Mode (|||60201|)"]).
Proof.
  split; [reflexivity|]. split; [lia|].
  exact (commandEpsv_Execute_spec sampleEnv loggedInWorld "" 60201 eq_refl
           (conj eq_refl eq_refl)).
Defined.

Lemma passive_without_port_hangs_witness :
  (commandPasv = commandPasv \/ commandPasv = commandEpsv)
  /\ (forall P, passivePort blockedEnv (passiveHistory blockedEnv transferWorld) = Some P
                -> uint16 P = 0)
  /\ Execute blockedEnv commandPasv "" transferWorld
     = (Hang,
        mkWorld loggedInConn tt
                [EvCloseData (ftpPassiveSocket "127.0.0.1" 60201);
                 EvListenPassive "127.0.0.1" 60200 60300]).
Proof.
  split; [left; reflexivity|]. split; [intros P H; discriminate H|].
  exact (passive_without_port_hangs blockedEnv transferWorld commandPasv ""
           (or_introl eq_refl) (fun P H => ltac:(discriminate H))).
Defined.

Lemma commandPasv_short_host_panics_witness :
  passivePort sampleEnv (passiveHistory sampleEnv namedHostWorld) = Some 60201
  /\ 0 < 60201 < 65536
  /\ (List.length (Strings.Split "ftp.example.com" ".") < 4)%nat
  /\ commandPasv_Execute sampleEnv "" namedHostWorld
     = (Panic "index out of range",
        mkWorld (set_dataConn (Some (ftpPassiveSocket "127.0.0.1" 60201))
                              (wConn namedHostWorld)) tt
                [EvListenPassive "127.0.0.1" 60200 60300]).
Proof.
  split; [reflexivity|]. split; [lia|]. split; [cbn; lia|].
  exact (commandPasv_short_host_panics sampleEnv namedHostWorld "" 60201 eq_refl
           (conj eq_refl eq_refl) ltac:(cbn; lia)).
Defined.

Lemma transfer_without_data_socket_witness :
  (commandList = commandRetr \/ commandList = commandList \/ commandList = commandNlst)
  /\ dataConn (wConn loggedInWorld) = None
  /\ exists w' evs,
       (Execute sampleEnv commandList "" loggedInWorld
        = (Panic "invalid memory address or nil pointer dereference", w')
        \/ exists e, Execute sampleEnv commandList "" loggedInWorld = (Ret (Some e), w'))
       /\ wTrace w' = (wTrace loggedInWorld ++ evs)%list
       /\ forallb noTransfer evs = true
       /\ wConn w' = wConn loggedInWorld.
Proof.
  split; [right; left; reflexivity|]. split; [reflexivity|].
  exact (transfer_without_data_socket sampleEnv loggedInWorld commandList ""
           (or_intror (or_introl eq_refl)) eq_refl).
Defined.

Lemma data_socket_closers_witness :
  existsb isCloseData
    (newEvents (wTrace transferWorld)
       (wTrace (snd (receiveLine sampleEnv ("RETR /one.txt" ++ CRLF) transferWorld))))
  = true
  /\ exists cmd,
       lookup commands (fst (parseLine ("RETR /one.txt" ++ CRLF))) = Some cmd
       /\ In cmd [commandRetr; commandList; commandNlst; commandPasv; commandEpsv;
                  commandPort; commandEprt; commandPass; commandQuit].
Proof.
  split; [reflexivity|].
  exact (data_socket_closers sampleEnv transferWorld ("RETR /one.txt" ++ CRLF) eq_refl).
Defined.

Lemma passiveWrite_unavailable_witness :
  (5 <= 7)%nat
  /\ (forall retries, 0 <= retries <= 4 -> (fun _ : Z => false) retries = false)
  /\ passiveWrite 7 (fun _ => false) (fun p => (Z.of_nat (String.length p), None)) "data"
     = Some ((0, Some (errorString "data socket unavailable")), [500; 1000; 1500; 2000]).
Proof.
  split; [lia|]. split; [reflexivity|].
  exact (passiveWrite_unavailable 7 (fun _ => false)
           (fun p => (Z.of_nat (String.length p), None)) "data"
           ltac:(lia) (fun _ _ => eq_refl)).
Defined.

Lemma netListenerInRange_spec_witness :
  0 <= 60200 /\ 60200 + 1 < 60300 /\ 60300 < 65536
  /\ exists r,
       netListenerInRange (fun retries => 7 * retries) (fun retries _ => 3 <=? retries)
                          60200 60300 = Ret r
       /\ match r with
          | inl port =>
              60200 <= port < 60300 - 1
              /\ exists retries,
                   1 <= retries < 100
                   /\ randomPort ((fun retries => 7 * retries) retries) 60200 60300 = Ret port
                   /\ (fun retries (_ : Z) => 3 <=? retries) retries port = true
          | inr e =>
              e = errorString "unable to find available port to listen on"
              /\ forall retries, 1 <= retries < 100 ->
                   exists port,
                     randomPort ((fun retries => 7 * retries) retries) 60200 60300 = Ret port
                     /\ (fun retries (_ : Z) => 3 <=? retries) retries port = false
          end.
Proof.
  split; [lia|]. split; [lia|]. split; [lia|].
  exact (netListenerInRange_spec (fun retries => 7 * retries) (fun retries _ => 3 <=? retries)
           60200 60300 ltac:(lia) ltac:(lia) ltac:(lia)).
Defined.

(** ** Lines read back, and the transfers *)

Section TrimMore.
Variable f : ascii -> bool.

Lemma trimRightASCII_all t : allBytes f t = true -> Strings.trimRightASCII f t = "".
Proof.
  induction t as [|c r IH]; intros H; [reflexivity|].
  simpl in H. apply andb_true_iff in H as [Hc Hr].
  simpl. rewrite (IH Hr), Hc. reflexivity.
Qed.

Lemma trimRightASCII_app s t c :
  lastByte s = Some c -> f c = false -> allBytes f t = true ->
  Strings.trimRightASCII f (s ++ t) = s.
Proof.
  induction s as [|d r IH]; intros Hl Hc Ht; [discriminate|].
  destruct r as [|e r'].
  - simpl in Hl. inversion Hl; subst. simpl.
    rewrite (trimRightASCII_all t Ht), Hc. reflexivity.
  - change (lastByte (String d (String e r'))) with (lastByte (String e r')) in Hl.
    specialize (IH Hl Hc Ht).
    change (Strings.trimRightASCII f (String d (String e r') ++ t))
      with (match Strings.trimRightASCII f (String e r' ++ t) with
            | "" => if f d then "" else String d ""
            | r0 => String d r0
            end).
    rewrite IH. reflexivity.
Qed.

Lemma trimLeftASCII_keeps s c :
  firstByte s = Some c -> f c = false -> Strings.trimLeftASCII f s = s.
Proof.
  destruct s as [|d r]; intros Hf Hc; [discriminate|].
  simpl in Hf. inversion Hf; subst. simpl. rewrite Hc. reflexivity.
Qed.

End TrimMore.

Lemma Cut_app a b sep :
  hasByte sep a = false -> Strings.Cut (a ++ String sep b) sep = Some (a, b).
Proof.
  induction a as [|c r IH]; simpl; intros H.
  - rewrite Ascii.eqb_refl. reflexivity.
  - apply orb_false_iff in H as [Hc Hr]. rewrite Hc, (IH Hr). reflexivity.
Qed.

Lemma lastByte_app_cons s c t : lastByte (s ++ String c t) = lastByte (String c t).
Proof.
  induction s as [|d r IH]; [reflexivity|].
  change (lastByte (String d r ++ String c t))
    with (lastByte (String d (r ++ String c t))).
  destruct (r ++ String c t) as [|e r'] eqn:E.
  - destruct r; discriminate.
  - rewrite <- IH. reflexivity.
Qed.

Lemma firstByte_app s t c : firstByte s = Some c -> firstByte (s ++ t) = Some c.
Proof. destruct s; [discriminate|]. simpl. auto. Qed.

Lemma CRLF_isSpace c : Strings.inCutset CRLF c = true -> Strings.isSpace c = true.
Proof.
  unfold CRLF. cbn [Strings.inCutset]. rewrite orb_false_r.
  intros H. apply orb_true_iff in H as [H|H]; apply Ascii.eqb_eq in H; subst; reflexivity.
Qed.

(** X27: [parseLine] reads back a line made of a command and a parameter:
    for a command that is not empty, has no space and neither starts nor
    ends with CR or LF, and a parameter that [strings.TrimSpace] leaves as
    it is (no white space, that of Unicode included, at either end; the
    spaces inside are kept), the line command, space, parameter, CR LF
    gives back the two, and the line command, CR LF gives the command and
    the empty parameter. *)
Theorem parseLine_round_trip command param :
  command <> "" ->
  hasByte " " command = false ->
  trimmed (Strings.inCutset CRLF) command ->
  Strings.TrimSpace param = param ->
  parseLine (command ++ " " ++ param ++ CRLF) = (command, param)
  /\ parseLine (command ++ CRLF) = (command, "").
Proof.
  intros Hne Hsp [Hfirst Hlast] HtrimP.
  destruct (TrimSpace_trimmed param) as [_ Hp2]. rewrite HtrimP in Hp2.
  destruct command as [|c0 cr] eqn:Ecmd; [congruence|]. rewrite <- Ecmd in *.
  assert (Hf0 : firstByte command = Some c0) by (rewrite Ecmd; reflexivity).
  split.
  - unfold parseLine. fold CRLF. unfold Strings.Trim.
    assert (Hline : command ++ " " ++ param ++ CRLF = (command ++ " " ++ param) ++ CRLF).
    { rewrite !append_assoc. reflexivity. }
    rewrite Hline.
    assert (Hl : exists l, lastByte (command ++ " " ++ param) = Some l
                           /\ Strings.inCutset CRLF l = false).
    { change (command ++ " " ++ param) with (command ++ String " " param).
      rewrite lastByte_app_cons.
      destruct param as [|p0 pr] eqn:Ep.
      - exists " "%char. split; reflexivity.
      - rewrite <- Ep in *.
        destruct (lastByte param) as [l|] eqn:El.
        + exists l. split.
          * change (lastByte (String " " param)) with
              (match param with "" => Some " "%char | _ => lastByte param end).
            rewrite Ep. rewrite Ep in El. exact El.
          * destruct (Strings.inCutset CRLF l) eqn:Ec; [|reflexivity].
            apply CRLF_isSpace in Ec. rewrite (Hp2 l eq_refl) in Ec. discriminate.
        + rewrite Ep in El. clear - El. exfalso. revert p0 El.
          induction pr as [|e r IH]; intros p0 El; [discriminate|].
          apply (IH e). exact El. }
    destruct Hl as (l & Hl & Hlc).
    rewrite (trimRightASCII_app (Strings.inCutset CRLF) _ CRLF l Hl Hlc eq_refl).
    rewrite (trimLeftASCII_keeps (Strings.inCutset CRLF) _ c0
               (firstByte_app command _ c0 Hf0) (Hfirst c0 Hf0)).
    unfold Strings.SplitN2.
    change (command ++ " " ++ param) with (command ++ String " " param).
    rewrite Cut_app by assumption. rewrite HtrimP. reflexivity.
  - unfold parseLine. fold CRLF. unfold Strings.Trim.
    destruct (lastByte command) as [l|] eqn:El.
    + rewrite (trimRightASCII_app (Strings.inCutset CRLF) command CRLF l El
                 (Hlast l eq_refl) eq_refl).
      rewrite (trimLeftASCII_keeps (Strings.inCutset CRLF) command c0 Hf0 (Hfirst c0 Hf0)).
      unfold Strings.SplitN2.
      destruct (Strings.Cut command " ") as [[a b]|] eqn:Ecut; [|reflexivity].
      apply Cut_Some in Ecut as [Hc _]. exfalso.
      rewrite Hc in Hsp. clear - Hsp. induction a as [|x r IH]; simpl in Hsp.
      * discriminate.
      * apply orb_false_iff in Hsp as [_ Hsp]. auto.
    + rewrite Ecmd in El. clear - El. exfalso. revert c0 El.
      induction cr as [|e r IH]; intros c0 El; [discriminate|].
      apply (IH e). exact El.
Qed.

Lemma parseLine_round_trip_witness :
  "RETR" <> ""
  /\ hasByte " " "RETR" = false
  /\ trimmed (Strings.inCutset CRLF) "RETR"
  /\ Strings.TrimSpace "my file.txt" = "my file.txt"
  /\ parseLine ("RETR" ++ " " ++ "my file.txt" ++ CRLF) = ("RETR", "my file.txt")
  /\ parseLine ("RETR" ++ CRLF) = ("RETR", "").
Proof.
  split; [discriminate|]. split; [reflexivity|].
  split; [split; intros c H; inversion H; reflexivity|].
  split; [reflexivity|].
  exact (parseLine_round_trip "RETR" "my file.txt"
           ltac:(discriminate) eq_refl
           ltac:(split; intros c H; inversion H; reflexivity)
           eq_refl).
Defined.

Section TransferFacts.
Context {D : Type} {driver : FTPDriver D}.
Variable env : Env.

Tactic Notation "run" uconstr(H) := rewrite (bind_run _ _ _ _ _ H).

(** X28: [sendOutOfBandReader] on a session with a data socket returns,
    has the copy to the socket as its first event and the close of the
    socket as its last, and leaves the session record and the driver
    unchanged.  A failed copy is answered by 550 and an error is returned;
    after a good copy 226 is written, followed by a sleep of 10
    milliseconds and a nil result if that write succeeds, and by the
    write's error as the result, without the sleep, if it fails. *)
Theorem sendOutOfBandReader_spec (w : world D) data socket :
  dataConn (wConn w) = Some socket ->
  exists result w',
    sendOutOfBandReader env data w = (Ret result, w')
    /\ wConn w' = wConn w /\ wDriver w' = wDriver w
    /\ match ioError env (wTrace w ++ [EvCopy socket data]) with
       | Some _ =>
           result <> None
           /\ wTrace w'
              = (wTrace w ++ [EvCopy socket data; EvWrite 550 "Action not taken";
                              EvCloseData socket])%list
       | None =>
           match ioError env (wTrace w ++ [EvCopy socket data;
                                           EvWrite 226 "Transfer complete."]) with
           | Some e =>
               result = Some e
               /\ wTrace w'
                  = (wTrace w ++ [EvCopy socket data; EvWrite 226 "Transfer complete.";
                                  EvCloseData socket])%list
           | None =>
               result = None
               /\ wTrace w'
                  = (wTrace w ++ [EvCopy socket data; EvWrite 226 "Transfer complete.";
                                  EvSleep 10; EvCloseData socket])%list
           end
       end.
Proof.
  intros H. unfold sendOutOfBandReader. run (getConn_run w). rewrite H.
  set (w1 := extend w [EvCopy socket data]).
  destruct (ioError env (wTrace w ++ [EvCopy socket data])) as [e|] eqn:Ecopy.
  - destruct (writeMessage_run env 550 "Action not taken" w1) as [n Hw].
    do 2 eexists. split.
    + eapply withDefer_Ret.
      * run (io_run env _ w). rewrite Ecopy. cbv zeta. fold w1. run Hw. reflexivity.
      * rewrite io_run. reflexivity.
    + subst w1. unfold extend. cbn [wConn wDriver wTrace snd].
      rewrite <- !app_assoc.
      split; [reflexivity|]. split; [reflexivity|]. split; [|reflexivity].
      unfold appendIfError, multierror_Append. cbn [snd].
      match goal with |- context [match ?x with Some _ => _ | None => _ end] =>
        destruct x end; discriminate.
  - destruct (writeMessage_run env 226 "Transfer complete." w1) as [n Hw].
    assert (Ht : (wTrace w1 ++ [EvWrite 226 "Transfer complete."]
                  = wTrace w ++ [EvCopy socket data; EvWrite 226 "Transfer complete."])%list).
    { subst w1. cbn. rewrite <- app_assoc. reflexivity. }
    rewrite Ht in Hw.
    destruct (ioError env (wTrace w ++ [EvCopy socket data;
                                        EvWrite 226 "Transfer complete."]))
      as [e|] eqn:Ereply.
    + do 2 eexists. split.
      * eapply withDefer_Ret.
        -- run (io_run env _ w). rewrite Ecopy. fold w1. run Hw. cbn [snd]. reflexivity.
        -- rewrite io_run. reflexivity.
      * subst w1. unfold extend. cbn [wConn wDriver wTrace].
        rewrite <- !app_assoc. auto.
    + do 2 eexists. split.
      * eapply withDefer_Ret.
        -- run (io_run env _ w). rewrite Ecopy. fold w1. run Hw. cbn [snd].
           run (emit_run _ _). reflexivity.
        -- rewrite io_run. reflexivity.
      * subst w1. unfold extend. cbn [wConn wDriver wTrace].
        rewrite <- !app_assoc. auto.
Qed.

(** X29: On a session with a canonical working directory, LIST and NLST
    with an empty parameter, or with one that matches the flags pattern (a
    dash followed by letters among a, l and t), list the working
    directory: once the 150 reply is out, the next event is the driver's
    [DirContents] called with the working directory itself, and not with a
    path made of the flags. *)
Theorem list_flags_name_working_directory (w : world D) cmd param kept :
  cmd = commandList \/ cmd = commandNlst ->
  matchListFlags param = true \/ param = "" ->
  Forall (fun e => realElem e = true) kept ->
  namePrefix (wConn w) = rootedJoin kept ->
  ioError env (wTrace w ++ [EvWrite 150 "Opening ASCII mode data connection for file list"])
  = None ->
  exists evs,
    wTrace (snd (Execute env cmd param w))
    = (wTrace w ++ EvWrite 150 "Opening ASCII mode data connection for file list"
                :: EvDriver (CallDirContents (namePrefix (wConn w))) :: evs)%list.
Proof.
  intros Hcmd Hflags HF Hn H150.
  assert (Hpath : buildPath (wConn w) (if matchListFlags param then "" else param)
                  = namePrefix (wConn w)).
  { assert (E : (if matchListFlags param then "" else param) = "").
    { destruct Hflags as [-> | ->]; reflexivity. }
    rewrite E. rewrite (buildPath_by_elems (wConn w) kept "" HF Hn), Hn.
    unfold resolve. cbn. unfold Filepath.cleanStep. cbn. rewrite rev_involutive.
    reflexivity. }
  destruct (writeMessage_run env 150 "Opening ASCII mode data connection for file list" w)
    as [n Hw].
  rewrite H150 in Hw.
  set (w1 := extend w [EvWrite 150 "Opening ASCII mode data connection for file list"]) in *.
  assert (Hsend : forall data (w2 : world D),
            wTrace w2 = (wTrace w1 ++ [EvDriver (CallDirContents (namePrefix (wConn w)))])%list ->
            exists evs,
              wTrace (snd (sendOutOfBandReader env data w2))
              = (wTrace w ++ EvWrite 150 "Opening ASCII mode data connection for file list"
                          :: EvDriver (CallDirContents (namePrefix (wConn w))) :: evs)%list).
  { intros data w2 Ht.
    assert (He : emits anyEvent (sendOutOfBandReader (D := D) env data)) by steps_tac.
    destruct (He w2) as (evs & Hevs & _). exists evs. rewrite Hevs, Ht.
    subst w1. cbn. rewrite <- !app_assoc. reflexivity. }
  destruct Hcmd as [-> | ->]; cbn [Execute].
  - unfold commandList_Execute. run Hw. cbn [snd]. cbv zeta.
    run (getConn_run w1). change (wConn w1) with (wConn w). rewrite Hpath.
    run (callDriver_run _ _ w1).
    destruct (fst (DirContents _ _)) as [files [err|]].
    + exists []. unfold ret. subst w1. cbn. rewrite <- app_assoc. reflexivity.
    + unfold sendOutOfBandData. apply Hsend. reflexivity.
  - unfold commandNlst_Execute. run Hw. cbn [snd]. cbv zeta.
    run (getConn_run w1). change (wConn w1) with (wConn w). rewrite Hpath.
    run (callDriver_run _ _ w1).
    destruct (fst (DirContents _ _)) as [files [err|]].
    + exists []. unfold ret. subst w1. cbn. rewrite <- app_assoc. reflexivity.
    + unfold sendOutOfBandData. apply Hsend. reflexivity.
Qed.

End TransferFacts.

Lemma sendOutOfBandReader_spec_witness :
  dataConn (wConn transferWorld) = Some (ftpPassiveSocket "127.0.0.1" 60201)
  /\ exists result w',
       sendOutOfBandReader sampleEnv "hello" transferWorld = (Ret result, w')
       /\ wConn w' = wConn transferWorld /\ wDriver w' = tt
       /\ result = None
       /\ wTrace w'
          = [EvCopy (ftpPassiveSocket "127.0.0.1" 60201) "hello";
             EvWrite 226 "Transfer complete."; EvSleep 10;
             EvCloseData (ftpPassiveSocket "127.0.0.1" 60201)].
Proof.
  split; [reflexivity|].
  exact (sendOutOfBandReader_spec sampleEnv transferWorld "hello"
           (ftpPassiveSocket "127.0.0.1" 60201) eq_refl).
Defined.

Lemma list_flags_name_working_directory_witness :
  (commandList = commandList \/ commandList = commandNlst)
  /\ (matchListFlags "-la" = true \/ "-la" = "")
  /\ Forall (fun e => realElem e = true) []
  /\ namePrefix (wConn transferWorld) = rootedJoin []
  /\ ioError sampleEnv
       (wTrace transferWorld
        ++ [EvWrite 150 "Opening ASCII mode data connection for file list"]) = None
  /\ exists evs,
       wTrace (snd (Execute sampleEnv commandList "-la" transferWorld))
       = EvWrite 150 "Opening ASCII mode data connection for file list"
         :: EvDriver (CallDirContents "/") :: evs.
Proof.
  split; [left; reflexivity|]. split; [left; reflexivity|].
  split; [constructor|]. split; [reflexivity|]. split; [reflexivity|].
  exact (list_flags_name_working_directory sampleEnv transferWorld commandList "-la" []
           (or_introl eq_refl) (or_introl eq_refl) (Forall_nil _) eq_refl eq_refl).
Defined.
